(** * Candle aggregation, strategy engine and exchange connectors

    A shallow embedding of [models.py], [strategies.py],
    [connectors/binance.py] and [connectors/bitmex.py], and the properties
    of the candle aggregator, the order sizing, the position life cycle,
    the unrealized PnL, the REST wrapper and the websocket subscriptions,
    followed by those of the candle history, the ledger of trades, the
    dispatch of ticks to the strategies, the execution price, the
    historical candles and the contract list.

    Numeric conventions.  Python [int] is [Z].  Python [float] is modelled
    by the exact rationals [Q]: comparisons, [min]/[max] selections and
    assignments are exact in both worlds, arithmetic is idealised (no
    rounding error, no NaN, no infinity).  Values that the code merely
    copies are compared with Leibniz equality; values that it computes are
    compared with [==]. *)

From Stdlib Require Import ZArith QArith Qround Qabs Qminmax List String Ascii Bool Lia Lqa.
From Stdlib Require Import Sorted.
Import ListNotations.

Local Open Scope string_scope.
Local Open Scope list_scope.
Local Open Scope Z_scope.

(* ================================================================== *)
(** * Python primitives *)
(* ================================================================== *)

Module Py.

Inductive exn : Type :=
| IndexError | KeyError | AttributeError | TypeError
| ZeroDivisionError | ValueError | JSONDecodeError | ConnectionError.

Inductive result (A : Type) : Type :=
| Ok (a : A)
| Raise (e : exn).
Arguments Ok {A} a.
Arguments Raise {A} e.

Definition bind {A B} (m : result A) (k : A -> result B) : result B :=
  match m with
  | Ok a => k a
  | Raise e => Raise e
  end.

(** [x < y], [x > y], [x <= y], [x >= y] on floats. *)
Definition ltb (x y : Q) : bool := negb (Qle_bool y x).
Definition gtb (x y : Q) : bool := ltb y x.
Definition leb (x y : Q) : bool := Qle_bool x y.
Definition geb (x y : Q) : bool := Qle_bool y x.

(** [x / y]: true division, [ZeroDivisionError] on a zero divisor. *)
Definition truediv (x y : Q) : result Q :=
  if Qeq_bool y 0 then Raise ZeroDivisionError else Ok (x / y)%Q.

(** [int(x)]: truncation toward zero. *)
Definition int (x : Q) : Z := Z.quot (Qnum x) (Z.pos (Qden x)).

(** [round(x)]: nearest integer, ties to the even one. *)
Definition round (x : Q) : Z :=
  let f := Qfloor x in
  let r := (x - inject_Z f)%Q in
  if ltb r (1 # 2) then f
  else if ltb (1 # 2) r then f + 1
  else if Z.even f then f else f + 1.

(** [round(x, n)]: nearest multiple of [10^-n]. *)
Definition round_to (x : Q) (n : nat) : Q :=
  (inject_Z (round (x * inject_Z (10 ^ Z.of_nat n))) / inject_Z (10 ^ Z.of_nat n))%Q.

(** [min(a, b)]: the first of the smallest arguments. *)
Definition min (a b : Q) : Q := if ltb b a then b else a.

(** [l[-1]] and [l[-2]]. *)
Definition last {A} (l : list A) : result A :=
  match rev l with
  | x :: _ => Ok x
  | [] => Raise IndexError
  end.

Definition last2 {A} (l : list A) : result A :=
  match rev l with
  | _ :: x :: _ => Ok x
  | _ => Raise IndexError
  end.

(** A [dict] with string keys, in insertion order; a later assignment
    to a key replaces the value in place. *)
Definition dict (V : Type) : Type := list (string * V).

Fixpoint dict_get {V} (d : dict V) (k : string) : option V :=
  match d with
  | [] => None
  | (k', v) :: d' => if String.eqb k' k then Some v else dict_get d' k
  end.

Fixpoint dict_set {V} (d : dict V) (k : string) (v : V) : dict V :=
  match d with
  | [] => [(k, v)]
  | (k', v') :: d' =>
      if String.eqb k' k then (k', v) :: d' else (k', v') :: dict_set d' k v
  end.

(** [x in l] on a list of strings. *)
Definition str_in (x : string) (l : list string) : bool :=
  existsb (String.eqb x) l.

End Py.

Import Py.

Notation "x <- m ;; k" := (Py.bind m (fun x => k))
  (at level 61, m at next level, right associativity).
Notation "' p <- m ;; k" := (Py.bind m (fun x => let p := x in k))
  (at level 61, p pattern, m at next level, right associativity).

(* ================================================================== *)
(** * models.py *)
(* ================================================================== *)

Module Models.

(** Converts satoshi numbers to Bitcoin on Bitmex. *)
Definition BITMEX_MULTIPLIER : Q := 1 # 100000000.

Inductive Platform : Type := binance_futures | binance_spot | bitmex.

(** [Balance]: the attributes depend on the exchange. *)
Inductive Balance : Type :=
| MarginBalance (initial_margin maintenance_margin margin_balance
                 wallet_balance unrealized_pnl : Q)
| SpotBalance (free locked : Q).

Definition wallet_balance (b : Balance) : result Q :=
  match b with
  | MarginBalance _ _ _ w _ => Ok w
  | SpotBalance _ _ => Raise AttributeError
  end.

Definition free (b : Balance) : result Q :=
  match b with
  | SpotBalance f _ => Ok f
  | MarginBalance _ _ _ _ _ => Raise AttributeError
  end.

Record Candle : Type := mkCandle {
  timestamp : Z;
  open : Q;
  high : Q;
  low : Q;
  close : Q;
  volume : Q
}.

(** [Candle(candle_info, tf, "parse_trade")]. *)
Definition Candle_parse_trade (ts : Z) (o h l c v : Q) : Candle :=
  mkCandle ts o h l c v.

(** [Contract]; the two [*_decimals] attributes, which only format
    prices, are left out.  [inverse], [quanto] and [multiplier] exist
    on Bitmex contracts only. *)
Record Contract : Type := mkContract {
  symbol : string;
  base_asset : string;
  quote_asset : string;
  tick_size : Q;
  lot_size : Q;
  quanto : bool;
  inverse : bool;
  multiplier : Q;
  c_exchange : Platform
}.

(** The fields of a Bitmex instrument that [Contract.__init__] reads. *)
Record BitmexInstrument : Type := mkInstrument {
  i_symbol : string;
  i_rootSymbol : string;
  i_quoteCurrency : string;
  i_tickSize : Q;
  i_lotSize : Q;
  i_isQuanto : bool;
  i_isInverse : bool;
  i_multiplier : Q
}.

(** [Contract(contract_info, "bitmex")]. *)
Definition Contract_bitmex (info : BitmexInstrument) : Contract :=
  let m := (i_multiplier info * BITMEX_MULTIPLIER)%Q in
  let m := if i_isInverse info then (m * -1)%Q else m in
  mkContract (i_symbol info) (i_rootSymbol info) (i_quoteCurrency info)
             (i_tickSize info) (i_lotSize info)
             (i_isQuanto info) (i_isInverse info) m bitmex.

Inductive OrderId : Type :=
| IntId (n : Z)          (* Binance *)
| StrId (s : string).    (* Bitmex *)

Record OrderStatus : Type := mkOrderStatus {
  order_id : OrderId;
  os_status : string;
  avg_price : Q;
  executed_qty : Q
}.

Inductive Side : Type := long | short.
Inductive TradeStatus : Type := st_open | st_closed.

Record Trade : Type := mkTrade {
  time : Z;
  t_contract : Contract;
  strategy : string;
  side : Side;
  entry_price : option Q;
  status : TradeStatus;
  pnl : Q;
  quantity : Q;
  entry_id : OrderId
}.

Definition set_quantity (t : Trade) (q : Q) : Trade :=
  mkTrade (time t) (t_contract t) (strategy t) (side t) (entry_price t)
          (status t) (pnl t) q (entry_id t).
Definition set_status (t : Trade) (s : TradeStatus) : Trade :=
  mkTrade (time t) (t_contract t) (strategy t) (side t) (entry_price t)
          s (pnl t) (quantity t) (entry_id t).
Definition set_pnl (t : Trade) (p : Q) : Trade :=
  mkTrade (time t) (t_contract t) (strategy t) (side t) (entry_price t)
          (status t) p (quantity t) (entry_id t).
Definition set_fill (t : Trade) (p q : Q) : Trade :=
  mkTrade (time t) (t_contract t) (strategy t) (side t) (Some p)
          (status t) (pnl t) q (entry_id t).

Definition is_open (t : Trade) : bool :=
  match status t with st_open => true | st_closed => false end.

Definition has_entry (t : Trade) : bool :=
  match entry_price t with Some _ => true | None => false end.

End Models.

Import Models.

(* ================================================================== *)
(** * The REST side of the connectors that the strategies call *)
(* ================================================================== *)

Module Rest.

(** An order as handed to [place_order]. *)
Record OrderReq : Type := mkOrderReq {
  o_contract : Contract;
  o_type : string;
  o_quantity : Q;
  o_side : string
}.

(** What the exchange answers to the order endpoints during one call,
    after [_make_request] and the [OrderStatus] normalisation ([None]
    is the no-result value), and the wall clock in milliseconds. *)
Record Endpoints : Type := mkEndpoints {
  ep_place_order : OrderReq -> option OrderStatus;
  ep_get_order_status : Contract -> OrderId -> option OrderStatus;
  ep_now : Z
}.

(** The entries of the account responses that [Balance.__init__] reads. *)
Record FuturesAsset : Type := mkFuturesAsset {
  fa_asset : string;
  fa_initialMargin : Q;
  fa_maintMargin : Q;
  fa_marginBalance : Q;
  fa_walletBalance : Q;
  fa_unrealizedProfit : Q
}.

Record SpotAsset : Type := mkSpotAsset {
  sa_asset : string;
  sa_free : Q;
  sa_locked : Q
}.

Record BitmexMargin : Type := mkBitmexMargin {
  bm_currency : string;
  bm_initMargin : Q;
  bm_maintMargin : Q;
  bm_marginBalance : Q;
  bm_walletBalance : Q;
  bm_unrealisedPnl : Q
}.

(** A client as a strategy sees it: the class, its [futures] flag, and
    the answers of the exchange ([None]: the request failed). *)
Inductive Client : Type :=
| BinanceFuturesClient (account_data : option (list FuturesAsset)) (ep : Endpoints)
| BinanceSpotClient (account_data : option (list SpotAsset)) (ep : Endpoints)
| BitmexClient (margin_data : option (list BitmexMargin)) (ep : Endpoints).

Definition endpoints (cl : Client) : Endpoints :=
  match cl with
  | BinanceFuturesClient _ ep | BinanceSpotClient _ ep | BitmexClient _ ep => ep
  end.

Definition platform (cl : Client) : Platform :=
  match cl with
  | BinanceFuturesClient _ _ => binance_futures
  | BinanceSpotClient _ _ => binance_spot
  | BitmexClient _ _ => bitmex
  end.

Definition futures (cl : Client) : bool :=
  match cl with
  | BinanceSpotClient _ _ => false
  | _ => true
  end.

Definition Balance_binance_futures (a : FuturesAsset) : Balance :=
  MarginBalance (fa_initialMargin a) (fa_maintMargin a) (fa_marginBalance a)
                (fa_walletBalance a) (fa_unrealizedProfit a).

Definition Balance_binance_spot (a : SpotAsset) : Balance :=
  SpotBalance (sa_free a) (sa_locked a).

Definition Balance_bitmex (a : BitmexMargin) : Balance :=
  MarginBalance (bm_initMargin a * BITMEX_MULTIPLIER)
                (bm_maintMargin a * BITMEX_MULTIPLIER)
                (bm_marginBalance a * BITMEX_MULTIPLIER)
                (bm_walletBalance a * BITMEX_MULTIPLIER)
                (bm_unrealisedPnl a * BITMEX_MULTIPLIER).

(** The loop [for a in data: balances[key(a)] = Balance(a, platform)]. *)
Definition collect {A} (key : A -> string) (mk : A -> Balance)
    (data : option (list A)) : dict Balance :=
  match data with
  | None => []
  | Some l => fold_left (fun d a => dict_set d (key a) (mk a)) l []
  end.

(** [get_balances]: always a dict, empty when the request failed. *)
Definition get_balances (cl : Client) : dict Balance :=
  match cl with
  | BinanceFuturesClient data _ => collect fa_asset Balance_binance_futures data
  | BinanceSpotClient data _ => collect sa_asset Balance_binance_spot data
  | BitmexClient data _ => collect bm_currency Balance_bitmex data
  end.

Definition place_order (cl : Client) (c : Contract) (order_type : string)
    (qty : Q) (order_side : string) : option OrderStatus :=
  ep_place_order (endpoints cl) (mkOrderReq c order_type qty order_side).

Definition get_order_status (cl : Client) (c : Contract) (oid : OrderId)
    : option OrderStatus :=
  ep_get_order_status (endpoints cl) c oid.

(** [BinanceClient.get_trade_size], on the balance dict it fetched. *)
Definition binance_get_trade_size (futures : bool) (balance : dict Balance)
    (contract : Contract) (price balance_pct : Q) : result (option Q) :=
  match dict_get balance (quote_asset contract) with
  | None => Ok None
  | Some b =>
      balance <- (if futures then wallet_balance b else free b) ;;
      trade_size <- truediv (balance * balance_pct / 100)%Q price ;;
      lots <- truediv trade_size (lot_size contract) ;;
      Ok (Some (round_to (inject_Z (round lots) * lot_size contract)%Q 8))
  end.

(** [BitmexClient.get_trade_size], on the balance dict it fetched. *)
Definition bitmex_get_trade_size (balance : dict Balance)
    (contract : Contract) (price balance_pct : Q) : result (option Q) :=
  match dict_get balance "XBt" with
  | None => Ok None
  | Some b =>
      balance <- wallet_balance b ;;
      let xbt_size := (balance * balance_pct / 100)%Q in
      contracts_number <-
        (if inverse contract then
           d <- truediv (multiplier contract) price ;; truediv xbt_size d
         else if quanto contract then
           truediv xbt_size (multiplier contract * price)%Q
         else
           truediv xbt_size (multiplier contract * price)%Q) ;;
      Ok (Some (inject_Z (int contracts_number)))
  end.

Definition get_trade_size (cl : Client) (contract : Contract)
    (price balance_pct : Q) : result (option Q) :=
  match cl with
  | BitmexClient _ _ => bitmex_get_trade_size (get_balances cl) contract price balance_pct
  | _ => binance_get_trade_size (futures cl) (get_balances cl) contract price balance_pct
  end.

End Rest.

Import Rest.

(* ================================================================== *)
(** * strategies.py *)
(* ================================================================== *)

Module Strategies.

Inductive Timeframe : Type := tf_1m | tf_5m | tf_15m | tf_30m | tf_1h | tf_4h.

(** Seconds per timeframe. *)
Definition TF_EQUIV (t : Timeframe) : Z :=
  match t with
  | tf_1m => 60 | tf_5m => 300 | tf_15m => 900
  | tf_30m => 1800 | tf_1h => 3600 | tf_4h => 14400
  end.

(** The entries that [_add_log] appends to [self.logs]. *)
Inductive LogMsg : Type :=
| LogSignal (position_side : Side) (sym : string) (t : Timeframe)
| LogOrderPlaced (order_side : string) (exchange : string) (st : string)
| LogStopLoss (sym : string) (t : Timeframe) (price : Q) (entry : option Q)
| LogTakeProfit (sym : string) (t : Timeframe) (price : Q) (entry : option Q)
| LogExitPlaced (sym : string) (t : Timeframe).

(** The two subclasses and their [other_params]. *)
Inductive Variant : Type :=
| Technical (ema_fast ema_slow ema_signal rsi_length : Z)
| Breakout (min_volume : Q).

Record Strategy : Type := mkStrategy {
  contract : Contract;
  exchange : string;
  tf : Timeframe;
  balance_pct : Q;
  take_profit : option Q;
  stop_loss : option Q;
  strat_name : string;
  ongoing_position : bool;
  candles : list Candle;
  trades : list Trade;
  logs : list LogMsg;
  variant : Variant
}.

(** [self.tf_equiv], set once by [__init__], in milliseconds. *)
Definition tf_equiv (self : Strategy) : Z := TF_EQUIV (tf self) * 1000.

Definition set_ongoing_position (s : Strategy) (b : bool) : Strategy :=
  mkStrategy (contract s) (exchange s) (tf s) (balance_pct s) (take_profit s)
             (stop_loss s) (strat_name s) b (candles s) (trades s) (logs s)
             (variant s).
Definition set_candles (s : Strategy) (cs : list Candle) : Strategy :=
  mkStrategy (contract s) (exchange s) (tf s) (balance_pct s) (take_profit s)
             (stop_loss s) (strat_name s) (ongoing_position s) cs (trades s)
             (logs s) (variant s).
Definition set_trades (s : Strategy) (ts : list Trade) : Strategy :=
  mkStrategy (contract s) (exchange s) (tf s) (balance_pct s) (take_profit s)
             (stop_loss s) (strat_name s) (ongoing_position s) (candles s) ts
             (logs s) (variant s).
Definition _add_log (s : Strategy) (msg : LogMsg) : Strategy :=
  mkStrategy (contract s) (exchange s) (tf s) (balance_pct s) (take_profit s)
             (stop_loss s) (strat_name s) (ongoing_position s) (candles s)
             (trades s) (logs s ++ [msg]) (variant s).

(** [Strategy.__init__] through one of the subclasses. *)
Definition init (c : Contract) (exch : string) (t : Timeframe)
    (pct : Q) (tp sl : option Q) (v : Variant) : Strategy :=
  mkStrategy c exch t pct tp sl
             (match v with Technical _ _ _ _ => "Technical" | Breakout _ => "Breakout" end)
             false [] [] [] v.

(** What a call leaves outside the strategy object. *)
Inductive Effect : Type :=
| PlaceOrder (o : OrderReq)
| StartTimer (oid : OrderId).   (* Timer(2.0, _check_order_status(oid)) *)

(** The value [parse_trades] returns; [ret_None] is falling off the end
    of the function. *)
Inductive ParseResult : Type := same_candle | new_candle | ret_None.

(** [trade.entry_price * f], a [TypeError] on a missing entry price. *)
Definition entry_times (trade : Trade) (f : Q) : result Q :=
  match entry_price trade with
  | Some e => Ok (e * f)%Q
  | None => Raise TypeError
  end.

(** One threshold test of [_check_tp_sl], skipped when the parameter is
    [None]. *)
Definition threshold (param : option Q) (test : Q -> result bool) : result bool :=
  match param with
  | Some p => test p
  | None => Ok false
  end.

Definition _check_tp_sl (cl : Client) (self : Strategy) (trade : Trade)
    : result (Strategy * Trade * list Effect) :=
  last_candle <- Py.last (candles self) ;;
  let price := close last_candle in
  ' (sl_triggered, tp_triggered) <-
    match side trade with
    | long =>
        sl <- threshold (stop_loss self) (fun p =>
                lim <- entry_times trade (1 - p / 100)%Q ;; Ok (leb price lim)) ;;
        tp <- threshold (take_profit self) (fun p =>
                lim <- entry_times trade (1 + p / 100)%Q ;; Ok (geb price lim)) ;;
        Ok (sl, tp)
    | short =>
        sl <- threshold (stop_loss self) (fun p =>
                lim <- entry_times trade (1 + p / 100)%Q ;; Ok (geb price lim)) ;;
        tp <- threshold (take_profit self) (fun p =>
                lim <- entry_times trade (1 - p / 100)%Q ;; Ok (leb price lim)) ;;
        Ok (sl, tp)
    end ;;
  if tp_triggered || sl_triggered then
    let self :=
      _add_log self
        (if sl_triggered
         then LogStopLoss (symbol (contract self)) (tf self) price (entry_price trade)
         else LogTakeProfit (symbol (contract self)) (tf self) price (entry_price trade)) in
    let order_side := match side trade with long => "SELL" | short => "BUY" end in
    trade <-
      (if negb (futures cl) then
         let current_balances := get_balances cl in
         match side trade, dict_get current_balances (base_asset (contract self)) with
         | long, Some b =>
             f <- free b ;; Ok (set_quantity trade (Py.min f (quantity trade)))
         | _, _ => Ok trade
         end
       else Ok trade) ;;
    let order_status :=
      place_order cl (contract self) "MARKET" (quantity trade) order_side in
    let sent := [PlaceOrder (mkOrderReq (contract self) "MARKET" (quantity trade) order_side)] in
    match order_status with
    | Some _ =>
        let self := _add_log self (LogExitPlaced (symbol (contract self)) (tf self)) in
        Ok (set_ongoing_position self false, set_status trade st_closed, sent)
    | None => Ok (self, trade, sent)
    end
  else Ok (self, trade, []).

(** The loop [for trade in self.trades] of [parse_trades]: the trades
    are updated in place, [self] carries the flag and the logs. *)
Fixpoint check_open_trades (cl : Client) (self : Strategy) (ts : list Trade)
    : result (Strategy * list Trade * list Effect) :=
  match ts with
  | [] => Ok (self, [], [])
  | trade :: rest =>
      ' (self, trade, eff1) <-
        (if is_open trade && has_entry trade
         then _check_tp_sl cl self trade
         else Ok (self, trade, [])) ;;
      ' (self, rest, eff2) <- check_open_trades cl self rest ;;
      Ok (self, trade :: rest, eff1 ++ eff2)
  end.

(** The candle [parse_trades] builds from a tick. *)
Definition tick_candle (ts : Z) (price size : Q) : Candle :=
  Candle_parse_trade ts price price price price size.

(** The flat candle [parse_trades] builds for a bucket without ticks. *)
Definition flat_candle (ts : Z) (c : Q) : Candle :=
  Candle_parse_trade ts c c c c 0.

(** The loop [for missing in range(missing_candles)]: the list and the
    variable [last_candle] after [n] rounds. *)
Fixpoint fill_missing (n : nat) (W : Z) (last_candle : Candle) (cs : list Candle)
    : list Candle * Candle :=
  match n with
  | O => (cs, last_candle)
  | S n' =>
      let new_ts := timestamp last_candle + W in
      let new_c := flat_candle new_ts (close last_candle) in
      fill_missing n' W new_c (cs ++ [new_c])
  end.

Definition set_close (c : Candle) (x : Q) : Candle :=
  mkCandle (timestamp c) (open c) (high c) (low c) x (volume c).
Definition set_volume (c : Candle) (x : Q) : Candle :=
  mkCandle (timestamp c) (open c) (high c) (low c) (close c) x.
Definition set_high (c : Candle) (x : Q) : Candle :=
  mkCandle (timestamp c) (open c) x (low c) (close c) (volume c).
Definition set_low (c : Candle) (x : Q) : Candle :=
  mkCandle (timestamp c) (open c) (high c) x (close c) (volume c).

(** The in-place update of the last candle by a tick of its bucket. *)
Definition update_candle (last_candle : Candle) (price size : Q) : Candle :=
  let last_candle := set_close last_candle price in
  let last_candle := set_volume last_candle (volume last_candle + size) in
  if gtb price (high last_candle) then set_high last_candle price
  else if ltb price (low last_candle) then set_low last_candle price
  else last_candle.

(** [parse_trades]; the log lines about the wall clock and the candles
    are left out.  The gap count [int((timestamp - T) / tf_equiv)] goes
    through a float in the source; for millisecond timestamps (far below
    [2^53]) that quotient truncates to the exact integer quotient, which
    is what [truediv] on [Q] followed by [int] computes. *)
Definition parse_trades (cl : Client) (self : Strategy) (price size : Q) (ts : Z)
    : result (Strategy * ParseResult * list Effect) :=
  last_candle <- Py.last (candles self) ;;
  if ts <? timestamp last_candle + tf_equiv self then
    (* Same Candle *)
    let last_candle := update_candle last_candle price size in
    let self := set_candles self (removelast (candles self) ++ [last_candle]) in
    ' (self', trades', eff) <- check_open_trades cl self (trades self) ;;
    Ok (set_trades self' trades', same_candle, eff)
  else if ts >=? timestamp last_candle + 2 * tf_equiv self then
    (* Missing Candle(s) *)
    q <- truediv (inject_Z (ts - timestamp last_candle)) (inject_Z (tf_equiv self)) ;;
    let missing_candles := int q - 1 in
    let '(cs, last_candle) :=
      fill_missing (Z.to_nat missing_candles) (tf_equiv self) last_candle (candles self) in
    let new_ts := timestamp last_candle + tf_equiv self in
    let new_c := tick_candle new_ts price size in
    Ok (set_candles self (cs ++ [new_c]), new_candle, [])
  else if ts >=? timestamp last_candle + tf_equiv self then
    (* New Candle *)
    let new_ts := timestamp last_candle + tf_equiv self in
    let new_c := tick_candle new_ts price size in
    Ok (set_candles self (candles self ++ [new_c]), new_candle, [])
  else Ok (self, ret_None, []).

Definition OrderId_eqb (a b : OrderId) : bool :=
  match a, b with
  | IntId x, IntId y => x =? y
  | StrId x, StrId y => String.eqb x y
  | _, _ => false
  end.

(** The loop of [_check_order_status]: the first trade entered by the
    order gets its price and quantity. *)
Fixpoint fill_trade (ts : list Trade) (oid : OrderId) (os : OrderStatus) : list Trade :=
  match ts with
  | [] => []
  | trade :: rest =>
      if OrderId_eqb (entry_id trade) oid
      then set_fill trade (avg_price os) (executed_qty os) :: rest
      else trade :: fill_trade rest oid os
  end.

Definition _check_order_status (cl : Client) (self : Strategy) (oid : OrderId)
    : Strategy * list Effect :=
  match get_order_status cl (contract self) oid with
  | Some os =>
      if String.eqb (os_status os) "filled"
      then (set_trades self (fill_trade (trades self) oid os), [])
      else (self, [StartTimer oid])
  | None => (self, [StartTimer oid])
  end.

Definition _open_position (cl : Client) (self : Strategy) (signal_result : Z)
    : result (Strategy * list Effect) :=
  if match platform cl with binance_spot => true | _ => false end
     && (signal_result =? -1)
  then Ok (self, [])
  else
    last_candle <- Py.last (candles self) ;;
    trade_size <- get_trade_size cl (contract self) (close last_candle) (balance_pct self) ;;
    match trade_size with
    | None => Ok (self, [])
    | Some trade_size =>
        let order_side := if signal_result =? 1 then "buy" else "sell" in
        let position_side := if signal_result =? 1 then long else short in
        let self := _add_log self (LogSignal position_side (symbol (contract self)) (tf self)) in
        let req := mkOrderReq (contract self) "MARKET" trade_size order_side in
        match place_order cl (contract self) "MARKET" trade_size order_side with
        | None => Ok (self, [PlaceOrder req])
        | Some order_status =>
            let self := _add_log self (LogOrderPlaced order_side (exchange self)
                                                      (os_status order_status)) in
            let self := set_ongoing_position self true in
            let '(avg_fill_price, timer) :=
              if String.eqb (os_status order_status) "filled"
              then (Some (avg_price order_status), [])
              else (None, [StartTimer (order_id order_status)]) in
            let new_trade :=
              mkTrade (ep_now (endpoints cl)) (contract self) (strat_name self)
                      position_side avg_fill_price st_open 0
                      (executed_qty order_status) (order_id order_status) in
            Ok (set_trades self (trades self ++ [new_trade]), PlaceOrder req :: timer)
        end
    end.

(** [BreakoutStrategy._check_signal]. *)
Definition breakout_check_signal (self : Strategy) (min_volume : Q) : result Z :=
  c1 <- Py.last (candles self) ;;
  c2 <- Py.last2 (candles self) ;;
  if gtb (close c1) (high c2) && gtb (volume c1) min_volume then Ok 1
  else if ltb (close c1) (low c2) && gtb (volume c1) min_volume then Ok (-1)
  else Ok 0.

(** A tick with the client that accompanies it. *)
Definition Tick : Type := (Client * Q * Q * Z)%type.

Definition tick_size (t : Tick) : Q := let '(_, _, size, _) := t in size.


Section Indicators.

(** The pandas pipelines of [_rsi] and [_macd] on the list of closes:
    exponentially weighted means in floating point, taken as given.
    They raise when the series is too short for [iloc[-2]]. *)
Variable pandas_rsi : Z -> list Q -> result Q.
Variable pandas_macd : Z -> Z -> Z -> list Q -> result (Q * Q).

Definition _rsi (self : Strategy) (rsi_length : Z) : result Q :=
  pandas_rsi rsi_length (map close (candles self)).

Definition _macd (self : Strategy) (ema_fast ema_slow ema_signal : Z)
    : result (Q * Q) :=
  pandas_macd ema_fast ema_slow ema_signal (map close (candles self)).

(** [TechnicalStrategy._check_signal]. *)
Definition technical_check_signal (self : Strategy)
    (ema_fast ema_slow ema_signal rsi_length : Z) : result Z :=
  ' (macd_line, macd_signal) <- _macd self ema_fast ema_slow ema_signal ;;
  rsi <- _rsi self rsi_length ;;
  if ltb rsi 30 && gtb macd_line macd_signal then Ok 1
  else if gtb rsi 70 && ltb macd_line macd_signal then Ok (-1)
  else Ok 0.

Definition signal_in_1_m1 (signal_result : Z) : bool :=
  (signal_result =? 1) || (signal_result =? -1).

(** [check_trade] of the two subclasses. *)
Definition check_trade (cl : Client) (self : Strategy) (tick_type : ParseResult)
    : result (Strategy * list Effect) :=
  match variant self with
  | Technical ema_fast ema_slow ema_signal rsi_length =>
      if match tick_type with new_candle => true | _ => false end
         && negb (ongoing_position self)
      then
        signal_result <- technical_check_signal self ema_fast ema_slow ema_signal rsi_length ;;
        if signal_in_1_m1 signal_result
        then _open_position cl self signal_result
        else Ok (self, [])
      else Ok (self, [])
  | Breakout min_volume =>
      if negb (ongoing_position self)
      then
        signal_result <- breakout_check_signal self min_volume ;;
        if signal_in_1_m1 signal_result
        then _open_position cl self signal_result
        else Ok (self, [])
      else Ok (self, [])
  end.

(** The calls a strategy object receives: the two of the websocket
    handler, and the timer callback. *)
Inductive Call : Type :=
| CallParseTrades (cl : Client) (price size : Q) (ts : Z)
| CallCheckTrade (cl : Client) (tick_type : ParseResult)
| CallCheckOrderStatus (cl : Client) (oid : OrderId).

(** The object after a call.  A call that raises does so before it
    assigns anything ([parse_trades] on the access to the last candle,
    [check_trade] in the signal or in the sizing), so the object is
    then unchanged. *)
Definition after (self : Strategy) (c : Call) : Strategy :=
  match c with
  | CallParseTrades cl price size ts =>
      match parse_trades cl self price size ts with
      | Ok (self', _, _) => self'
      | Raise _ => self
      end
  | CallCheckTrade cl tick_type =>
      match check_trade cl self tick_type with
      | Ok (self', _) => self'
      | Raise _ => self
      end
  | CallCheckOrderStatus cl oid => fst (_check_order_status cl self oid)
  end.

Definition run (self : Strategy) (calls : list Call) : Strategy :=
  fold_left after calls self.

End Indicators.

End Strategies.

Import Strategies.

(* ================================================================== *)
(** * connectors: the REST wrapper [_make_request] *)
(* ================================================================== *)

Module Http.

#[local] Unset Elimination Schemes.
Inductive JSON : Type :=
| JNull
| JBool (b : bool)
| JNum (q : Q)
| JStr (s : string)
| JList (l : list JSON)
| JDict (d : list (string * JSON)).
#[local] Set Elimination Schemes.

Record Request : Type := mkRequest {
  rq_verb : string;          (* which of requests.get / post / delete *)
  rq_url : string;
  rq_params : list (string * string)
}.

(** A [requests.Response]: [json()] raises when the body is not JSON. *)
Record Response : Type := mkResponse {
  status_code : Z;
  json : result JSON
}.

(** The network during one call: what [requests.get/post/delete] does
    with a request, a response or an exception. *)
Definition Network : Type := Request -> result Response.

(** The calls of [logger.error]. *)
Inductive ErrorLog : Type :=
| ConnectionErrorLog (method endpoint : string) (e : exn)
| StatusErrorLog (method endpoint : string) (body : JSON) (code : Z).

(** The outcome of a call with what it left behind: the requests put on
    the wire and the errors logged. *)
Record Outcome : Type := mkOutcome {
  wire : list Request;
  errors : list ErrorLog;
  value : result (option JSON)
}.

(** [_make_request] of both connectors; they differ in the headers
    only (an API key for Binance, a signature for Bitmex), which do not
    influence the control flow. *)
Definition _make_request (net : Network) (base_url : string)
    (method endpoint : string) (data : list (string * string)) : Outcome :=
  if String.eqb method "GET" || String.eqb method "POST" || String.eqb method "DELETE"
  then
    let rq := mkRequest method (base_url ++ endpoint)%string data in
    match net rq with
    | Raise e =>
        mkOutcome [rq] [ConnectionErrorLog method endpoint e] (Ok None)
    | Ok response =>
        if status_code response =? 200 then
          mkOutcome [rq] [] (body <- json response ;; Ok (Some body))
        else
          match json response with
          | Ok body =>
              mkOutcome [rq] [StatusErrorLog method endpoint body (status_code response)]
                        (Ok None)
          | Raise e => mkOutcome [rq] [] (Raise e)
          end
    end
  else mkOutcome [] [] (Raise ValueError).

End Http.

(* ================================================================== *)
(** * connectors/binance.py: the websocket side *)
(* ================================================================== *)

Module Binance.

Inductive Channel : Type := bookTicker | aggTrade.

Definition channel_name (ch : Channel) : string :=
  match ch with bookTicker => "bookTicker" | aggTrade => "aggTrade" end.

(** The subscribe message handed to [ws.send]. *)
Record Subscribe : Type := mkSubscribe {
  sub_params : list string;
  sub_id : Z
}.

(** The client object: [contracts] holds the values of
    [self.contracts] in the order [get_contracts] assigned them, each
    under the key of its own symbol; [ws_sent] collects the calls of
    [ws.send]. *)
Record State : Type := mkState {
  contracts : list Contract;
  subs_bookTicker : list string;
  subs_aggTrade : list string;
  _ws_id : Z;
  ws_connected : bool;
  prices : dict (Q * Q);
  strategies : list (Z * Strategy);
  ws_sent : list Subscribe
}.

(** The object after [__init__]. *)
Definition init (cs : list Contract) : State :=
  mkState cs [] [] 1 false [] [] [].

Definition ws_subscriptions (st : State) (ch : Channel) : list string :=
  match ch with
  | bookTicker => subs_bookTicker st
  | aggTrade => subs_aggTrade st
  end.

Definition record_symbol (st : State) (ch : Channel) (s : string) : State :=
  match ch with
  | bookTicker =>
      mkState (contracts st) (subs_bookTicker st ++ [s]) (subs_aggTrade st)
              (_ws_id st) (ws_connected st) (prices st) (strategies st) (ws_sent st)
  | aggTrade =>
      mkState (contracts st) (subs_bookTicker st) (subs_aggTrade st ++ [s])
              (_ws_id st) (ws_connected st) (prices st) (strategies st) (ws_sent st)
  end.

Definition send (st : State) (params : list string) : State :=
  mkState (contracts st) (subs_bookTicker st) (subs_aggTrade st)
          (_ws_id st + 1) (ws_connected st) (prices st) (strategies st)
          (ws_sent st ++ [mkSubscribe params (_ws_id st)]).

Definition set_ws_connected (st : State) (b : bool) : State :=
  mkState (contracts st) (subs_bookTicker st) (subs_aggTrade st)
          (_ws_id st) b (prices st) (strategies st) (ws_sent st).

Definition set_prices (st : State) (p : dict (Q * Q)) : State :=
  mkState (contracts st) (subs_bookTicker st) (subs_aggTrade st)
          (_ws_id st) (ws_connected st) p (strategies st) (ws_sent st).

Definition set_strategies (st : State) (l : list (Z * Strategy)) : State :=
  mkState (contracts st) (subs_bookTicker st) (subs_aggTrade st)
          (_ws_id st) (ws_connected st) (prices st) l (ws_sent st).

(** [self.contracts[symbol]]: the last value assigned under the key. *)
Definition contracts_get (st : State) (sym : string) : result Contract :=
  match find (fun c => String.eqb (symbol c) sym) (rev (contracts st)) with
  | Some c => Ok c
  | None => Raise KeyError
  end.

Definition lower_ascii (a : ascii) : ascii :=
  let n := nat_of_ascii a in
  if (65 <=? n)%nat && (n <=? 90)%nat then ascii_of_nat (n + 32) else a.

Fixpoint lower (s : string) : string :=
  match s with
  | EmptyString => EmptyString
  | String a s' => String (lower_ascii a) (lower s')
  end.

Definition topic (sym : string) (ch : Channel) : string :=
  (lower sym ++ "@" ++ channel_name ch)%string.

(** The loop [for contract in contracts] of [subscribe_channel]. *)
Fixpoint subscribe_loop (st : State) (cs : list Contract) (ch : Channel)
    (reconnection : bool) (params : list string) : State * list string :=
  match cs with
  | [] => (st, params)
  | contract :: rest =>
      if negb (str_in (symbol contract) (ws_subscriptions st ch)) || reconnection then
        let params := params ++ [topic (symbol contract) ch] in
        let st :=
          if negb (str_in (symbol contract) (ws_subscriptions st ch))
          then record_symbol st ch (symbol contract)
          else st in
        subscribe_loop st rest ch reconnection params
      else subscribe_loop st rest ch reconnection params
  end.

Definition subscribe_channel (st : State) (cs : list Contract) (ch : Channel)
    (reconnection : bool) : State :=
  match cs with
  | [] => send st [channel_name ch]
  | _ =>
      let '(st, params) := subscribe_loop st cs ch reconnection [] in
      match params with
      | [] => st
      | _ => send st params
      end
  end.

(** The loop [for symbol in self.ws_subscriptions[channel]] of
    [_on_open]; a [KeyError] ends it with the object as it is then. *)
Fixpoint resubscribe (st : State) (symbols : list string) (ch : Channel)
    : State * option exn :=
  match symbols with
  | [] => (st, None)
  | sym :: rest =>
      match contracts_get st sym with
      | Raise e => (st, Some e)
      | Ok c => resubscribe (subscribe_channel st [c] ch true) rest ch
      end
  end.

Definition _on_open (st : State) : State * option exn :=
  let st := set_ws_connected st true in
  match resubscribe st (subs_bookTicker st) bookTicker with
  | (st, Some e) => (st, Some e)
  | (st, None) =>
      match resubscribe st (subs_aggTrade st) aggTrade with
      | (st, Some e) => (st, Some e)
      | (st, None) =>
          if negb (str_in "BTCUSDT" (subs_bookTicker st)) then
            match contracts_get st "BTCUSDT" with
            | Raise e => (st, Some e)
            | Ok c => (subscribe_channel st [c] bookTicker false, None)
            end
          else (st, None)
      end
  end.

Definition _on_close (st : State) : State := set_ws_connected st false.

(** The objects the program reaches.  The callers of
    [subscribe_channel] (the watchlist, the strategy editor and
    [_on_open]) pass contracts taken from [self.contracts]. *)
Inductive reachable : State -> Prop :=
| reach_init cs : reachable (init cs)
| reach_subscribe st cs ch reconnection :
    reachable st -> Forall (fun c => In c (contracts st)) cs ->
    reachable (subscribe_channel st cs ch reconnection)
| reach_open st : reachable st -> reachable (fst (_on_open st))
| reach_close st : reachable st -> reachable (_on_close st)
| reach_prices st p : reachable st -> reachable (set_prices st p)
| reach_strategies st l : reachable st -> reachable (set_strategies st l).

(** The PnL assignment of [_on_message] for one trade. *)
Definition update_pnl (bid ask : Q) (trade : Trade) : Trade :=
  if is_open trade && has_entry trade then
    match entry_price trade, side trade with
    | Some entry, long => set_pnl trade ((bid - entry) * quantity trade)%Q
    | Some entry, short => set_pnl trade ((entry - ask) * quantity trade)%Q
    | None, _ => trade
    end
  else trade.

(** [_on_message] on a [bookTicker] update. *)
Definition on_bookTicker (st : State) (sym : string) (b a : Q) : State :=
  let st := set_prices st (dict_set (prices st) sym (b, a)) in
  match dict_get (prices st) sym with
  | Some (bid, ask) =>
      set_strategies st
        (map (fun kv : Z * Strategy =>
                let (k, strat) := kv in
                if String.eqb (symbol (contract strat)) sym
                then (k, set_trades strat (map (update_pnl bid ask) (trades strat)))
                else (k, strat))
             (strategies st))
  | None => st
  end.

End Binance.

(* ================================================================== *)
(** * connectors/bitmex.py: the websocket side *)
(* ================================================================== *)

Module Bitmex.

(** One entry of the [data] list of an [instrument] message. *)
Record InstrumentUpdate : Type := mkUpdate {
  u_symbol : string;
  u_bidPrice : option Q;
  u_askPrice : option Q
}.

Record State : Type := mkState {
  prices : dict (option Q * option Q);
  strategies : list (Z * Strategy)
}.

(** Arithmetic on a price that may still be [None]. *)
Definition number (p : option Q) : result Q :=
  match p with
  | Some x => Ok x
  | None => Raise TypeError
  end.

(** The PnL assignment of [_on_message] for one trade. *)
Definition update_pnl (bid ask : option Q) (trade : Trade) : result Trade :=
  if is_open trade && has_entry trade then
    let price := match side trade with long => bid | short => ask end in
    let multiplier := multiplier (t_contract trade) in
    entry <- number (entry_price trade) ;;
    if inverse (t_contract trade) then
      match side trade with
      | long =>
          a <- truediv 1 entry ;;
          p <- number price ;;
          b <- truediv 1 p ;;
          Ok (set_pnl trade ((a - b) * multiplier * quantity trade)%Q)
      | short =>
          p <- number price ;;
          a <- truediv 1 p ;;
          b <- truediv 1 entry ;;
          Ok (set_pnl trade ((a - b) * multiplier * quantity trade)%Q)
      end
    else
      p <- number price ;;
      match side trade with
      | long => Ok (set_pnl trade ((p - entry) * multiplier * quantity trade)%Q)
      | short => Ok (set_pnl trade ((entry - p) * multiplier * quantity trade)%Q)
      end
  else Ok trade.

Fixpoint update_trades (bid ask : option Q) (ts : list Trade) : result (list Trade) :=
  match ts with
  | [] => Ok []
  | trade :: rest =>
      trade <- update_pnl bid ask trade ;;
      rest <- update_trades bid ask rest ;;
      Ok (trade :: rest)
  end.

Fixpoint update_strategies (sym : string) (bid ask : option Q)
    (l : list (Z * Strategy)) : result (list (Z * Strategy)) :=
  match l with
  | [] => Ok []
  | (k, strat) :: rest =>
      strat <-
        (if String.eqb (symbol (contract strat)) sym
         then ts <- update_trades bid ask (trades strat) ;; Ok (set_trades strat ts)
         else Ok strat) ;;
      rest <- update_strategies sym bid ask rest ;;
      Ok ((k, strat) :: rest)
  end.

(** [_on_message] for one entry [d] of an [instrument] message. *)
Definition on_instrument (st : State) (d : InstrumentUpdate) : result State :=
  let sym := u_symbol d in
  let '(bid, ask) :=
    match dict_get (prices st) sym with
    | Some p => p
    | None => (None, None)
    end in
  let bid := match u_bidPrice d with Some b => Some b | None => bid end in
  let ask := match u_askPrice d with Some a => Some a | None => ask end in
  let prices := dict_set (prices st) sym (bid, ask) in
  l <- update_strategies sym bid ask (strategies st) ;;
  Ok (mkState prices l).

End Bitmex.

(* ================================================================== *)
(** * connectors: the trade branches of [_on_message] *)
(* ================================================================== *)

Module Dispatch.

Section Indicators.

Variable pandas_rsi : Z -> list Q -> result Q.
Variable pandas_macd : Z -> Z -> Z -> list Q -> result (Q * Q).

(** The loop [for key, strat in self.strategies.items()] of the
    [aggTrade] branch (Binance) and of the [trade] branch (Bitmex):
    every strategy on the symbol parses the tick and checks for a
    trade.  [seen key] holds what the exchange answers during the two
    calls on the strategy under [key].  Nothing catches an exception
    here: it ends the loop, and the strategies keep what was assigned
    until then. *)
Fixpoint on_aggTrade (seen : Z -> Client * Client) (l : list (Z * Strategy))
    (sym : string) (p q : Q) (T : Z)
    : list (Z * Strategy) * list Effect * option exn :=
  match l with
  | [] => ([], [], None)
  | (key, strat) :: rest =>
      if String.eqb (symbol (contract strat)) sym then
        match parse_trades (fst (seen key)) strat p q T with
        | Raise e => ((key, strat) :: rest, [], Some e)
        | Ok (strat, res, eff1) =>
            match check_trade pandas_rsi pandas_macd (snd (seen key)) strat res with
            | Raise e => ((key, strat) :: rest, eff1, Some e)
            | Ok (strat, eff2) =>
                let '(rest, eff, e) := on_aggTrade seen rest sym p q T in
                ((key, strat) :: rest, eff1 ++ eff2 ++ eff, e)
            end
        end
      else
        let '(rest, eff, e) := on_aggTrade seen rest sym p q T in
        ((key, strat) :: rest, eff, e)
  end.

(** One entry of the [data] list of a Bitmex [trade] message, with its
    timestamp in milliseconds. *)
Record TradeUpdate : Type := mkTradeUpdate {
  d_symbol : string;
  d_price : Q;
  d_size : Q;
  d_ts : Z
}.

(** The loop [for d in data['data']] of the Bitmex [trade] branch;
    [seen n] is for the entry at index [n]. *)
Fixpoint on_trade (seen : nat -> Z -> Client * Client) (n : nat)
    (l : list (Z * Strategy)) (data : list TradeUpdate)
    : list (Z * Strategy) * list Effect * option exn :=
  match data with
  | [] => (l, [], None)
  | d :: rest =>
      match on_aggTrade (seen n) l (d_symbol d) (d_price d) (d_size d) (d_ts d) with
      | (l, eff, Some e) => (l, eff, Some e)
      | (l, eff, None) =>
          let '(l, eff', e) := on_trade seen (S n) l rest in
          (l, eff ++ eff', e)
      end
  end.

(** What reaches the strategies of a Binance client: the two websocket
    updates, and the timer that polls an order for the strategy under
    [key]. *)
Inductive Event : Type :=
| BookTicker (sym : string) (b a : Q)
| AggTrade (seen : Z -> Client * Client) (sym : string) (p q : Q) (T : Z)
| Timer (cl : Client) (key : Z) (oid : OrderId).

Definition step (st : Binance.State) (ev : Event) : Binance.State :=
  match ev with
  | BookTicker sym b a => Binance.on_bookTicker st sym b a
  | AggTrade seen sym p q T =>
      Binance.set_strategies st
        (fst (fst (on_aggTrade seen (Binance.strategies st) sym p q T)))
  | Timer cl key oid =>
      Binance.set_strategies st
        (map (fun kv : Z * Strategy =>
                if fst kv =? key
                then (fst kv, fst (_check_order_status cl (snd kv) oid))
                else kv)
             (Binance.strategies st))
  end.

Definition steps (st : Binance.State) (evs : list Event) : Binance.State :=
  fold_left step evs st.

End Indicators.

End Dispatch.

(* ================================================================== *)
(** * connectors/binance.py: orders and their execution price *)
(* ================================================================== *)

Module BinanceRest.

(** [round(round(x / tick_size) * tick_size, 8)]: the multiple of the
    tick size nearest to [x]. *)
Definition to_tick (contract : Contract) (x : Q) : result Q :=
  ticks <- truediv x (Models.tick_size contract) ;;
  Ok (round_to (inject_Z (round ticks) * Models.tick_size contract)%Q 8).


(** One entry of the answer to [/api/v3/myTrades]. *)
Record MyTrade : Type := mkMyTrade {
  mt_orderId : Z;
  mt_qty : Q;
  mt_price : Q
}.

(** The first loop of [_get_execution_price]. *)
Definition executed_qty_of (trades : list MyTrade) (order_id : Z) : Q :=
  fold_left (fun executed_qty t =>
               if mt_orderId t =? order_id then (executed_qty + mt_qty t)%Q
               else executed_qty)
            trades 0%Q.

(** The second loop: the weighted sum of the prices. *)
Fixpoint weighted_sum (trades : list MyTrade) (order_id : Z) (executed_qty avg_price : Q)
    : result Q :=
  match trades with
  | [] => Ok avg_price
  | t :: rest =>
      if mt_orderId t =? order_id then
        fill_pct <- truediv (mt_qty t) executed_qty ;;
        weighted_sum rest order_id executed_qty (avg_price + mt_price t * fill_pct)%Q
      else weighted_sum rest order_id executed_qty avg_price
  end.

(** [_get_execution_price]; [trades] is the answer of the exchange,
    [None] when the request failed. *)
Definition _get_execution_price (trades : option (list MyTrade)) (contract : Contract)
    (order_id : Z) : result Q :=
  avg_price <-
    match trades with
    | None => Ok 0%Q
    | Some trades => weighted_sum trades order_id (executed_qty_of trades order_id) 0%Q
    end ;;
  to_tick contract avg_price.

(** The fields of an order answer that [OrderStatus.__init__] reads;
    the spot answer carries no [avgPrice]. *)
Record RawOrder : Type := mkRawOrder {
  r_orderId : Z;
  r_status : string;
  r_avgPrice : option Q;
  r_executedQty : Q
}.

Definition set_avgPrice (info : RawOrder) (p : Q) : RawOrder :=
  mkRawOrder (r_orderId info) (r_status info) (Some p) (r_executedQty info).

(** [OrderStatus(order_info, "binance_futures")], and the same for
    ["binance_spot"]. *)
Definition OrderStatus_binance (info : RawOrder) : result OrderStatus :=
  match r_avgPrice info with
  | None => Raise KeyError
  | Some p =>
      Ok (mkOrderStatus (IntId (r_orderId info)) (Binance.lower (r_status info)) p
                        (r_executedQty info))
  end.

(** What [place_order] and [get_order_status] make of the answer to
    their request: on spot the average price comes from the trades of
    the order when it is filled, and is 0 otherwise. *)
Definition order_result (futures : bool) (my_trades : option (list MyTrade))
    (contract : Contract) (order_status : option RawOrder) : result (option OrderStatus) :=
  match order_status with
  | None => Ok None
  | Some info =>
      info <-
        (if negb futures then
           if String.eqb (r_status info) "FILLED" then
             p <- _get_execution_price my_trades contract (r_orderId info) ;;
             Ok (set_avgPrice info p)
           else Ok (set_avgPrice info 0%Q)
         else Ok info) ;;
      os <- OrderStatus_binance info ;;
      Ok (Some os)
  end.

End BinanceRest.

(* ================================================================== *)
(** * connectors/bitmex.py: historical candles and order quantities *)
(* ================================================================== *)

Module BitmexRest.

(** The keys of [TF_EQUIV]. *)
Definition tf_key (t : Timeframe) : string :=
  match t with
  | tf_1m => "1m" | tf_5m => "5m" | tf_15m => "15m"
  | tf_30m => "30m" | tf_1h => "1h" | tf_4h => "4h"
  end.

(** [BITMEX_TF_MINUTES[timeframe]]. *)
Definition BITMEX_TF_MINUTES (timeframe : string) : result Z :=
  if String.eqb timeframe "1m" then Ok 1
  else if String.eqb timeframe "5m" then Ok 5
  else if String.eqb timeframe "1h" then Ok 60
  else if String.eqb timeframe "1d" then Ok 1440
  else Raise KeyError.

(** One entry of the answer to [/api/v1/trade/bucketed]: the time of
    its ISO timestamp in milliseconds, and the prices, of which the
    open and the close may be null. *)
Record RawCandle : Type := mkRawCandle {
  rc_timestamp : Z;
  rc_open : option Q;
  rc_high : Q;
  rc_low : Q;
  rc_close : option Q;
  rc_volume : Q
}.

(** [Candle(candle_info, timeframe, "bitmex")] for an entry with an
    open and a close: the timestamp moves back by the minutes of the
    timeframe. *)
Definition Candle_bitmex (c : RawCandle) (o cl : Q) (timeframe : string) : result Candle :=
  minutes <- BITMEX_TF_MINUTES timeframe ;;
  Ok (mkCandle (rc_timestamp c - minutes * 60 * 1000) o (rc_high c) (rc_low c) cl
               (rc_volume c)).

(** The loop [for c in reversed(raw_candles)]. *)
Fixpoint collect_candles (reversed : list RawCandle) (timeframe : string)
    (candles : list Candle) : result (list Candle) :=
  match reversed with
  | [] => Ok candles
  | c :: rest =>
      match rc_open c, rc_close c with
      | Some o, Some cl =>
          candle <- Candle_bitmex c o cl timeframe ;;
          collect_candles rest timeframe (candles ++ [candle])
      | _, _ => collect_candles rest timeframe candles
      end
  end.

(** [get_historical_candles]; [raw_candles] is the answer of the
    exchange, newest first, [None] when the request failed. *)
Definition get_historical_candles (raw_candles : option (list RawCandle))
    (timeframe : string) : result (list Candle) :=
  match raw_candles with
  | None => Ok []
  | Some raw => collect_candles (rev raw) timeframe []
  end.

(** [data['orderQty']] of [place_order]:
    [round(quantity / lot_size) * lot_size]. *)
Definition order_qty (contract : Contract) (quantity : Q) : result Q :=
  lots <- truediv quantity (lot_size contract) ;;
  Ok (inject_Z (round lots) * lot_size contract)%Q.

End BitmexRest.

(* ================================================================== *)
(** * connectors: [get_contracts] *)
(* ================================================================== *)

Module ContractList.

(** [sorted(contracts.items())]: the items in ascending order of their
    keys.  The keys of a dict are distinct, so the comparison of two
    items is decided by their keys and never looks at the values. *)
Fixpoint insert_item {V} (kv : string * V) (l : list (string * V)) : list (string * V) :=
  match l with
  | [] => [kv]
  | kv' :: rest =>
      if String.leb (fst kv) (fst kv') then kv :: l else kv' :: insert_item kv rest
  end.

Definition sorted {V} (d : dict V) : dict V := fold_right insert_item [] d.

(** [get_contracts] of both connectors, on the contracts built from the
    answer of the exchange in its order ([None]: the request failed):
    each contract is assigned under its symbol, then the dict is sorted. *)
Definition get_contracts (listed : option (list Contract)) : dict Contract :=
  let contracts :=
    match listed with
    | None => []
    | Some l => fold_left (fun d c => dict_set d (symbol c) c) l []
    end in
  sorted contracts.

End ContractList.

(* ================================================================== *)
(** * The exit rule in the words of the specification *)
(* ================================================================== *)

(** A second description of the take-profit / stop-loss pass, written
    from the prose of the specification; [ExitRule.settle] is compared
    below with [Strategies.check_open_trades], the code. *)
Module ExitRule.

Section Rule.

Variable cl : Client.
Variable c : Contract.          (* the contract of the strategy *)
Variable tp sl : option Q.      (* take-profit and stop-loss percentages *)
Variable price : Q.             (* the latest close *)

(** Long: take profit at [entry * (1 + tp/100)] or above; short: at
    [entry * (1 - tp/100)] or below. *)
Definition tp_reached (s : Side) (entry : Q) : bool :=
  match tp with
  | None => false
  | Some p =>
      match s with
      | long => Qle_bool (entry * (1 + p / 100)) price
      | short => Qle_bool price (entry * (1 - p / 100))
      end
  end.

(** Long: stop loss at [entry * (1 - sl/100)] or below; short: at
    [entry * (1 + sl/100)] or above. *)
Definition sl_reached (s : Side) (entry : Q) : bool :=
  match sl with
  | None => false
  | Some p =>
      match s with
      | long => Qle_bool price (entry * (1 - p / 100))
      | short => Qle_bool (entry * (1 + p / 100)) price
      end
  end.

(** An open trade with a known entry price whose exit is due. *)
Definition due (t : Trade) : bool :=
  match status t, entry_price t with
  | st_open, Some entry => tp_reached (side t) entry || sl_reached (side t) entry
  | _, _ => false
  end.

(** The quantity of the exit order: on a spot account a closing sell
    is capped by the free base-asset balance. *)
Definition exit_quantity (t : Trade) : Q :=
  if futures cl then quantity t
  else
    match side t, dict_get (get_balances cl) (base_asset c) with
    | long, Some (SpotBalance f _) => if Qle_bool f (quantity t) then f else quantity t
    | _, _ => quantity t
    end.

(** The opposing market order. *)
Definition exit_order (t : Trade) : OrderReq :=
  mkOrderReq c "MARKET" (exit_quantity t)
             (match side t with long => "SELL" | short => "BUY" end).

(** The exchange confirmed the exit order. *)
Definition confirmed (t : Trade) : bool :=
  match ep_place_order (endpoints cl) (exit_order t) with
  | Some _ => true
  | None => false
  end.

(** A trade after the pass. *)
Definition settle (t : Trade) : Trade :=
  if due t then
    let t' := set_quantity t (exit_quantity t) in
    if confirmed t then set_status t' st_closed else t'
  else t.

(** The orders the pass submits for a trade. *)
Definition orders (t : Trade) : list Effect :=
  if due t then [PlaceOrder (exit_order t)] else [].

(** The pass closes the trade. *)
Definition closes (t : Trade) : bool := due t && confirmed t.

End Rule.

End ExitRule.

(* ================================================================== *)
(** * Properties of the Python primitives *)
(* ================================================================== *)

Module PyFacts.

Lemma last_snoc {A} (l : list A) (x : A) : Py.last (l ++ [x]) = Ok x.
Proof. unfold Py.last. rewrite rev_app_distr. reflexivity. Qed.

Lemma last_nonempty {A} (l : list A) : l <> [] -> exists x, Py.last l = Ok x.
Proof.
  destruct l as [|a l] using rev_ind; [congruence|].
  intros _. exists a. apply last_snoc.
Qed.

Lemma ltb_lt x y : ltb x y = true <-> (x < y)%Q.
Proof.
  unfold ltb. rewrite negb_true_iff, <- not_true_iff_false, Qle_bool_iff.
  split; [apply Qnot_le_lt | apply Qlt_not_le].
Qed.

Lemma ltb_ge x y : ltb x y = false <-> (y <= x)%Q.
Proof. unfold ltb. now rewrite negb_false_iff, Qle_bool_iff. Qed.

Lemma leb_le x y : leb x y = true <-> (x <= y)%Q.
Proof. apply Qle_bool_iff. Qed.

Lemma geb_ge x y : geb x y = true <-> (y <= x)%Q.
Proof. apply Qle_bool_iff. Qed.

(** [int(a / b)] on two integers is the integer quotient. *)
Lemma int_quotient (a b : Z) :
  0 <= a -> 0 < b -> int (inject_Z a / inject_Z b) = a / b.
Proof.
  intros Ha Hb. unfold int, Qdiv, Qinv, Qmult, inject_Z. simpl.
  destruct b as [|b|b]; try lia. simpl.
  rewrite Z.mul_1_r. rewrite Z.quot_div_nonneg by lia. reflexivity.
Qed.

Lemma truediv_nonzero x y : ~ (y == 0)%Q -> truediv x y = Ok (x / y)%Q.
Proof.
  intros H. unfold truediv. destruct (Qeq_bool y 0) eqn:E; [|reflexivity].
  apply Qeq_bool_iff in E. contradiction.
Qed.

Lemma dict_get_set_same {V} (d : dict V) k v : dict_get (dict_set d k v) k = Some v.
Proof.
  induction d as [|[k' v'] d IH]; simpl.
  - now rewrite String.eqb_refl.
  - destruct (String.eqb k' k) eqn:E; simpl; rewrite E; auto.
Qed.

Lemma dict_set_Forall {V} (P : V -> Prop) (d : dict V) k v :
  Forall (fun kv => P (snd kv)) d -> P v ->
  Forall (fun kv => P (snd kv)) (dict_set d k v).
Proof.
  intros Hd Hv. induction Hd as [|[k' v'] d Hx Hd IH]; simpl.
  - constructor; [exact Hv | constructor].
  - destruct (String.eqb k' k); constructor; auto.
Qed.

Lemma dict_get_Forall {V} (P : V -> Prop) (d : dict V) k v :
  Forall (fun kv => P (snd kv)) d -> dict_get d k = Some v -> P v.
Proof.
  intros Hd. induction Hd as [|[k' v'] d Hx Hd IH]; simpl; [discriminate|].
  destruct (String.eqb k' k); [intros [= <-]; exact Hx | exact IH].
Qed.

End PyFacts.

Import PyFacts.

(* ================================================================== *)
(** * The candle aggregator: [parse_trades] *)
(* ================================================================== *)

Module CandleAggregator.

Lemma tf_equiv_pos self : 0 < tf_equiv self.
Proof. unfold tf_equiv. destruct (tf self); simpl; lia. Qed.

(** The quotient of [parse_trades] never divides by zero. *)
Lemma bucket_quotient self (a : Z) :
  0 <= a ->
  truediv (inject_Z a) (inject_Z (tf_equiv self)) = Ok (inject_Z a / inject_Z (tf_equiv self))%Q
  /\ int (inject_Z a / inject_Z (tf_equiv self)) = a / tf_equiv self.
Proof.
  intros Ha. pose proof (tf_equiv_pos self) as HW. split.
  - apply truediv_nonzero. unfold Qeq, inject_Z. simpl. lia.
  - now apply int_quotient.
Qed.

(** The flat candles of the buckets [i+1 .. i+n] after a candle. *)
Definition flats (T W : Z) (c : Q) (i : nat) (n : nat) : list Candle :=
  map (fun j => mkCandle (T + Z.of_nat j * W) c c c c 0) (seq (S i) n).

Lemma fill_missing_spec n : forall W last_candle cs,
  fill_missing n W last_candle cs =
    (cs ++ flats (timestamp last_candle) W (close last_candle) 0 n,
     match n with
     | O => last_candle
     | S _ => mkCandle (timestamp last_candle + Z.of_nat n * W)
                       (close last_candle) (close last_candle)
                       (close last_candle) (close last_candle) 0
     end).
Proof.
  induction n as [|n IH]; intros W lc cs.
  - simpl. unfold flats. simpl. now rewrite app_nil_r.
  - cbn [fill_missing]. rewrite IH. unfold flat_candle, Candle_parse_trade. cbn [timestamp close].
    f_equal.
    + rewrite <- app_assoc. f_equal. unfold flats. cbn [seq map app].
      f_equal; [f_equal; lia|].
      rewrite <- (seq_shift n 1), map_map.
      apply map_ext. intros j. f_equal. lia.
    + destruct n; f_equal; lia.
Qed.

Lemma gap_count self (T ts : Z) :
  T + 2 * tf_equiv self <= ts -> 1 <= (ts - T) / tf_equiv self - 1.
Proof.
  intros H. pose proof (tf_equiv_pos self) as HW.
  assert (2 <= (ts - T) / tf_equiv self); [|lia].
  apply Z.div_le_lower_bound; lia.
Qed.

(** The branch of the skipped buckets. *)
Lemma missing_branch cl self price size ts last_candle :
  Py.last (candles self) = Ok last_candle ->
  timestamp last_candle + 2 * tf_equiv self <= ts ->
  let T := timestamp last_candle in
  let W := tf_equiv self in
  let k := (ts - T) / W - 1 in
  parse_trades cl self price size ts
    = Ok (set_candles self
            (candles self
             ++ flats T W (close last_candle) 0 (Z.to_nat k)
             ++ [mkCandle (T + (k + 1) * W) price price price price size]),
          new_candle, []).
Proof.
  intros Hlast Hts T W k.
  pose proof (tf_equiv_pos self) as HW.
  pose proof (gap_count self _ _ Hts) as Hk. fold T W k in Hk.
  unfold parse_trades. rewrite Hlast. cbn [bind].
  fold T W.
  replace (ts <? T + W) with false by (symmetry; apply Z.ltb_ge; lia).
  replace (ts >=? T + 2 * W) with true by (symmetry; apply Z.geb_le; lia).
  destruct (bucket_quotient self (ts - T)) as [Hdiv Hint]; [lia|].
  fold W in Hdiv, Hint. rewrite Hdiv. cbn [bind]. rewrite Hint. fold k.
  rewrite fill_missing_spec. fold T.
  destruct (Z.to_nat k) as [|n] eqn:En; [lia|].
  cbn [timestamp]. unfold tick_candle, Candle_parse_trade.
  replace (T + Z.of_nat (S n) * W + W) with (T + (k + 1) * W) by lia.
  now rewrite <- app_assoc.
Qed.

(** C1.  With last bucket start [T], bucket width [W] and a tick at or
    after [T + 2W], [parse_trades] appends [k = (ts - T) / W - 1] flat
    candles (all four prices the previous close, volume 0) at
    [T + W, ..., T + kW], then one candle seeded with the tick; the list
    grows by [k + 1], nothing else changes, and the result is
    [new_candle]. *)
Theorem parse_trades_missing_candles cl self price size ts last_candle :
  Py.last (candles self) = Ok last_candle ->
  timestamp last_candle + 2 * tf_equiv self <= ts ->
  let T := timestamp last_candle in
  let W := tf_equiv self in
  let c := close last_candle in
  let k := (ts - T) / W - 1 in
  1 <= k /\
  exists self',
    parse_trades cl self price size ts = Ok (self', new_candle, []) /\
    self' = set_candles self
              (candles self
               ++ map (fun j => mkCandle (T + Z.of_nat j * W) c c c c 0)
                      (seq 1 (Z.to_nat k))
               ++ [mkCandle (T + (k + 1) * W) price price price price size]) /\
    List.length (candles self') = (List.length (candles self) + Z.to_nat k + 1)%nat.
Proof.
  intros Hlast Hts T W c k.
  split; [exact (gap_count self _ _ Hts)|].
  eexists. split; [exact (missing_branch cl self price size ts last_candle Hlast Hts)|].
  split; [reflexivity|].
  cbn [candles set_candles]. unfold flats.
  rewrite !length_app, length_map, length_seq. cbn [List.length]. fold T W k. lia.
Qed.

(** The theorem at a concrete gap: one-minute candles, last bucket at 0,
    a tick at 185000 ms, hence two missing buckets. *)
Definition demo_contract : Contract :=
  mkContract "BTCUSDT" "BTC" "USDT" (1 # 100) (1 # 1000) false false 1 binance_futures.

Definition silent : Endpoints :=
  mkEndpoints (fun _ => None) (fun _ _ => None) 0.

Definition demo_strategy (cs : list Candle) : Strategy :=
  set_candles (Strategies.init demo_contract "Binance" tf_1m 10 (Some 5%Q) (Some 5%Q) (Breakout 0)) cs.

Lemma parse_trades_missing_candles_witness :
  let self := demo_strategy [mkCandle 0 10 12 9 11 4] in
  exists self',
    parse_trades (BinanceFuturesClient None silent) self 20 3 185000
      = Ok (self', new_candle, []) /\
    candles self' = [mkCandle 0 10 12 9 11 4; mkCandle 60000 11 11 11 11 0;
                     mkCandle 120000 11 11 11 11 0; mkCandle 180000 20 20 20 20 3].
Proof.
  intros self.
  destruct (parse_trades_missing_candles (BinanceFuturesClient None silent) self 20 3 185000
              (mkCandle 0 10 12 9 11 4)) as [_ [self' [H1 [H2 _]]]].
  - reflexivity.
  - vm_compute. discriminate.
  - exists self'. split; [exact H1|]. rewrite H2. reflexivity.
Defined.

End CandleAggregator.

(* ================================================================== *)
(** * Take profit and stop loss: [_check_tp_sl] *)
(* ================================================================== *)

Module TakeProfitStopLoss.

Import ExitRule.

(** The attributes a take-profit / stop-loss pass leaves alone. *)
Definition frame (self self' : Strategy) : Prop :=
  contract self' = contract self /\ exchange self' = exchange self /\
  tf self' = tf self /\ balance_pct self' = balance_pct self /\
  take_profit self' = take_profit self /\ stop_loss self' = stop_loss self /\
  strat_name self' = strat_name self /\ candles self' = candles self /\
  trades self' = trades self /\ variant self' = variant self.

Lemma frame_refl self : frame self self.
Proof. repeat split. Qed.

Lemma set_quantity_same t : set_quantity t (quantity t) = t.
Proof. now destruct t. Qed.

Lemma collect_values {A} (key : A -> string) (mk : A -> Balance) (P : Balance -> Prop) :
  (forall a, P (mk a)) ->
  forall data k b, dict_get (collect key mk data) k = Some b -> P b.
Proof.
  intros Hmk data k b. apply dict_get_Forall.
  unfold collect. destruct data as [l|]; [|constructor].
  generalize (@nil (string * Balance)) (Forall_nil (fun kv : string * Balance => P (snd kv))).
  induction l as [|a l IH]; intros d Hd; simpl; [exact Hd|].
  apply IH. now apply dict_set_Forall.
Qed.

Lemma spot_balances data ep k b :
  dict_get (get_balances (BinanceSpotClient data ep)) k = Some b ->
  exists f l, b = SpotBalance f l.
Proof.
  apply (collect_values sa_asset Balance_binance_spot (fun b => exists f l, b = SpotBalance f l)).
  intros a. unfold Balance_binance_spot. eauto.
Qed.

Section Pass.

Variable cl : Client.
Variable self0 : Strategy.
Variable lc : Candle.

Let rule_settle := settle cl (contract self0) (take_profit self0) (stop_loss self0) (close lc).
Let rule_orders := orders cl (contract self0) (take_profit self0) (stop_loss self0) (close lc).
Let rule_closes := closes cl (contract self0) (take_profit self0) (stop_loss self0) (close lc).

Lemma triggers_spec self trade e :
  frame self0 self -> entry_price trade = Some e ->
  match side trade with
  | long =>
      sl <- threshold (stop_loss self) (fun p =>
              lim <- entry_times trade (1 - p / 100)%Q ;; Ok (leb (close lc) lim)) ;;
      tp <- threshold (take_profit self) (fun p =>
              lim <- entry_times trade (1 + p / 100)%Q ;; Ok (geb (close lc) lim)) ;;
      Ok (sl, tp)
  | short =>
      sl <- threshold (stop_loss self) (fun p =>
              lim <- entry_times trade (1 + p / 100)%Q ;; Ok (geb (close lc) lim)) ;;
      tp <- threshold (take_profit self) (fun p =>
              lim <- entry_times trade (1 - p / 100)%Q ;; Ok (leb (close lc) lim)) ;;
      Ok (sl, tp)
  end
  = Ok (sl_reached (stop_loss self0) (close lc) (side trade) e,
        tp_reached (take_profit self0) (close lc) (side trade) e).
Proof.
  intros (_ & _ & _ & _ & -> & -> & _) He.
  unfold threshold, entry_times, sl_reached, tp_reached, leb, geb. rewrite He.
  destruct (side trade), (stop_loss self0), (take_profit self0); reflexivity.
Qed.

Lemma check_tp_sl_spec self trade e :
  frame self0 self ->
  Py.last (candles self0) = Ok lc ->
  status trade = st_open -> entry_price trade = Some e ->
  exists self',
    _check_tp_sl cl self trade = Ok (self', rule_settle trade, rule_orders trade) /\
    frame self0 self' /\
    ongoing_position self' =
      (if rule_closes trade then false else ongoing_position self).
Proof.
  intros Hf Hlast Hst He.
  assert (Hc : candles self = candles self0) by apply Hf.
  assert (Hk : contract self = contract self0) by apply Hf.
  unfold _check_tp_sl. rewrite Hc, Hlast. cbn [bind].
  rewrite (triggers_spec self trade e Hf He). cbn [bind].
  unfold rule_settle, rule_orders, rule_closes, settle, orders, closes, due.
  rewrite Hst, He.
  destruct (tp_reached _ _ _ _ || sl_reached _ _ _ _) eqn:Etrig.
  2:{ exists self. cbn. auto. }
  cbn [andb].
  assert (Hq : (if negb (futures cl)
                then
                  match side trade, dict_get (get_balances cl) (base_asset (contract self0)) with
                  | long, Some b =>
                      f <- free b ;; Ok (set_quantity trade (Py.min f (quantity trade)))
                  | _, _ => Ok trade
                  end
                else Ok trade)
               = Ok (set_quantity trade (exit_quantity cl (contract self0) trade))).
  { unfold exit_quantity.
    destruct cl as [d ep|d ep|d ep]; cbn [futures negb];
      try (now rewrite set_quantity_same).
    destruct (side trade); [|now rewrite set_quantity_same].
    destruct (dict_get _ _) as [b|] eqn:Eb; [|now rewrite set_quantity_same].
    destruct (spot_balances _ _ _ _ Eb) as (f & l & ->). cbn [free bind].
    unfold Py.min, ltb. now destruct (Qle_bool f (quantity trade)). }
  cbn [contract _add_log]. rewrite Hk, Hq. cbn [bind].
  unfold place_order, confirmed, exit_order.
  cbn [quantity set_quantity side contract _add_log tf].
  rewrite ?Hk.
  destruct (ep_place_order _ _); eexists; (split; [reflexivity|]); split;
    try reflexivity;
    destruct Hf as (? & ? & ? & ? & ? & ? & ? & ? & ? & ?); repeat split; assumption.
Qed.

Lemma settle_skipped trade :
  is_open trade && has_entry trade = false ->
  rule_settle trade = trade /\ rule_orders trade = [] /\ rule_closes trade = false.
Proof.
  unfold rule_settle, rule_orders, rule_closes, settle, orders, closes, due,
    is_open, has_entry.
  destruct (status trade), (entry_price trade); cbn; intros; try discriminate; auto.
Qed.

(** The loop of [parse_trades] is the rule applied to each trade. *)
Lemma check_open_trades_spec ts : forall self,
  frame self0 self ->
  Py.last (candles self0) = Ok lc ->
  exists self',
    check_open_trades cl self ts
      = Ok (self', map rule_settle ts, flat_map rule_orders ts) /\
    frame self0 self' /\
    ongoing_position self' =
      (if existsb rule_closes ts then false else ongoing_position self).
Proof.
  induction ts as [|trade rest IH]; intros self Hf Hlast; cbn [check_open_trades].
  - exists self. cbn. auto.
  - destruct (is_open trade && has_entry trade) eqn:Eg.
    + apply andb_prop in Eg. destruct Eg as [Eo Ee].
      unfold is_open in Eo. unfold has_entry in Ee.
      destruct (status trade) eqn:Hst; [|discriminate].
      destruct (entry_price trade) as [e|] eqn:He; [|discriminate].
      destruct (check_tp_sl_spec self trade e Hf Hlast Hst He) as (s1 & -> & Hf1 & Ho1).
      cbn [bind].
      destruct (IH s1 Hf1 Hlast) as (s2 & -> & Hf2 & Ho2). cbn [bind].
      exists s2. cbn [map flat_map existsb]. repeat split; try apply Hf2.
      rewrite Ho2, Ho1. destruct (rule_closes trade), (existsb rule_closes rest); reflexivity.
    + destruct (settle_skipped trade Eg) as (Hs & Hr & Hc). cbn [bind].
      destruct (IH self Hf Hlast) as (s2 & -> & Hf2 & Ho2). cbn [bind].
      exists s2. cbn [map flat_map existsb]. rewrite Hs, Hr, Hc. cbn [app orb].
      repeat split; try apply Hf2. exact Ho2.
Qed.

End Pass.

End TakeProfitStopLoss.

(* ================================================================== *)
(** * The three branches of [parse_trades] *)
(* ================================================================== *)

Module ParseTrades.

Import ExitRule TakeProfitStopLoss CandleAggregator.

Lemma close_update_candle c price size : close (update_candle c price size) = price.
Proof.
  unfold update_candle. cbn.
  destruct (gtb price (high c)); [reflexivity|].
  destruct (ltb price (low c)); reflexivity.
Qed.

(** A tick of the current bucket: the last candle is updated in place
    and the exit rule is applied to every trade at the tick price. *)
Lemma same_candle_branch cl self price size ts last_candle :
  Py.last (candles self) = Ok last_candle ->
  ts < timestamp last_candle + tf_equiv self ->
  exists self',
    parse_trades cl self price size ts
      = Ok (self', same_candle,
            flat_map (orders cl (contract self) (take_profit self) (stop_loss self) price)
                     (trades self)) /\
    candles self' = removelast (candles self) ++ [update_candle last_candle price size] /\
    trades self' =
      map (settle cl (contract self) (take_profit self) (stop_loss self) price) (trades self) /\
    ongoing_position self' =
      (if existsb (closes cl (contract self) (take_profit self) (stop_loss self) price)
                  (trades self)
       then false else ongoing_position self) /\
    contract self' = contract self /\ tf self' = tf self /\
    take_profit self' = take_profit self /\ stop_loss self' = stop_loss self /\
    balance_pct self' = balance_pct self /\ variant self' = variant self.
Proof.
  intros Hlast Hts. unfold parse_trades. rewrite Hlast. cbn [bind].
  replace (ts <? _) with true by (symmetry; apply Z.ltb_lt; exact Hts).
  set (lc := update_candle last_candle price size).
  set (self1 := set_candles self (removelast (candles self) ++ [lc])).
  destruct (check_open_trades_spec cl self1 lc (trades self1) self1 (frame_refl self1))
    as (s2 & Hrun & Hf & Ho).
  { cbn. apply last_snoc. }
  rewrite Hrun. cbn [bind].
  unfold lc in *. rewrite close_update_candle in *.
  destruct Hf as (? & ? & ? & ? & ? & ? & ? & ? & ? & ?).
  eexists. split; [reflexivity|]. cbn. repeat split; try assumption.
Qed.

(** A tick at or after the end of the current bucket opens candles and
    touches nothing else. *)
Lemma new_candle_branch cl self price size ts last_candle :
  Py.last (candles self) = Ok last_candle ->
  timestamp last_candle + tf_equiv self <= ts ->
  exists cs,
    parse_trades cl self price size ts
      = Ok (set_candles self (candles self ++ cs), new_candle, []) /\
    cs <> [].
Proof.
  intros Hlast Hts.
  destruct (Z_lt_le_dec ts (timestamp last_candle + 2 * tf_equiv self)) as [Hlt|Hge].
  - unfold parse_trades. rewrite Hlast. cbn [bind].
    replace (ts <? _) with false by (symmetry; apply Z.ltb_ge; lia).
    replace (ts >=? timestamp last_candle + 2 * _) with false
      by (symmetry; rewrite Z.geb_leb; apply Z.leb_gt; lia).
    replace (ts >=? _) with true by (symmetry; apply Z.geb_le; lia).
    eexists. split; [reflexivity|discriminate].
  - eexists. split; [exact (missing_branch cl self price size ts last_candle Hlast Hge)|].
    now destruct (flats _ _ _ _ _).
Qed.



End ParseTrades.

(* ================================================================== *)
(** * Exits while a position is open *)
(* ================================================================== *)

Module ExitOnTick.

Import ExitRule TakeProfitStopLoss CandleAggregator ParseTrades.


(** The thresholds of the rule, as inequalities. *)
Lemma thresholds price p e :
  (tp_reached (Some p) price long e = true <-> e * (1 + p / 100) <= price)%Q /\
  (sl_reached (Some p) price long e = true <-> price <= e * (1 - p / 100))%Q /\
  (tp_reached (Some p) price short e = true <-> price <= e * (1 - p / 100))%Q /\
  (sl_reached (Some p) price short e = true <-> e * (1 + p / 100) <= price)%Q.
Proof. unfold tp_reached, sl_reached. repeat split; apply Qle_bool_iff. Qed.


(** An exchange that fills every order at once. *)
Definition filling : Endpoints :=
  mkEndpoints (fun o => Some (mkOrderStatus (IntId 7) "filled" 100 (o_quantity o)))
              (fun _ _ => None) 0.

Definition long_at_100 : Trade :=
  mkTrade 0 demo_contract "Breakout" long (Some 100%Q) st_open 0 1 (IntId 1).

(** One open long entered at 100, take profit and stop loss at 5%. *)
Definition holding : Strategy :=
  set_ongoing_position
    (set_trades (demo_strategy [mkCandle 0 100 101 99 100 4]) [long_at_100]) true.

(** The tick at 200 inside the bucket sells the unit and closes the
    trade; the same tick one millisecond later opens a candle and leaves
    the trade open. *)
Example exit_at_take_profit :
  match parse_trades (BinanceFuturesClient None filling) holding 200 1 59999 with
  | Ok (self', r, eff) =>
      r = same_candle /\
      eff = [PlaceOrder (mkOrderReq demo_contract "MARKET" 1 "SELL")] /\
      map status (trades self') = [st_closed] /\
      ongoing_position self' = false
  | Raise _ => False
  end.
Proof. vm_compute. repeat split. Qed.

Example no_exit_on_new_candle :
  match parse_trades (BinanceFuturesClient None filling) holding 200 1 60000 with
  | Ok (self', r, eff) =>
      r = new_candle /\ eff = [] /\
      map status (trades self') = [st_open] /\
      ongoing_position self' = true
  | Raise _ => False
  end.
Proof. vm_compute. repeat split. Qed.



End ExitOnTick.

(* ================================================================== *)
(** * Ticks of one bucket *)
(* ================================================================== *)

Module SameBucket.

Import ExitRule TakeProfitStopLoss CandleAggregator ParseTrades.

Lemma Qle_bool_false x y : Qle_bool x y = false <-> (y < x)%Q.
Proof.
  rewrite <- not_true_iff_false, Qle_bool_iff.
  split; [apply Qnot_le_lt | apply Qlt_not_le].
Qed.

(** On a candle whose low does not exceed its high, the update is a
    maximum and a minimum. *)
Lemma update_candle_wf c price size :
  (low c <= high c)%Q ->
  update_candle c price size
    = mkCandle (timestamp c) (open c) (Qmax (high c) price) (Qmin (low c) price)
               price (volume c + size) /\
  (Qmin (low c) price <= Qmax (high c) price)%Q.
Proof.
  intros Hwf. unfold update_candle, gtb, ltb. cbn.
  unfold Qmax, Qmin, GenericMinMax.gmax, GenericMinMax.gmin.
  destruct (Qcompare_spec (high c) price) as [H1|H1|H1],
           (Qcompare_spec (low c) price) as [H2|H2|H2];
    destruct (Qle_bool price (high c)) eqn:E1;
    destruct (Qle_bool (low c) price) eqn:E2;
    try (apply Qle_bool_iff in E1); try (apply Qle_bool_false in E1);
    try (apply Qle_bool_iff in E2); try (apply Qle_bool_false in E2);
    cbn; try lra; (split; [reflexivity | lra]).
Qed.




Definition quiet : Client := BinanceFuturesClient None silent.



End SameBucket.

(* ================================================================== *)
(** * At most one open trade *)
(* ================================================================== *)

Module PositionLifecycle.

Import ExitRule TakeProfitStopLoss CandleAggregator ParseTrades.

Local Open Scope nat_scope.

(** The number of trades with status ["open"]. *)
Definition count_open (ts : list Trade) : nat := List.length (filter is_open ts).

(** The flag covers the open trades: there is at most one, and none
    while the flag is down. *)
Definition covered (self : Strategy) : Prop :=
  count_open (trades self) <= 1 /\
  (ongoing_position self = false -> count_open (trades self) = 0).

Ltac break_match H :=
  match type of H with
  | context [match ?x with _ => _ end] => destruct x eqn:?
  end.

Section Rule.

Variable cl : Client.
Variable c : Contract.
Variable tp sl : option Q.
Variable price : Q.

Lemma is_open_settle t :
  is_open (settle cl c tp sl price t)
    = if closes cl c tp sl price t then false else is_open t.
Proof.
  unfold settle, closes. destruct (due tp sl price t); [|reflexivity].
  cbn [andb]. destruct (confirmed cl c t); reflexivity.
Qed.

Lemma closes_open t : closes cl c tp sl price t = true -> is_open t = true.
Proof.
  unfold closes, due, is_open. destruct (status t); [reflexivity|].
  cbn. discriminate.
Qed.

Lemma count_open_settle ts :
  count_open (map (settle cl c tp sl price) ts) <= count_open ts.
Proof.
  unfold count_open. induction ts as [|t ts IH]; cbn [map filter]; [lia|].
  rewrite is_open_settle.
  destruct (closes cl c tp sl price t) eqn:Ec.
  - rewrite (closes_open t Ec). cbn [List.length]. lia.
  - destruct (is_open t); cbn [List.length]; lia.
Qed.

Lemma closes_some_open ts :
  existsb (closes cl c tp sl price) ts = true -> 1 <= count_open ts.
Proof.
  unfold count_open. induction ts as [|t ts IH]; cbn [existsb filter]; [discriminate|].
  destruct (closes cl c tp sl price t) eqn:Ec.
  - rewrite (closes_open t Ec). cbn [List.length]. lia.
  - cbn [orb]. intros H. specialize (IH H).
    destruct (is_open t); cbn [List.length]; lia.
Qed.

Lemma count_open_closed ts :
  existsb (closes cl c tp sl price) ts = true ->
  count_open ts <= 1 ->
  count_open (map (settle cl c tp sl price) ts) = 0.
Proof.
  induction ts as [|t ts IH]; cbn [existsb]; [discriminate|].
  unfold count_open in *. cbn [map filter]. rewrite is_open_settle.
  destruct (closes cl c tp sl price t) eqn:Ec.
  - rewrite (closes_open t Ec). cbn [List.length]. intros _ Hle.
    pose proof (count_open_settle ts) as Hs. unfold count_open in Hs. lia.
  - cbn [orb]. intros Hex Hle. pose proof (closes_some_open ts Hex) as H1.
    unfold count_open in H1.
    destruct (is_open t); cbn [List.length] in *; [lia|]. apply IH; [exact Hex|lia].
Qed.

End Rule.

Lemma parse_trades_covered cl self price size ts self' r eff :
  covered self ->
  parse_trades cl self price size ts = Ok (self', r, eff) ->
  covered self'.
Proof.
  intros [Hle Hflag] Hrun.
  destruct (candles self) as [|c0 cs] eqn:Hcs.
  { unfold parse_trades in Hrun. rewrite Hcs in Hrun. discriminate. }
  destruct (last_nonempty (candles self)) as [lc Hlast]; [now rewrite Hcs|].
  destruct (Z_lt_le_dec ts (timestamp lc + tf_equiv self)) as [Hlt|Hge].
  - destruct (same_candle_branch cl self price size ts lc Hlast Hlt)
      as (s1 & Hrun1 & _ & Ht & Ho & _).
    rewrite Hrun1 in Hrun. injection Hrun as <- _ _.
    unfold covered. rewrite Ht, Ho. split.
    + etransitivity; [apply count_open_settle | exact Hle].
    + destruct (existsb _ _) eqn:Ex.
      * intros _. now apply count_open_closed.
      * intros Hoff. specialize (Hflag Hoff).
        pose proof (count_open_settle cl (contract self) (take_profit self)
                      (stop_loss self) price (trades self)). lia.
  - destruct (new_candle_branch cl self price size ts lc Hlast Hge) as (cs' & Hrun1 & _).
    rewrite Hrun1 in Hrun. injection Hrun as <- _ _. split; assumption.
Qed.

Lemma count_open_snoc ts t : count_open (ts ++ [t]) = count_open ts + (if is_open t then 1 else 0).
Proof.
  unfold count_open. rewrite filter_app, length_app. cbn [filter].
  destruct (is_open t); reflexivity.
Qed.

Lemma open_position_covered cl self signal_result self' eff :
  ongoing_position self = false ->
  covered self ->
  _open_position cl self signal_result = Ok (self', eff) ->
  covered self'.
Proof.
  intros Hoff [Hle Hflag] Hrun. specialize (Hflag Hoff).
  unfold _open_position, bind in Hrun.
  repeat (break_match Hrun; try discriminate);
    injection Hrun as <- _; unfold covered, count_open in *;
    cbn [trades ongoing_position set_trades set_ongoing_position _add_log];
    rewrite ?filter_app, ?length_app; cbn [filter is_open status List.length];
    split; intros; try lia; try discriminate.
Qed.

Lemma count_open_fill ts oid os : count_open (fill_trade ts oid os) = count_open ts.
Proof.
  unfold count_open. induction ts as [|t ts IH]; cbn [fill_trade]; [reflexivity|].
  destruct (OrderId_eqb (entry_id t) oid); cbn [filter].
  - replace (is_open (set_fill t (avg_price os) (executed_qty os))) with (is_open t)
      by reflexivity.
    destruct (is_open t); reflexivity.
  - destruct (is_open t); cbn [List.length]; now rewrite IH.
Qed.

Lemma check_order_status_covered cl self oid :
  covered self -> covered (fst (_check_order_status cl self oid)).
Proof.
  intros [Hle Hflag]. unfold _check_order_status.
  destruct (get_order_status cl (contract self) oid) as [os|]; [|split; assumption].
  destruct (String.eqb (os_status os) "filled"); [|split; assumption].
  unfold covered. cbn [fst trades set_trades ongoing_position].
  rewrite count_open_fill. split; assumption.
Qed.

Section Indicators.

Variable pandas_rsi : Z -> list Q -> result Q.
Variable pandas_macd : Z -> Z -> Z -> list Q -> result (Q * Q).

Local Abbreviation check_trade := (check_trade pandas_rsi pandas_macd).
Local Abbreviation after := (after pandas_rsi pandas_macd).
Local Abbreviation run := (run pandas_rsi pandas_macd).

(** With the flag up [check_trade] does nothing at all. *)
Lemma check_trade_holding cl self tick_type :
  ongoing_position self = true -> check_trade cl self tick_type = Ok (self, []).
Proof.
  intros Hon. unfold Strategies.check_trade. rewrite Hon. cbn [negb andb].
  destruct (variant self); [rewrite andb_false_r|]; reflexivity.
Qed.

Lemma check_trade_covered cl self tick_type self' eff :
  covered self -> check_trade cl self tick_type = Ok (self', eff) -> covered self'.
Proof.
  intros Hcov Hrun.
  destruct (ongoing_position self) eqn:Hon.
  - rewrite (check_trade_holding cl self tick_type Hon) in Hrun.
    now injection Hrun as <- _.
  - unfold Strategies.check_trade, bind in Hrun.
    repeat (break_match Hrun; try discriminate);
      try (injection Hrun as <- _; exact Hcov);
      eapply open_position_covered; eauto.
Qed.

Lemma after_covered self call : covered self -> covered (after self call).
Proof.
  intros Hcov. destruct call as [cl price size ts|cl tick_type|cl oid];
    cbn [Strategies.after].
  - destruct (parse_trades cl self price size ts) as [[[self' r] eff]|e] eqn:Hrun;
      [|exact Hcov].
    eapply parse_trades_covered; eauto.
  - destruct (Strategies.check_trade _ _ cl self tick_type) as [[self' eff]|e] eqn:Hrun;
      [|exact Hcov].
    eapply check_trade_covered; eauto.
  - now apply check_order_status_covered.
Qed.

Lemma run_covered calls : forall self, covered self -> covered (run self calls).
Proof.
  induction calls as [|call calls IH]; intros self Hcov; [exact Hcov|].
  cbn [Strategies.run fold_left]. apply IH. now apply after_covered.
Qed.

(** C3.  Starting from a new strategy with any candle history, after
    any sequence of [parse_trades], [check_trade] and order-status
    callbacks at most one trade is open; and a call of [check_trade]
    while [ongoing_position] is true submits no order and returns the
    strategy object as it was: trades, flag and every trade
    unchanged. *)
Theorem at_most_one_open_trade c exch t pct tp sl v cs calls :
  count_open (trades (run (set_candles (Strategies.init c exch t pct tp sl v) cs) calls)) <= 1
  /\
  forall cl self tick_type,
    ongoing_position self = true ->
    check_trade cl self tick_type = Ok (self, []).
Proof.
  split.
  - apply run_covered. split; cbn; [lia|reflexivity].
  - intros cl self tick_type. apply check_trade_holding.
Qed.

End Indicators.

(** A breakout strategy on a funded futures account that fills at once:
    it enters on the first tick, exits on the second at take profit,
    and enters again on the third. *)
Definition funded : Client :=
  BinanceFuturesClient (Some [mkFuturesAsset "USDT" 0 0 1000 1000 0]) ExitOnTick.filling.

Definition no_rsi : Z -> list Q -> result Q := fun _ _ => Raise IndexError.
Definition no_macd : Z -> Z -> Z -> list Q -> result (Q * Q) := fun _ _ _ _ => Raise IndexError.

Definition session : list Call :=
  [CallParseTrades funded 100 1 60000; CallCheckTrade funded new_candle;
   CallParseTrades funded 200 1 60001; CallCheckTrade funded same_candle;
   CallCheckTrade funded same_candle].

Definition fresh : Strategy :=
  set_candles (Strategies.init demo_contract "Binance" tf_1m 10 (Some 5%Q) (Some 5%Q)
                               (Breakout 0))
              [mkCandle 0 10 12 9 11 4].

Example session_trades :
  map status (trades (run no_rsi no_macd fresh session)) = [st_closed; st_open]
  /\ ongoing_position (run no_rsi no_macd fresh session) = true.
Proof. vm_compute. split; reflexivity. Qed.

Lemma at_most_one_open_trade_witness :
  count_open (trades (run no_rsi no_macd fresh session)) <= 1 /\
  check_trade no_rsi no_macd funded ExitOnTick.holding new_candle
    = Ok (ExitOnTick.holding, []).
Proof.
  destruct (at_most_one_open_trade no_rsi no_macd demo_contract "Binance" tf_1m 10
              (Some 5%Q) (Some 5%Q) (Breakout 0) [mkCandle 0 10 12 9 11 4] session)
    as [H1 H2].
  split; [exact H1 | apply H2; reflexivity].
Defined.

End PositionLifecycle.

(* ================================================================== *)
(** * The breakout signal *)
(* ================================================================== *)

Module BreakoutSignal.

(** The signal of the breakout variant on the last candle [c1] and the
    one before it, [c2]: 1 exactly on a close above the previous high
    with enough volume, -1 exactly on a close below the previous low
    with enough volume, 0 exactly when neither holds. *)
Definition signal_rule (self : Strategy) (min_volume : Q) (c2 c1 : Candle) : Prop :=
  exists r,
    breakout_check_signal self min_volume = Ok r /\
    (r = 1 <-> (high c2 < close c1 /\ min_volume < volume c1)%Q) /\
    (r = -1 <-> (close c1 < low c2 /\ min_volume < volume c1)%Q) /\
    (r = 0 <-> ~ (high c2 < close c1 /\ min_volume < volume c1)%Q /\
               ~ (close c1 < low c2 /\ min_volume < volume c1)%Q).

Lemma last2_snoc {A} (l : list A) (x y : A) : Py.last2 (l ++ [x; y]) = Ok x.
Proof. unfold Py.last2. rewrite rev_app_distr. reflexivity. Qed.

Lemma last_snoc2 {A} (l : list A) (x y : A) : Py.last (l ++ [x; y]) = Ok y.
Proof. unfold Py.last. rewrite rev_app_distr. reflexivity. Qed.




End BreakoutSignal.

(* ================================================================== *)
(** * Order sizing: [get_trade_size] *)
(* ================================================================== *)

Module Sizing.

Local Open Scope Q_scope.

Lemma round_near x : x - (1 # 2) <= inject_Z (Py.round x) <= x + (1 # 2).
Proof.
  unfold Py.round.
  pose proof (Qfloor_le x) as Hlo. pose proof (Qlt_floor x) as Hhi.
  rewrite inject_Z_plus in Hhi. change (inject_Z 1) with 1 in Hhi.
  destruct (ltb (x - inject_Z (Qfloor x)) (1 # 2)) eqn:E1.
  { apply ltb_lt in E1. split; lra. }
  apply ltb_ge in E1.
  destruct (ltb (1 # 2) (x - inject_Z (Qfloor x))) eqn:E2.
  { rewrite inject_Z_plus. change (inject_Z 1) with 1. split; lra. }
  apply ltb_ge in E2.
  destruct (Z.even (Qfloor x)).
  - split; lra.
  - rewrite inject_Z_plus. change (inject_Z 1) with 1. split; lra.
Qed.

Lemma round_integer x (z : Z) : x == inject_Z z -> Py.round x = z.
Proof.
  intros Hx. pose proof (round_near x) as [Hlo Hhi].
  assert (Hx1 : x <= inject_Z z) by (rewrite Hx; apply Qle_refl).
  assert (Hx2 : inject_Z z <= x) by (rewrite Hx; apply Qle_refl).
  assert (H1 : inject_Z (z - 1) < inject_Z (Py.round x)).
  { unfold Z.sub. rewrite inject_Z_plus, inject_Z_opp. change (inject_Z 1) with 1. lra. }
  assert (H2 : inject_Z (Py.round x) < inject_Z (z + 1)).
  { rewrite inject_Z_plus. change (inject_Z 1) with 1. lra. }
  rewrite <- Zlt_Qlt in H1, H2. lia.
Qed.


(** The balance a client sizes with: the quote asset on Binance (wallet
    balance on futures, free balance on spot), XBt on Bitmex. *)
Definition available_balance (cl : Client) (contract : Contract) : option Q :=
  match cl with
  | BitmexClient _ _ =>
      match dict_get (get_balances cl) "XBt" with
      | Some b => match wallet_balance b with Ok w => Some w | Raise _ => None end
      | None => None
      end
  | _ =>
      match dict_get (get_balances cl) (quote_asset contract) with
      | Some b =>
          match (if futures cl then wallet_balance b else free b) with
          | Ok w => Some w
          | Raise _ => None
          end
      | None => None
      end
  end.



(** What the Binance code computes exactly: the multiple of the lot size
    nearest to the raw size, a tie going to the even multiple. *)
Lemma binance_size_nearest_lot cl contract price pct w :
  available_balance cl contract = Some w ->
  platform cl <> bitmex ->
  0 < price -> 0 < lot_size contract ->
  let raw := (w * pct / 100) / price in
  let n := Py.round (raw / lot_size contract) in
  get_trade_size cl contract price pct
    = Ok (Some (round_to (inject_Z n * lot_size contract) 8)) /\
  - (lot_size contract / 2) <= inject_Z n * lot_size contract - raw <= lot_size contract / 2.
Proof.
  intros Hw Hp Hprice Hlot raw n. split.
  - unfold get_trade_size, binance_get_trade_size, available_balance in *.
    destruct cl as [d ep|d ep|d ep]; [| |now elim Hp];
      (destruct (dict_get _ _) as [b|]; [|discriminate]);
      (destruct (if futures _ then wallet_balance b else free b) as [w'|e];
         [|discriminate]);
      injection Hw as ->; cbn [bind];
      rewrite truediv_nonzero by lra; cbn [bind];
      rewrite truediv_nonzero by lra; reflexivity.
  - pose proof (round_near (raw / lot_size contract)) as [Hlo Hhi]. fold n in Hlo, Hhi.
    set (y := raw / lot_size contract) in *.
    assert (Hy : raw == y * lot_size contract) by (unfold y; field; lra).
    assert (Hh : lot_size contract / 2 == (1 # 2) * lot_size contract) by field.
    rewrite Hy, Hh. split; nra.
Qed.

(** XBTUSD on Bitmex: inverse, lot size 100, one bitcoin in the wallet. *)
Definition xbtusd : Contract :=
  Contract_bitmex (mkInstrument "XBTUSD" "XBT" "USD" (1 # 2) 100 false true (-100000000)).


Definition usdt_wallet (w : Q) : Client :=
  BinanceFuturesClient (Some [mkFuturesAsset "USDT" 0 0 w w 0]) CandleAggregator.silent.



(** On Binance the inner [round] is to the nearest lot: a raw size of
    0.306 with a lot of 0.01 becomes 0.31, above the raw size. *)
Example binance_size_above_raw :
  exists sz,
    get_trade_size (usdt_wallet 306)
      (mkContract "BTCUSDT" "BTC" "USDT" (1 # 100) (1 # 100) false false 1 binance_futures)
      100 10 = Ok (Some sz) /\
    sz == 31 # 100 /\ (306 * 10 / 100) / 100 < sz.
Proof. eexists. split; [vm_compute; reflexivity|]. split; reflexivity. Qed.

End Sizing.

(* ================================================================== *)
(** * Unrealized PnL *)
(* ================================================================== *)

Module Pnl.

Local Open Scope Q_scope.

(** The PnL as the specification words it: linear contracts without a
    multiplier, inverse contracts with the reciprocal prices and the
    multiplier, mirrored for a short. *)
Definition stated_pnl (bid ask : Q) (t : Trade) (entry : Q) : Q :=
  if inverse (t_contract t) then
    match side t with
    | long => (1 / entry - 1 / bid) * multiplier (t_contract t) * quantity t
    | short => (1 / ask - 1 / entry) * multiplier (t_contract t) * quantity t
    end
  else
    match side t with
    | long => (bid - entry) * quantity t
    | short => (entry - ask) * quantity t
    end.

(** Both connectors assign the stated PnL to a trade. *)
Definition pnl_as_stated (bid ask : Q) (t : Trade) (entry : Q) : Prop :=
  pnl (Binance.update_pnl bid ask t) == stated_pnl bid ask t entry /\
  exists t', Bitmex.update_pnl (Some bid) (Some ask) t = Ok t' /\
             pnl t' == stated_pnl bid ask t entry.

Lemma binance_strategies st sym b a :
  Binance.strategies (Binance.on_bookTicker st sym b a)
    = map (fun kv : Z * Strategy =>
             if String.eqb (symbol (contract (snd kv))) sym
             then (fst kv, set_trades (snd kv) (map (Binance.update_pnl b a) (trades (snd kv))))
             else kv)
          (Binance.strategies st).
Proof.
  unfold Binance.on_bookTicker. cbn [Binance.prices Binance.set_prices].
  rewrite dict_get_set_same. cbn [Binance.strategies Binance.set_strategies].
  apply map_ext. intros [k strat]. cbn [fst snd].
  now destruct (String.eqb _ _).
Qed.

Lemma bitmex_trades bid ask ts : forall ts',
  Bitmex.update_trades bid ask ts = Ok ts' ->
  Forall2 (fun t t' => Bitmex.update_pnl bid ask t = Ok t') ts ts'.
Proof.
  induction ts as [|t ts IH]; cbn [Bitmex.update_trades]; intros ts' H.
  - injection H as <-. constructor.
  - destruct (Bitmex.update_pnl bid ask t) as [t1|] eqn:E1; [|discriminate].
    cbn [bind] in H.
    destruct (Bitmex.update_trades bid ask ts) as [ts1|]; [|discriminate].
    cbn [bind] in H. injection H as <-. constructor; auto.
Qed.

(** The bid and ask in the cache after an instrument update: a side the
    update does not carry keeps its cached value. *)
Definition quoted (st : Bitmex.State) (d : Bitmex.InstrumentUpdate) : option Q * option Q :=
  let cached :=
    match dict_get (Bitmex.prices st) (Bitmex.u_symbol d) with
    | Some p => p
    | None => (None, None)
    end in
  (match Bitmex.u_bidPrice d with Some b => Some b | None => fst cached end,
   match Bitmex.u_askPrice d with Some a => Some a | None => snd cached end).

(** A strategy before and after an instrument update on [sym]. *)
Definition repriced (sym : string) (bid ask : option Q) (kv kv' : Z * Strategy) : Prop :=
  fst kv' = fst kv /\
  if String.eqb (symbol (contract (snd kv))) sym
  then Forall2 (fun t t' => Bitmex.update_pnl bid ask t = Ok t')
               (trades (snd kv)) (trades (snd kv'))
  else snd kv' = snd kv.

Lemma bitmex_strategies sym bid ask l : forall l',
  Bitmex.update_strategies sym bid ask l = Ok l' ->
  Forall2 (repriced sym bid ask) l l'.
Proof.
  induction l as [|[k strat] l IH]; cbn [Bitmex.update_strategies]; intros l' H.
  - injection H as <-. constructor.
  - unfold repriced.
    destruct (String.eqb (symbol (contract strat)) sym) eqn:E.
    + destruct (Bitmex.update_trades bid ask (trades strat)) as [ts|] eqn:Et;
        [|discriminate].
      cbn [bind] in H.
      destruct (Bitmex.update_strategies sym bid ask l) as [l1|]; [|discriminate].
      cbn [bind] in H. injection H as <-. constructor; [|now apply IH].
      cbn [fst snd]. rewrite E. split; [reflexivity|]. now apply bitmex_trades.
    + cbn [bind] in H.
      destruct (Bitmex.update_strategies sym bid ask l) as [l1|]; [|discriminate].
      cbn [bind] in H. injection H as <-. constructor; [|now apply IH].
      cbn [fst snd]. rewrite E. split; reflexivity.
Qed.

Lemma bitmex_handler st d st' :
  Bitmex.on_instrument st d = Ok st' ->
  Forall2 (repriced (Bitmex.u_symbol d) (fst (quoted st d)) (snd (quoted st d)))
          (Bitmex.strategies st) (Bitmex.strategies st').
Proof.
  unfold Bitmex.on_instrument, quoted.
  destruct (match dict_get _ _ with Some p => p | None => _ end) as [bid ask].
  cbn [fst snd]. intros H.
  destruct (Bitmex.update_strategies _ _ _ _) as [l|] eqn:E; [|discriminate].
  cbn [bind] in H. injection H as <-. cbn [Bitmex.strategies]. now apply bitmex_strategies.
Qed.

(** C6, amended.  A book-ticker update on Binance assigns to every open
    trade with an entry price, in the strategies of the symbol,
    [(bid - entry) * qty] for a long and [(entry - ask) * qty] for a
    short.  An instrument update on Bitmex assigns, with [price] the bid
    for a long and the ask for a short, [(1/entry - 1/price) *
    multiplier * qty] for an inverse long, the mirrored [(1/price -
    1/entry) * multiplier * qty] for an inverse short, and for the other
    contracts [(price - entry) * multiplier * qty] for a long and
    [(entry - price) * multiplier * qty] for a short: on Bitmex the
    linear formula carries the multiplier too.  The multiplier of a
    Bitmex contract is the exchange value scaled by [BITMEX_MULTIPLIER]
    and negated for an inverse contract. *)
Theorem unrealized_pnl bid ask t entry :
  status t = st_open -> entry_price t = Some entry ->
  (* Binance *)
  Binance.update_pnl bid ask t
    = set_pnl t (match side t with
                 | long => (bid - entry) * quantity t
                 | short => (entry - ask) * quantity t
                 end) /\
  (forall st sym b a,
     Binance.strategies (Binance.on_bookTicker st sym b a)
       = map (fun kv : Z * Strategy =>
                if String.eqb (symbol (contract (snd kv))) sym
                then (fst kv, set_trades (snd kv)
                                (map (Binance.update_pnl b a) (trades (snd kv))))
                else kv)
             (Binance.strategies st)) /\
  (* Bitmex *)
  (~ entry == 0 -> ~ bid == 0 -> ~ ask == 0 ->
   Bitmex.update_pnl (Some bid) (Some ask) t
     = Ok (set_pnl t
             (let m := multiplier (t_contract t) in
              match inverse (t_contract t), side t with
              | true, long => (1 / entry - 1 / bid) * m * quantity t
              | true, short => (1 / ask - 1 / entry) * m * quantity t
              | false, long => (bid - entry) * m * quantity t
              | false, short => (entry - ask) * m * quantity t
              end))) /\
  (forall st d st',
     Bitmex.on_instrument st d = Ok st' ->
     Forall2 (repriced (Bitmex.u_symbol d) (fst (quoted st d)) (snd (quoted st d)))
             (Bitmex.strategies st) (Bitmex.strategies st')) /\
  (forall info,
     multiplier (Contract_bitmex info)
       = if i_isInverse info
         then i_multiplier info * BITMEX_MULTIPLIER * -1
         else i_multiplier info * BITMEX_MULTIPLIER).
Proof.
  intros Hst He. split; [|split; [|split; [|split]]].
  - unfold Binance.update_pnl, is_open, has_entry. rewrite Hst, He. cbn [andb].
    now destruct (side t).
  - intros. apply binance_strategies.
  - intros Hentry Hbid Hask.
    unfold Bitmex.update_pnl, is_open, has_entry. rewrite Hst, He. cbn [andb Bitmex.number bind].
    destruct (inverse (t_contract t)), (side t); cbn [Bitmex.number bind];
      rewrite ?truediv_nonzero by assumption; cbn [bind];
      rewrite ?truediv_nonzero by assumption; reflexivity.
  - apply bitmex_handler.
  - intros info. unfold Contract_bitmex. cbn [multiplier].
    now destruct (i_isInverse info).
Qed.

(** The example of the specification: a linear long entered at 100,
    two units, bid at 110. *)
Definition linear_long : Trade :=
  mkTrade 0 CandleAggregator.demo_contract "Breakout" long (Some 100) st_open 0 2 (IntId 1).

(** A short on an inverse Bitmex contract entered at 20000. *)
Definition inverse_short : Trade :=
  mkTrade 0 Sizing.xbtusd "Breakout" short (Some 20000) st_open 0 1 (StrId "a").

Lemma unrealized_pnl_witness :
  pnl (Binance.update_pnl 110 111 linear_long) == 20 /\
  exists t',
    Bitmex.update_pnl (Some 18999) (Some 19000) inverse_short = Ok t' /\
    pnl t' == (1 / 19000 - 1 / 20000) * 1 * 1.
Proof.
  split.
  - destruct (unrealized_pnl 110 111 linear_long 100 eq_refl eq_refl) as (H & _).
    rewrite H. reflexivity.
  - destruct (unrealized_pnl 18999 19000 inverse_short 20000 eq_refl eq_refl)
      as (_ & _ & H & _).
    rewrite H; [|discriminate|discriminate|discriminate].
    eexists. split; reflexivity.
Defined.

(** A linear Bitmex contract with multiplier [10^-6]. *)
Definition ethusdt : Contract :=
  Contract_bitmex (mkInstrument "ETHUSDT" "ETH" "USDT" (1 # 20) 1000 false false 100).

Definition bitmex_long : Trade :=
  mkTrade 0 ethusdt "Breakout" long (Some 100) st_open 0 2 (StrId "a").

(** C6 as stated fails for a linear contract on Bitmex: entered at 100,
    two units, bid at 110, the PnL is [10 * 10^-6 * 2], not 20. *)
Lemma bitmex_linear_pnl_has_multiplier :
  ~ (forall bid ask t entry,
       status t = st_open -> entry_price t = Some entry ->
       ~ entry == 0 -> ~ bid == 0 -> ~ ask == 0 ->
       pnl_as_stated bid ask t entry).
Proof.
  intros H.
  destruct (H 110 111 bitmex_long 100 eq_refl eq_refl) as (_ & t' & Hrun & Hpnl);
    try discriminate.
  vm_compute in Hrun. injection Hrun as <-. vm_compute in Hpnl. discriminate Hpnl.
Qed.

End Pnl.

(* ================================================================== *)
(** * The REST wrapper *)
(* ================================================================== *)

Module RestWrapper.

Import Http.

Definition rest_method (m : string) : Prop := m = "GET" \/ m = "POST" \/ m = "DELETE".

(** One request on the wire, whatever the network does. *)
Lemma one_request net base method endpoint data :
  rest_method method ->
  wire (_make_request net base method endpoint data)
    = [mkRequest method (base ++ endpoint)%string data].
Proof.
  intros [ -> | [ -> | -> ] ]; unfold _make_request; cbn [String.eqb Ascii.eqb Bool.eqb orb];
    cbn; destruct (net _) as [r|e]; try reflexivity;
    destruct (status_code r =? 200)%Z; try reflexivity;
    destruct (json r); reflexivity.
Qed.

(** A transport error is logged and turned into [None]. *)
Lemma transport_error net base method endpoint data e :
  rest_method method ->
  net (mkRequest method (base ++ endpoint)%string data) = Raise e ->
  _make_request net base method endpoint data
    = mkOutcome [mkRequest method (base ++ endpoint)%string data]
                [ConnectionErrorLog method endpoint e] (Ok None).
Proof.
  intros [ -> | [ -> | -> ] ] Hnet; unfold _make_request; cbn [String.eqb Ascii.eqb Bool.eqb orb];
    cbn; cbn in Hnet; rewrite Hnet; reflexivity.
Qed.

(** A status other than 200 with a JSON body is logged and turned into
    [None]. *)
Lemma status_error net base method endpoint data code body :
  rest_method method ->
  net (mkRequest method (base ++ endpoint)%string data)
    = Ok (mkResponse code (Ok body)) ->
  code <> 200%Z ->
  _make_request net base method endpoint data
    = mkOutcome [mkRequest method (base ++ endpoint)%string data]
                [StatusErrorLog method endpoint body code] (Ok None).
Proof.
  intros [ -> | [ -> | -> ] ] Hnet Hcode; unfold _make_request;
    cbn [String.eqb Ascii.eqb Bool.eqb orb]; cbn; cbn in Hnet; rewrite Hnet;
    cbn [status_code json];
    (destruct (Z.eqb_spec code 200); [contradiction|reflexivity]).
Qed.

(** A gateway that answers 502 with an HTML page. *)
Definition bad_gateway : Network :=
  fun _ => Ok (mkResponse 502 (Raise JSONDecodeError)).

(** C7 at the failing input: on a 502 answer whose body is not JSON the
    wrapper raises out of the logging call, and logs nothing. *)
Theorem make_request_raises_on_html_error :
  _make_request bad_gateway "https://fapi.binance.com" "GET" "/fapi/v1/account" []
    = mkOutcome [mkRequest "GET" "https://fapi.binance.com/fapi/v1/account" []]
                [] (Raise JSONDecodeError).
Proof. reflexivity. Qed.

End RestWrapper.

(* ================================================================== *)
(** * Websocket subscriptions on Binance *)
(* ================================================================== *)

Module Subscriptions.

Import Binance.

Lemma str_in_In x l : str_in x l = true <-> In x l.
Proof.
  unfold str_in. rewrite existsb_exists. split.
  - intros (y & Hy & E). apply String.eqb_eq in E. now subst.
  - intros H. exists x. split; [exact H | apply String.eqb_refl].
Qed.

Lemma str_in_not x l : str_in x l = false <-> ~ In x l.
Proof. rewrite <- str_in_In. now destruct (str_in x l). Qed.





Lemma NoDup_snoc {A} (l : list A) x : NoDup l -> ~ In x l -> NoDup (l ++ [x]).
Proof.
  intros Hl Hx. apply NoDup_rev in Hl. rewrite <- (rev_involutive (l ++ [x])).
  apply NoDup_rev. rewrite rev_app_distr. cbn. constructor; [|exact Hl].
  now rewrite <- in_rev.
Qed.




















Definition ethusdt : Contract :=
  mkContract "ETHUSDT" "ETH" "USDT" (1 # 100) (1 # 1000) false false 1 binance_futures.

(** A client that subscribed the trades and the book of ETHUSDT. *)
Definition watching : State :=
  subscribe_channel
    (subscribe_channel (init [CandleAggregator.demo_contract; ethusdt])
                       [ethusdt] aggTrade false)
    [ethusdt] bookTicker false.

Lemma watching_reachable : reachable watching.
Proof.
  unfold watching.
  apply reach_subscribe; [apply reach_subscribe; [apply reach_init|]|];
    (constructor; [|constructor]); vm_compute; auto.
Qed.

Example watching_reopened :
  map sub_params (ws_sent (fst (_on_open watching)))
    = [["ethusdt@aggTrade"]; ["ethusdt@bookTicker"];
       ["ethusdt@bookTicker"]; ["ethusdt@aggTrade"]; ["btcusdt@bookTicker"]]
  /\ subs_bookTicker (fst (_on_open watching)) = ["ETHUSDT"; "BTCUSDT"]
  /\ subs_aggTrade (fst (_on_open watching)) = ["ETHUSDT"].
Proof. vm_compute. repeat split. Qed.


End Subscriptions.

(* ================================================================== *)
(** * The candle history under [parse_trades] *)
(* ================================================================== *)

Module CandleHistory.

Import CandleAggregator ParseTrades SameBucket.

(** Successive candles are one bucket width apart. *)
Fixpoint spaced (W : Z) (cs : list Candle) : Prop :=
  match cs with
  | c :: (c' :: _) as rest => timestamp c' = timestamp c + W /\ spaced W rest
  | _ => True
  end.

(** Low, open, close and high of a candle are in order. *)
Definition sane (c : Candle) : Prop :=
  (low c <= open c /\ open c <= high c /\ low c <= close c /\ close c <= high c)%Q.

Lemma last_split {A} (l : list A) (x : A) : Py.last l = Ok x -> l = removelast l ++ [x].
Proof.
  destruct l as [|a l] using rev_ind; [discriminate|].
  rewrite last_snoc. intros [= ->]. now rewrite removelast_last.
Qed.

Lemma spaced_snoc W older : forall x,
  spaced W (older ++ [x]) <->
  spaced W older /\ (forall y, Py.last older = Ok y -> timestamp x = timestamp y + W).
Proof.
  induction older as [|a older IH]; intros x.
  - cbn. split; [intros _; split; [exact I | discriminate] | auto].
  - destruct older as [|b older].
    + cbn. split.
      * intros [H _]. split; [exact I|]. now intros y [= <-].
      * intros [_ H]. split; [now apply H | exact I].
    + change ((a :: b :: older) ++ [x]) with (a :: (b :: older) ++ [x]).
      change (spaced W (a :: (b :: older) ++ [x]))
        with (timestamp b = timestamp a + W /\ spaced W ((b :: older) ++ [x])).
      change (spaced W (a :: b :: older))
        with (timestamp b = timestamp a + W /\ spaced W (b :: older)).
      rewrite IH.
      assert (Hl : Py.last (a :: b :: older) = Py.last (b :: older)).
      { unfold Py.last. cbn [rev]. destruct (rev older ++ [b]) eqn:E; [|reflexivity].
        now destruct (rev older). }
      rewrite Hl. tauto.
Qed.

(** After [n] flat candles the list is still spaced, and ends [n]
    buckets later. *)
Lemma spaced_flats W older lc n :
  spaced W (older ++ [lc]) ->
  spaced W ((older ++ [lc]) ++ flats (timestamp lc) W (close lc) 0 n) /\
  exists l, Py.last ((older ++ [lc]) ++ flats (timestamp lc) W (close lc) 0 n) = Ok l /\
            timestamp l = timestamp lc + Z.of_nat n * W.
Proof.
  intros Hs. induction n as [|n [IH1 (l & Hl & Ht)]].
  - unfold flats. cbn [seq map]. rewrite app_nil_r. split; [exact Hs|].
    exists lc. split; [apply last_snoc | lia].
  - unfold flats in *. rewrite seq_S, map_app, app_assoc. cbn [map].
    split.
    + apply spaced_snoc. split; [exact IH1|].
      intros y Hy. rewrite Hl in Hy. injection Hy as <-. cbn [timestamp]. lia.
    + eexists. split; [apply last_snoc|]. cbn [timestamp]. lia.
Qed.

(** The list of candles after a call of [parse_trades] that returned. *)
Lemma candles_after cl self price size ts lc self' r eff :
  Py.last (candles self) = Ok lc ->
  parse_trades cl self price size ts = Ok (self', r, eff) ->
  (ts < timestamp lc + tf_equiv self /\ r = same_candle /\
   candles self' = removelast (candles self) ++ [update_candle lc price size]) \/
  (timestamp lc + tf_equiv self <= ts /\ r = new_candle /\
   let W := tf_equiv self in
   let k := (ts - timestamp lc) / W - 1 in
   candles self' = candles self
                   ++ flats (timestamp lc) W (close lc) 0 (Z.to_nat k)
                   ++ [mkCandle (timestamp lc + (k + 1) * W) price price price price size]).
Proof.
  intros Hlast Hrun. pose proof (tf_equiv_pos self) as HW.
  destruct (Z_lt_le_dec ts (timestamp lc + tf_equiv self)) as [Hlt|Hge].
  - left. destruct (same_candle_branch cl self price size ts lc Hlast Hlt)
      as (s1 & Hrun1 & Hc & _).
    rewrite Hrun1 in Hrun. injection Hrun as <- <- _. auto.
  - right. split; [exact Hge|].
    destruct (Z_lt_le_dec ts (timestamp lc + 2 * tf_equiv self)) as [Hlt|Hge2].
    + assert (Hrun1 : parse_trades cl self price size ts
                      = Ok (set_candles self
                              (candles self
                               ++ [tick_candle (timestamp lc + tf_equiv self) price size]),
                            new_candle, [])).
      { unfold parse_trades. rewrite Hlast. cbn [bind].
        replace (ts <? _) with false by (symmetry; apply Z.ltb_ge; lia).
        replace (ts >=? timestamp lc + 2 * _) with false
          by (symmetry; rewrite Z.geb_leb; apply Z.leb_gt; lia).
        replace (ts >=? _) with true by (symmetry; apply Z.geb_le; lia).
        reflexivity. }
      rewrite Hrun1 in Hrun. injection Hrun as <- <- _. split; [reflexivity|].
      cbn zeta.
      assert (Hq : (ts - timestamp lc) / tf_equiv self = 1).
      { symmetry. apply (Z.div_unique _ _ 1 (ts - timestamp lc - tf_equiv self)); lia. }
      rewrite Hq. cbn [Z.sub Z.add Z.opp Z.pos_sub Z.to_nat candles set_candles].
      unfold flats, tick_candle, Candle_parse_trade. cbn [seq map app].
      now rewrite Z.mul_1_l.
    + pose proof (missing_branch cl self price size ts lc Hlast Hge2) as Hrun1.
      cbn zeta in Hrun1. rewrite Hrun1 in Hrun. injection Hrun as <- <- _.
      split; reflexivity.
Qed.

Lemma tf_after cl self price size ts self' r eff :
  parse_trades cl self price size ts = Ok (self', r, eff) -> tf self' = tf self.
Proof.
  intros Hrun.
  destruct (Py.last (candles self)) as [lc|e] eqn:Hlast.
  2:{ unfold parse_trades in Hrun. rewrite Hlast in Hrun. discriminate. }
  destruct (Z_lt_le_dec ts (timestamp lc + tf_equiv self)) as [Hlt|Hge].
  - destruct (same_candle_branch cl self price size ts lc Hlast Hlt)
      as (s1 & Hrun1 & _ & _ & _ & _ & Htf & _).
    rewrite Hrun1 in Hrun. now injection Hrun as <- _ _.
  - destruct (new_candle_branch cl self price size ts lc Hlast Hge) as (cs & Hrun1 & _).
    rewrite Hrun1 in Hrun. now injection Hrun as <- _ _.
Qed.

Lemma returned_last cl self price size ts self' r eff :
  parse_trades cl self price size ts = Ok (self', r, eff) ->
  exists lc, Py.last (candles self) = Ok lc.
Proof.
  intros Hrun. destruct (Py.last (candles self)) as [lc|e] eqn:Hlast; [eauto|].
  unfold parse_trades in Hrun. rewrite Hlast in Hrun. discriminate.
Qed.

Lemma update_candle_keeps c price size :
  timestamp (update_candle c price size) = timestamp c /\
  open (update_candle c price size) = open c.
Proof.
  unfold update_candle. cbn.
  destruct (gtb price (high c)); [split; reflexivity|].
  destruct (ltb price (low c)); split; reflexivity.
Qed.

(** X1.  Spacing of the history: when successive candles are exactly
    one bucket width apart, they still are after [parse_trades], whichever
    branch the tick takes. *)
Theorem parse_trades_keeps_spacing cl self price size ts self' r eff :
  spaced (tf_equiv self) (candles self) ->
  parse_trades cl self price size ts = Ok (self', r, eff) ->
  spaced (tf_equiv self') (candles self').
Proof.
  intros Hs Hrun.
  assert (HW : tf_equiv self' = tf_equiv self)
    by (unfold tf_equiv; now rewrite (tf_after _ _ _ _ _ _ _ _ Hrun)).
  rewrite HW. destruct (returned_last _ _ _ _ _ _ _ _ Hrun) as [lc Hlast].
  pose proof (last_split _ _ Hlast) as Hcs.
  set (older := removelast (candles self)) in *.
  destruct (candles_after _ _ _ _ _ _ _ _ _ Hlast Hrun) as [(_ & _ & ->)|(Hge & _ & Hc)].
  - rewrite Hcs in Hs. apply spaced_snoc in Hs. apply spaced_snoc.
    split; [apply Hs|]. intros y Hy.
    rewrite (proj1 (update_candle_keeps lc price size)). now apply Hs.
  - pose proof (tf_equiv_pos self) as Hpos.
    assert (Hk : 0 <= (ts - timestamp lc) / tf_equiv self - 1).
    { assert (1 <= (ts - timestamp lc) / tf_equiv self); [|lia].
      apply Z.div_le_lower_bound; lia. }
    cbn zeta in Hc. rewrite Hc, Hcs, app_assoc. rewrite Hcs in Hs.
    destruct (spaced_flats _ older lc
                (Z.to_nat ((ts - timestamp lc) / tf_equiv self - 1)) Hs)
      as (Hs1 & l & Hl & Ht).
    apply spaced_snoc. split; [exact Hs1|].
    intros y Hy. rewrite Hl in Hy. injection Hy as <-. cbn [timestamp]. rewrite Ht.
    rewrite Z2Nat.id by exact Hk. ring.
Qed.

(** Two candles one minute apart, and a tick in the fourth minute after
    the start of the last one. *)
Definition two_candles : Strategy :=
  demo_strategy [mkCandle 0 10 12 9 11 4; mkCandle 60000 11 13 11 12 2].

Definition gapped : Strategy * ParseResult * list Effect :=
  match parse_trades quiet two_candles 20 3 245000 with
  | Ok p => p
  | Raise _ => (two_candles, ret_None, [])
  end.

Lemma parse_trades_keeps_spacing_witness :
  spaced (tf_equiv (fst (fst gapped))) (candles (fst (fst gapped))) /\
  map timestamp (candles (fst (fst gapped))) = [0; 60000; 120000; 180000; 240000].
Proof.
  split; [|reflexivity].
  apply (parse_trades_keeps_spacing quiet two_candles 20 3 245000
           (fst (fst gapped)) (snd (fst gapped)) (snd gapped)).
  - vm_compute. split; [reflexivity|exact I].
  - vm_compute. reflexivity.
Defined.

Lemma sane_flat ts c : sane (mkCandle ts c c c c 0).
Proof. unfold sane. cbn. repeat split; apply Qle_refl. Qed.

Lemma sane_update c price size : sane c -> sane (update_candle c price size).
Proof.
  intros (H1 & H2 & H3 & H4).
  assert (Hwf : (low c <= high c)%Q) by (eapply Qle_trans; eassumption).
  destruct (update_candle_wf c price size Hwf) as [-> _]. unfold sane. cbn.
  pose proof (Q.le_min_l (low c) price) as M1. pose proof (Q.le_min_r (low c) price) as M2.
  pose proof (Q.le_max_l (high c) price) as M3. pose proof (Q.le_max_r (high c) price) as M4.
  revert M1 M2 M3 M4.
  generalize (Qmin (low c) price) (Qmax (high c) price). intros lo hi M1 M2 M3 M4.
  repeat split; lra.
Qed.

(** Well-formed candles stay well-formed over one tick, including the
    candles it creates. *)
Lemma parse_trades_sane cl self price size ts self' r eff :
  Forall sane (candles self) ->
  parse_trades cl self price size ts = Ok (self', r, eff) ->
  Forall sane (candles self').
Proof.
  intros Hs Hrun. destruct (returned_last _ _ _ _ _ _ _ _ Hrun) as [lc Hlast].
  pose proof (last_split _ _ Hlast) as Hcs.
  destruct (candles_after _ _ _ _ _ _ _ _ _ Hlast Hrun) as [(_ & _ & ->)|(_ & _ & Hc)].
  - rewrite Hcs in Hs. apply Forall_app in Hs. destruct Hs as [Ho Hl].
    apply Forall_app. split; [exact Ho|]. constructor; [|constructor].
    apply sane_update. now inversion Hl.
  - cbn zeta in Hc. rewrite Hc. apply Forall_app. split; [exact Hs|].
    apply Forall_app. split.
    + unfold flats. apply Forall_forall. intros c Hin. apply in_map_iff in Hin.
      destruct Hin as (j & <- & _). apply sane_flat.
    + constructor; [|constructor]. unfold sane. cbn. repeat split; apply Qle_refl.
Qed.

(** X3.  The history is append-only: [parse_trades] removes no candle and
    leaves every candle but the last as it is; the last one keeps its
    bucket start and its open. *)
Theorem parse_trades_keeps_history cl self price size ts self' r eff :
  parse_trades cl self price size ts = Ok (self', r, eff) ->
  exists lc lc' newer,
    Py.last (candles self) = Ok lc /\
    candles self' = removelast (candles self) ++ lc' :: newer /\
    timestamp lc' = timestamp lc /\ open lc' = open lc /\
    (r = new_candle -> lc' = lc /\ newer <> []) /\
    (r = same_candle -> newer = []).
Proof.
  intros Hrun. destruct (returned_last _ _ _ _ _ _ _ _ Hrun) as [lc Hlast].
  pose proof (last_split _ _ Hlast) as Hcs.
  destruct (candles_after _ _ _ _ _ _ _ _ _ Hlast Hrun) as [(_ & -> & ->)|(_ & -> & Hc)].
  - exists lc, (update_candle lc price size), [].
    destruct (update_candle_keeps lc price size) as [H1 H2].
    repeat split; auto; discriminate.
  - cbn zeta in Hc. eexists lc, lc, _. split; [exact Hlast|]. split.
    + rewrite Hc. rewrite Hcs at 1. rewrite <- app_assoc. reflexivity.
    + repeat split; try discriminate. now destruct (flats _ _ _ _ _).
Qed.

(** X4.  The tick lands in the last bucket: for a tick not older than the
    last bucket start, the last candle after [parse_trades] starts at or
    before the tick and ends after it. *)
Theorem parse_trades_bucket_holds_tick cl self price size ts lc self' r eff :
  Py.last (candles self) = Ok lc ->
  timestamp lc <= ts ->
  parse_trades cl self price size ts = Ok (self', r, eff) ->
  exists lc',
    Py.last (candles self') = Ok lc' /\
    timestamp lc' <= ts < timestamp lc' + tf_equiv self' /\
    close lc' = price.
Proof.
  intros Hlast Hts Hrun.
  assert (HW : tf_equiv self' = tf_equiv self)
    by (unfold tf_equiv; now rewrite (tf_after _ _ _ _ _ _ _ _ Hrun)).
  rewrite HW. pose proof (tf_equiv_pos self) as Hpos.
  destruct (candles_after _ _ _ _ _ _ _ _ _ Hlast Hrun) as [(Hlt & _ & ->)|(Hge & _ & Hc)].
  - exists (update_candle lc price size). split; [apply last_snoc|].
    rewrite (proj1 (update_candle_keeps lc price size)), close_update_candle.
    split; [lia | reflexivity].
  - cbn zeta in Hc. rewrite Hc, app_assoc. eexists. split; [apply last_snoc|].
    cbn [timestamp close]. split; [|reflexivity].
    replace ((ts - timestamp lc) / tf_equiv self - 1 + 1)
      with ((ts - timestamp lc) / tf_equiv self) by lia.
    pose proof (Z.mul_div_le (ts - timestamp lc) (tf_equiv self) Hpos).
    pose proof (Z.mul_succ_div_gt (ts - timestamp lc) (tf_equiv self) Hpos).
    lia.
Qed.

Lemma parse_trades_bucket_holds_tick_witness :
  exists lc',
    Py.last (candles (fst (fst gapped))) = Ok lc' /\
    timestamp lc' <= 245000 < timestamp lc' + tf_equiv (fst (fst gapped)) /\
    close lc' = 20%Q.
Proof.
  apply (parse_trades_bucket_holds_tick quiet two_candles 20 3 245000
           (mkCandle 60000 11 13 11 12 2)
           (fst (fst gapped)) (snd (fst gapped)) (snd gapped)).
  - reflexivity.
  - discriminate.
  - vm_compute. reflexivity.
Defined.

Lemma parse_trades_keeps_history_witness :
  exists lc lc' newer,
    Py.last (candles two_candles) = Ok lc /\
    candles (fst (fst gapped)) = removelast (candles two_candles) ++ lc' :: newer /\
    timestamp lc' = timestamp lc /\ open lc' = open lc /\
    (snd (fst gapped) = new_candle -> lc' = lc /\ newer <> []) /\
    (snd (fst gapped) = same_candle -> newer = []).
Proof.
  apply (parse_trades_keeps_history quiet two_candles 20 3 245000
           (fst (fst gapped)) (snd (fst gapped)) (snd gapped)).
  vm_compute. reflexivity.
Defined.

End CandleHistory.

(* ================================================================== *)
(** * The flag and the ledger of trades *)
(* ================================================================== *)

Module TradeLedger.

Import ExitRule TakeProfitStopLoss CandleAggregator ParseTrades PositionLifecycle.

Local Open Scope nat_scope.

(** The flag is up exactly while a trade is open. *)
Definition mirrored (self : Strategy) : Prop :=
  covered self /\ (ongoing_position self = true -> count_open (trades self) = 1).

Lemma count_open_kept cl c tp sl price ts :
  existsb (closes cl c tp sl price) ts = false ->
  count_open (map (settle cl c tp sl price) ts) = count_open ts.
Proof.
  unfold count_open. induction ts as [|t ts IH]; cbn [existsb map filter]; [reflexivity|].
  intros H. apply orb_false_elim in H. destruct H as [Hc Hrest].
  rewrite is_open_settle, Hc. destruct (is_open t); cbn [List.length]; now rewrite IH.
Qed.

Lemma parse_trades_mirrored cl self price size ts self' r eff :
  mirrored self ->
  parse_trades cl self price size ts = Ok (self', r, eff) ->
  mirrored self'.
Proof.
  intros [Hcov Hup] Hrun. split; [eapply parse_trades_covered; eauto|].
  destruct (Py.last (candles self)) as [lc|e] eqn:Hlast.
  2:{ unfold parse_trades in Hrun. rewrite Hlast in Hrun. discriminate. }
  destruct (Z_lt_le_dec ts (timestamp lc + tf_equiv self)) as [Hlt|Hge].
  - destruct (same_candle_branch cl self price size ts lc Hlast Hlt)
      as (s1 & Hrun1 & _ & Ht & Ho & _).
    rewrite Hrun1 in Hrun. injection Hrun as <- _ _. rewrite Ht, Ho.
    destruct (existsb _ _) eqn:Ex; [discriminate|].
    intros Hon. rewrite count_open_kept by exact Ex. now apply Hup.
  - destruct (new_candle_branch cl self price size ts lc Hlast Hge) as (cs' & Hrun1 & _).
    rewrite Hrun1 in Hrun. injection Hrun as <- _ _. exact Hup.
Qed.

Lemma open_position_mirrored cl self signal_result self' eff :
  ongoing_position self = false ->
  mirrored self ->
  _open_position cl self signal_result = Ok (self', eff) ->
  mirrored self'.
Proof.
  intros Hoff [Hcov Hup] Hrun. split; [eapply open_position_covered; eauto|].
  destruct Hcov as [Hle Hflag]. specialize (Hflag Hoff).
  unfold _open_position, bind in Hrun.
  repeat (break_match Hrun; try discriminate);
    injection Hrun as <- _; unfold count_open in *;
    cbn [trades ongoing_position set_trades set_ongoing_position _add_log];
    rewrite ?filter_app, ?length_app; cbn [filter is_open status List.length];
    rewrite ?Hoff; intros; try lia; try discriminate.
Qed.

(** The trade [_open_position] records for an accepted order. *)
Definition entered (cl : Client) (self : Strategy) (signal_result : Z) (os : OrderStatus)
    : Trade :=
  mkTrade (ep_now (endpoints cl)) (contract self) (strat_name self)
          (if (signal_result =? 1)%Z then long else short)
          (if String.eqb (os_status os) "filled" then Some (avg_price os) else None)
          st_open 0 (executed_qty os) (order_id os).

(** The entry order for a size. *)
Definition entry_order (self : Strategy) (signal_result : Z) (size : Q) : OrderReq :=
  mkOrderReq (contract self) "MARKET" size (if (signal_result =? 1)%Z then "buy" else "sell").

(** The attributes of a strategy other than its logs. *)
Definition same_but_logs (self self' : Strategy) : Prop :=
  frame self self' /\ ongoing_position self' = ongoing_position self.

(** The three ways [_open_position] can return. *)
Lemma open_position_cases cl self signal_result self' eff :
  _open_position cl self signal_result = Ok (self', eff) ->
  (self' = self /\ eff = []) \/
  (exists lc size,
     Py.last (candles self) = Ok lc /\
     get_trade_size cl (contract self) (close lc) (balance_pct self) = Ok (Some size) /\
     (platform cl = binance_spot -> signal_result <> (-1)%Z) /\
     ((ep_place_order (endpoints cl) (entry_order self signal_result size) = None /\
       same_but_logs self self' /\
       eff = [PlaceOrder (entry_order self signal_result size)]) \/
      (exists os,
         ep_place_order (endpoints cl) (entry_order self signal_result size) = Some os /\
         trades self' = trades self ++ [entered cl self signal_result os] /\
         ongoing_position self' = true /\
         candles self' = candles self /\
         eff = PlaceOrder (entry_order self signal_result size)
               :: (if String.eqb (os_status os) "filled" then []
                   else [StartTimer (order_id os)])))).
Proof.
  intros Hrun. unfold _open_position in Hrun.
  destruct (match platform cl with binance_spot => true | _ => false end
            && (signal_result =? -1)%Z) eqn:Eg.
  { injection Hrun as <- <-. now left. }
  destruct (Py.last (candles self)) as [lc|] eqn:Hlast; [|discriminate]. cbn [bind] in Hrun.
  destruct (get_trade_size _ _ _ _) as [[size|]|] eqn:Hsize; cbn [bind] in Hrun;
    [| injection Hrun as <- <-; now left | discriminate].
  right. exists lc, size. split; [reflexivity|]. split; [exact Hsize|]. split.
  { intros Hp ->. rewrite Hp in Eg. discriminate. }
  unfold place_order, entry_order in *. cbn [contract _add_log] in Hrun.
  destruct (ep_place_order _ _) as [os|].
  - right. exists os. split; [reflexivity|].
    unfold entered. destruct (String.eqb (os_status os) "filled");
      injection Hrun as <- <-; repeat split.
  - left. injection Hrun as <- <-. repeat split.
Qed.

(** X6.  Entry bookkeeping: when [_open_position] records a trade, the
    trade is open with PnL 0, long exactly for signal 1, its entry price
    is known exactly when the order came back filled, and a status poll
    is scheduled for its order exactly when the entry price is not known;
    the order sent before it is a market order of the size that
    [get_trade_size] computed at the last close. *)
Theorem open_position_records_entry cl self signal_result self' eff t :
  _open_position cl self signal_result = Ok (self', eff) ->
  trades self' = trades self ++ [t] ->
  exists lc size os,
    Py.last (candles self) = Ok lc /\
    get_trade_size cl (contract self) (close lc) (balance_pct self) = Ok (Some size) /\
    eff = PlaceOrder (entry_order self signal_result size)
          :: (if has_entry t then [] else [StartTimer (entry_id t)]) /\
    ep_place_order (endpoints cl) (entry_order self signal_result size) = Some os /\
    (has_entry t = true <-> os_status os = "filled") /\
    status t = st_open /\ pnl t = 0%Q /\
    (side t = long <-> signal_result = 1%Z) /\
    quantity t = executed_qty os /\ entry_id t = order_id os /\
    ongoing_position self' = true.
Proof.
  intros Hrun Ht.
  destruct (open_position_cases _ _ _ _ _ Hrun)
    as [[-> _]|(lc & size & Hlc & Hsz & _ & [(_ & [Hf _] & _)|(os & Hos & Ht' & Hon & _ & ->)])].
  - exfalso. apply (f_equal (@List.length Trade)) in Ht.
    rewrite length_app in Ht. cbn in Ht. lia.
  - exfalso. destruct Hf as (_ & _ & _ & _ & _ & _ & _ & _ & Hsame & _).
    rewrite Hsame in Ht. apply (f_equal (@List.length Trade)) in Ht.
    rewrite length_app in Ht. cbn in Ht. lia.
  - rewrite Ht' in Ht. apply app_inv_head in Ht. injection Ht as <-.
    exists lc, size, os. split; [exact Hlc|]. split; [exact Hsz|].
    unfold entered, has_entry. cbn.
    destruct (String.eqb (os_status os) "filled") eqn:E; repeat split; auto;
      try discriminate;
      try (intros _; now apply String.eqb_eq);
      try (intros H; apply String.eqb_eq in H; congruence);
      destruct (Z.eqb_spec signal_result 1); try discriminate; auto; congruence.
Qed.

(** A first entry on a funded futures account that fills at once. *)
Definition entered_once : Strategy * list Effect :=
  match _open_position funded fresh 1 with
  | Ok p => p
  | Raise _ => (fresh, [])
  end.

Lemma open_position_records_entry_witness :
  exists t lc size os,
    Py.last (candles fresh) = Ok lc /\
    get_trade_size funded (contract fresh) (close lc) (balance_pct fresh) = Ok (Some size) /\
    snd entered_once
      = PlaceOrder (entry_order fresh 1 size)
        :: (if has_entry t then [] else [StartTimer (entry_id t)]) /\
    ep_place_order (endpoints funded) (entry_order fresh 1 size) = Some os /\
    (has_entry t = true <-> os_status os = "filled") /\
    status t = st_open /\ pnl t = 0%Q /\
    (side t = long <-> 1%Z = 1%Z) /\
    quantity t = executed_qty os /\ entry_id t = order_id os /\
    ongoing_position (fst entered_once) = true.
Proof.
  eexists.
  apply (open_position_records_entry funded fresh 1 (fst entered_once) (snd entered_once));
    vm_compute; reflexivity.
Defined.

(** The effects of a call that are orders, and those that are timers. *)
Definition is_order (e : Effect) : bool :=
  match e with PlaceOrder _ => true | StartTimer _ => false end.

Definition count_orders (eff : list Effect) : nat := List.length (filter is_order eff).
Definition count_timers (eff : list Effect) : nat :=
  List.length (filter (fun e => negb (is_order e)) eff).

Lemma exit_orders_bounded cl c tp sl price ts :
  List.length (flat_map (orders cl c tp sl price) ts) <= count_open ts /\
  Forall (fun e => is_order e = true) (flat_map (orders cl c tp sl price) ts).
Proof.
  unfold count_open.
  induction ts as [|t ts [IH1 IH2]]; cbn [flat_map filter List.length]; [split; [lia|constructor]|].
  rewrite length_app. unfold orders at 1 3, due.
  replace (is_open t) with (match status t with st_open => true | st_closed => false end)
    by reflexivity.
  destruct (status t); [|cbn; split; [lia|exact IH2]].
  destruct (entry_price t); [|cbn; split; [lia|exact IH2]].
  destruct (tp_reached _ _ _ _ || sl_reached _ _ _ _); cbn; split;
    try lia; try exact IH2.
  constructor; [reflexivity|exact IH2].
Qed.

Lemma all_orders_count eff :
  Forall (fun e => is_order e = true) eff ->
  count_orders eff = List.length eff /\ count_timers eff = 0.
Proof.
  unfold count_orders, count_timers.
  induction 1 as [|e eff He _ [IH1 IH2]]; cbn [filter List.length]; [split; reflexivity|].
  rewrite He. cbn [negb List.length]. split; [now rewrite IH1|exact IH2].
Qed.

(** The identity of a trade, and the fact that it is closed, outlive every
    call. *)
Definition same_position (t t' : Trade) : Prop :=
  time t' = time t /\ t_contract t' = t_contract t /\ strategy t' = strategy t /\
  side t' = side t /\ entry_id t' = entry_id t /\ pnl t' = pnl t /\
  (status t = st_closed -> status t' = st_closed).

Lemma same_position_refl t : same_position t t.
Proof. repeat split; auto. Qed.

Lemma same_position_trans a b c : same_position a b -> same_position b c -> same_position a c.
Proof. unfold same_position. intuition congruence. Qed.

Lemma Forall2_refl_on {A} (R : A -> A -> Prop) (l : list A) :
  (forall x, R x x) -> Forall2 R l l.
Proof. intros H. induction l; constructor; auto. Qed.

Lemma Forall2_map_on {A} (R : A -> A -> Prop) (f : A -> A) (l : list A) :
  (forall x, R x (f x)) -> Forall2 R l (map f l).
Proof. intros H. induction l; cbn [map]; constructor; auto. Qed.

Lemma Forall2_trans_on {A} (R : A -> A -> Prop) :
  (forall x y z, R x y -> R y z -> R x z) ->
  forall l1 l2 l3, Forall2 R l1 l2 -> Forall2 R l2 l3 -> Forall2 R l1 l3.
Proof.
  intros HR l1 l2 l3 H12. revert l3.
  induction H12; intros l3 H23; inversion H23; subst; constructor; eauto.
Qed.

Lemma settle_same_position cl c tp sl price t :
  same_position t (settle cl c tp sl price t).
Proof.
  unfold settle, due. destruct (status t) eqn:Hst; [|apply same_position_refl].
  destruct (entry_price t); [|apply same_position_refl].
  destruct (tp_reached _ _ _ _ || sl_reached _ _ _ _); [|apply same_position_refl].
  destruct (confirmed cl c t); unfold same_position; cbn; rewrite Hst;
    repeat split; auto; discriminate.
Qed.

Lemma fill_trade_same_position ts oid os :
  Forall2 same_position ts (fill_trade ts oid os).
Proof.
  induction ts as [|t ts IH]; cbn [fill_trade]; [constructor|].
  destruct (OrderId_eqb (entry_id t) oid); constructor; auto.
  - repeat split; auto.
  - now apply Forall2_refl_on, same_position_refl.
  - apply same_position_refl.
Qed.

(** The ledger after a step: the trades it had, each the same position,
    then the trades recorded since. *)
Definition extends (ts ts' : list Trade) : Prop :=
  exists kept newer, ts' = kept ++ newer /\ Forall2 same_position ts kept.

Lemma extends_refl ts : extends ts ts.
Proof.
  exists ts, []. rewrite app_nil_r. split; [reflexivity|].
  apply Forall2_refl_on, same_position_refl.
Qed.

Lemma extends_trans a b c : extends a b -> extends b c -> extends a c.
Proof.
  intros (k1 & n1 & -> & H1) (k2 & n2 & -> & H2).
  apply Forall2_app_inv_l in H2. destruct H2 as (k2a & k2b & Ha & Hb & ->).
  exists k2a, (k2b ++ n2). rewrite <- app_assoc. split; [reflexivity|].
  eapply Forall2_trans_on; eauto using same_position_trans.
Qed.

Lemma parse_trades_same_positions cl self price size ts self' r eff :
  parse_trades cl self price size ts = Ok (self', r, eff) ->
  Forall2 same_position (trades self) (trades self').
Proof.
  intros Hrun.
  destruct (Py.last (candles self)) as [lc|e] eqn:Hlast.
  2:{ unfold parse_trades in Hrun. rewrite Hlast in Hrun. discriminate. }
  destruct (Z_lt_le_dec ts (timestamp lc + tf_equiv self)) as [Hlt|Hge].
  - destruct (same_candle_branch cl self price size ts lc Hlast Hlt)
      as (s1 & Hrun1 & _ & Ht & _).
    rewrite Hrun1 in Hrun. injection Hrun as <- _ _. rewrite Ht.
    apply Forall2_map_on, settle_same_position.
  - destruct (new_candle_branch cl self price size ts lc Hlast Hge) as (cs' & Hrun1 & _).
    rewrite Hrun1 in Hrun. injection Hrun as <- _ _.
    apply Forall2_refl_on, same_position_refl.
Qed.

Lemma extends_same ts ts' : Forall2 same_position ts ts' -> extends ts ts'.
Proof. intros H. exists ts', []. now rewrite app_nil_r. Qed.

(** The exit orders of a tick: none on a new candle, at most as many as
    there are open trades otherwise. *)
Lemma parse_trades_orders cl self price size ts self' r eff :
  parse_trades cl self price size ts = Ok (self', r, eff) ->
  List.length eff <= count_open (trades self) /\
  Forall (fun e => is_order e = true) eff /\
  (r <> same_candle -> eff = []).
Proof.
  intros Hrun.
  destruct (Py.last (candles self)) as [lc|e] eqn:Hlast.
  2:{ unfold parse_trades in Hrun. rewrite Hlast in Hrun. discriminate. }
  destruct (Z_lt_le_dec ts (timestamp lc + tf_equiv self)) as [Hlt|Hge].
  - destruct (same_candle_branch cl self price size ts lc Hlast Hlt)
      as (s1 & Hrun1 & _).
    rewrite Hrun1 in Hrun. injection Hrun as <- <- <-.
    destruct (exit_orders_bounded cl (contract self) (take_profit self) (stop_loss self)
                price (trades self)) as [H1 H2].
    split; [exact H1|]. split; [exact H2|]. intros H. now contradiction H.
  - destruct (new_candle_branch cl self price size ts lc Hlast Hge) as (cs' & Hrun1 & _).
    rewrite Hrun1 in Hrun. injection Hrun as <- <- <-.
    repeat split; [cbn; lia|constructor].
Qed.

(** Trades that are all long. *)
Definition long_only (ts : list Trade) : Prop := Forall (fun t => side t = long) ts.

Lemma same_positions_long ts ts' :
  Forall2 same_position ts ts' -> long_only ts -> long_only ts'.
Proof.
  unfold long_only. induction 1 as [|t t' ts ts' (_ & _ & _ & Hs & _) _ IH];
    intros Hl; [constructor|].
  inversion Hl; subst. constructor; [congruence|auto].
Qed.

(** What [_open_position] does to the ledger: nothing, or one trade more. *)
Lemma open_position_ledger cl self signal_result self' eff :
  _open_position cl self signal_result = Ok (self', eff) ->
  (trades self' = trades self /\ count_orders eff <= 1 /\ count_timers eff = 0) \/
  (exists os,
     trades self' = trades self ++ [entered cl self signal_result os] /\
     count_orders eff = 1 /\ count_timers eff <= 1).
Proof.
  intros Hrun.
  destruct (open_position_cases _ _ _ _ _ Hrun)
    as [[-> ->]|(lc & size & _ & _ & _ & [(_ & [Hf _] & ->)|(os & _ & Ht & _ & _ & ->)])].
  - left. cbn. repeat split; lia.
  - left. destruct Hf as (_ & _ & _ & _ & _ & _ & _ & _ & -> & _). cbn. repeat split; lia.
  - right. exists os. split; [exact Ht|].
    destruct (String.eqb (os_status os) "filled"); cbn; split; lia.
Qed.

Lemma open_position_extends cl self signal_result self' eff :
  _open_position cl self signal_result = Ok (self', eff) ->
  extends (trades self) (trades self').
Proof.
  intros Hrun.
  destruct (open_position_ledger _ _ _ _ _ Hrun) as [[-> _]|(os & -> & _)].
  - apply extends_refl.
  - eexists _, _. split; [reflexivity|].
    apply Forall2_refl_on, same_position_refl.
Qed.

Lemma OrderId_eqb_eq a b : OrderId_eqb a b = true <-> a = b.
Proof.
  destruct a as [x|x], b as [y|y]; cbn [OrderId_eqb]; split; intros H;
    try discriminate; try (injection H as ->).
  - apply Z.eqb_eq in H. now subst.
  - apply Z.eqb_refl.
  - apply String.eqb_eq in H. now subst.
  - apply String.eqb_refl.
Qed.

(** The loop with [break]: the trades before the first one entered by
    the order, that trade with the fill, and the rest untouched. *)
Lemma fill_trade_first pre t post oid os :
  Forall (fun u => entry_id u <> oid) pre ->
  entry_id t = oid ->
  fill_trade (pre ++ t :: post) oid os
    = pre ++ set_fill t (avg_price os) (executed_qty os) :: post.
Proof.
  intros Hpre Ht. induction Hpre as [|u pre Hu _ IH]; cbn [fill_trade app].
  - replace (OrderId_eqb (entry_id t) oid) with true; [reflexivity|].
    symmetry. now apply OrderId_eqb_eq.
  - destruct (OrderId_eqb (entry_id u) oid) eqn:E.
    + apply OrderId_eqb_eq in E. contradiction.
    + now rewrite IH.
Qed.

Lemma fill_trade_none ts oid os :
  Forall (fun u => entry_id u <> oid) ts -> fill_trade ts oid os = ts.
Proof.
  induction 1 as [|u ts Hu _ IH]; cbn [fill_trade]; [reflexivity|].
  destruct (OrderId_eqb (entry_id u) oid) eqn:E.
  - apply OrderId_eqb_eq in E. contradiction.
  - now rewrite IH.
Qed.

(** X10.  The status poll: when the order is reported filled, the first
    trade entered by that order, and no other, receives the reported
    average price and executed quantity; nothing else of the strategy
    changes and no new poll is scheduled. *)
Theorem poll_fills_first_match cl self oid os pre t post :
  get_order_status cl (contract self) oid = Some os ->
  os_status os = "filled" ->
  trades self = pre ++ t :: post ->
  Forall (fun u => entry_id u <> oid) pre ->
  entry_id t = oid ->
  _check_order_status cl self oid
    = (set_trades self (pre ++ set_fill t (avg_price os) (executed_qty os) :: post), []).
Proof.
  intros Hos Hst Hts Hpre Ht. unfold _check_order_status. rewrite Hos.
  replace (String.eqb (os_status os) "filled") with true
    by (symmetry; now apply String.eqb_eq).
  rewrite Hts. now rewrite fill_trade_first.
Qed.

(** Two trades awaiting their fill, and an exchange that reports order
    2 filled at 101 for 3 units. *)
Definition awaiting (n : Z) : Trade :=
  mkTrade 0 demo_contract "Breakout" long None st_open 0 0 (IntId n).

Definition reporting : Client :=
  BinanceFuturesClient None
    (mkEndpoints (fun _ => None)
                 (fun _ oid => if OrderId_eqb oid (IntId 2)
                               then Some (mkOrderStatus (IntId 2) "filled" 101 3)
                               else None) 0).

Lemma poll_fills_first_match_witness :
  _check_order_status reporting
      (set_trades fresh [awaiting 1; awaiting 2; awaiting 2]) (IntId 2)
    = (set_trades fresh [awaiting 1; set_fill (awaiting 2) 101 3; awaiting 2], []).
Proof.
  apply (poll_fills_first_match reporting
           (set_trades fresh [awaiting 1; awaiting 2; awaiting 2]) (IntId 2)
           (mkOrderStatus (IntId 2) "filled" 101 3)
           [awaiting 1] (awaiting 2) [awaiting 2]);
    try reflexivity.
  constructor; [discriminate|constructor].
Defined.

(** The sizing of an entry raises only on a division by zero. *)
Lemma wallet_of_margin data ep k b :
  dict_get (get_balances (BinanceFuturesClient data ep)) k = Some b ->
  exists w, wallet_balance b = Ok w.
Proof.
  apply (collect_values fa_asset Balance_binance_futures
           (fun b => exists w, wallet_balance b = Ok w)).
  intros a. cbn. eauto.
Qed.

Lemma wallet_of_bitmex data ep k b :
  dict_get (get_balances (BitmexClient data ep)) k = Some b ->
  exists w, wallet_balance b = Ok w.
Proof.
  apply (collect_values bm_currency Balance_bitmex
           (fun b => exists w, wallet_balance b = Ok w)).
  intros a. cbn. eauto.
Qed.

Lemma free_of_spot data ep k b :
  dict_get (get_balances (BinanceSpotClient data ep)) k = Some b ->
  exists f, free b = Ok f.
Proof.
  intros H. destruct (spot_balances _ _ _ _ H) as (f & l & ->). cbn. eauto.
Qed.

Lemma truediv_cases x y :
  (Qeq_bool y 0 = true /\ truediv x y = Raise ZeroDivisionError) \/
  (Qeq_bool y 0 = false /\ truediv x y = Ok (x / y)%Q).
Proof. unfold truediv. destruct (Qeq_bool y 0); auto. Qed.

(** The asset whose balance sizes the entry. *)
Definition sizing_asset (cl : Client) (c : Contract) : string :=
  match cl with
  | BitmexClient _ _ => "XBt"
  | _ => quote_asset c
  end.

Lemma trade_size_no_balance cl c price pct :
  get_trade_size cl c price pct = Ok None <->
  dict_get (get_balances cl) (sizing_asset cl c) = None.
Proof.
  destruct cl as [data ep|data ep|data ep];
    unfold get_trade_size, binance_get_trade_size, bitmex_get_trade_size, sizing_asset;
    cbn [futures].
  - destruct (dict_get _ (quote_asset c)) as [b|] eqn:Hb; [|tauto].
    destruct (wallet_of_margin _ _ _ _ Hb) as [w ->]. cbn [bind].
    split; [|discriminate].
    destruct (truediv_cases (w * pct / 100) price) as [[_ ->]|[_ ->]]; cbn [bind];
      [discriminate|].
    destruct (truediv_cases (w * pct / 100 / price) (lot_size c)) as [[_ ->]|[_ ->]];
      cbn [bind]; discriminate.
  - destruct (dict_get _ (quote_asset c)) as [b|] eqn:Hb; [|tauto].
    destruct (free_of_spot _ _ _ _ Hb) as [w ->]. cbn [bind].
    split; [|discriminate].
    destruct (truediv_cases (w * pct / 100) price) as [[_ ->]|[_ ->]]; cbn [bind];
      [discriminate|].
    destruct (truediv_cases (w * pct / 100 / price) (lot_size c)) as [[_ ->]|[_ ->]];
      cbn [bind]; discriminate.
  - destruct (dict_get _ "XBt") as [b|] eqn:Hb; [|tauto].
    destruct (wallet_of_bitmex _ _ _ _ Hb) as [w ->]. cbn [bind].
    split; [|discriminate].
    destruct (inverse c); [|destruct (quanto c)].
    + destruct (truediv_cases (multiplier c) price) as [[_ ->]|[_ ->]]; cbn [bind];
        [discriminate|].
      destruct (truediv_cases (w * pct / 100) (multiplier c / price)) as [[_ ->]|[_ ->]];
        cbn [bind]; discriminate.
    + destruct (truediv_cases (w * pct / 100) (multiplier c * price)) as [[_ ->]|[_ ->]];
        cbn [bind]; discriminate.
    + destruct (truediv_cases (w * pct / 100) (multiplier c * price)) as [[_ ->]|[_ ->]];
        cbn [bind]; discriminate.
Qed.





(** X15.  No balance, no entry: when the balances the client fetches
    lack the sizing asset (the request failed, or the asset is not in the
    account), [_open_position] sends no order, records no trade and
    leaves the strategy as it was. *)
Theorem no_balance_no_entry cl self signal_result :
  candles self <> [] ->
  dict_get (get_balances cl) (sizing_asset cl (contract self)) = None ->
  _open_position cl self signal_result = Ok (self, []).
Proof.
  intros Hne Hb. unfold _open_position.
  destruct (match platform cl with binance_spot => true | _ => false end
            && (signal_result =? -1)%Z); [reflexivity|].
  destruct (last_nonempty _ Hne) as [lc ->]. cbn [bind].
  now rewrite (proj2 (trade_size_no_balance cl (contract self) (close lc)
                        (balance_pct self)) Hb).
Qed.

Lemma no_balance_no_entry_witness :
  _open_position (BinanceFuturesClient None ExitOnTick.filling) fresh 1 = Ok (fresh, []).
Proof.
  apply (no_balance_no_entry (BinanceFuturesClient None ExitOnTick.filling) fresh 1).
  - discriminate.
  - reflexivity.
Defined.

Lemma last2_short {A} (l : list A) :
  Py.last2 l = Raise IndexError <-> List.length l < 2.
Proof.
  unfold Py.last2. rewrite <- length_rev.
  destruct (rev l) as [|x [|y r]]; cbn [List.length]; split; intros H;
    try reflexivity; try discriminate; lia.
Qed.

Lemma last_short {A} (l : list A) :
  Py.last l = Raise IndexError <-> List.length l < 1.
Proof.
  unfold Py.last. rewrite <- length_rev.
  destruct (rev l) as [|x r]; cbn [List.length]; split; intros H;
    try reflexivity; try discriminate; lia.
Qed.

Lemma breakout_signal_short self min_volume :
  breakout_check_signal self min_volume = Raise IndexError <->
  List.length (candles self) < 2.
Proof.
  unfold breakout_check_signal.
  destruct (Py.last (candles self)) as [c1|e] eqn:E1; cbn [bind].
  - destruct (Py.last2 (candles self)) as [c2|e] eqn:E2; cbn [bind].
    + split.
      * intros H. destruct (_ && _); [discriminate|]. destruct (_ && _); discriminate.
      * intros H. apply last2_short in H. congruence.
    + assert (e = IndexError) as ->.
      { unfold Py.last2 in E2. destruct (rev (candles self)) as [|x [|y r]]; congruence. }
      rewrite <- last2_short, E2. tauto.
  - assert (e = IndexError) as ->.
    { unfold Py.last in E1. destruct (rev (candles self)); congruence. }
    split; [|reflexivity]. intros _. apply last_short in E1. lia.
Qed.

Section Indicators.

Variable pandas_rsi : Z -> list Q -> result Q.
Variable pandas_macd : Z -> Z -> Z -> list Q -> result (Q * Q).

Local Abbreviation check_trade := (check_trade pandas_rsi pandas_macd).
Local Abbreviation after := (after pandas_rsi pandas_macd).
Local Abbreviation run := (run pandas_rsi pandas_macd).

(** [check_trade] does nothing, or opens a position on a signal of 1 or
    -1 while the flag is down. *)
Lemma check_trade_cases cl self tick_type self' eff :
  check_trade cl self tick_type = Ok (self', eff) ->
  (self' = self /\ eff = []) \/
  (exists signal_result,
     (signal_result = 1 \/ signal_result = -1)%Z /\
     ongoing_position self = false /\
     (tick_type = new_candle \/ exists min_volume, variant self = Breakout min_volume) /\
     _open_position cl self signal_result = Ok (self', eff)).
Proof.
  intros Hrun. unfold Strategies.check_trade, bind in Hrun.
  assert (Hsig : forall z, signal_in_1_m1 z = true -> (z = 1 \/ z = -1)%Z).
  { intros z H. unfold signal_in_1_m1 in H. apply orb_prop in H.
    destruct H as [H|H]; apply Z.eqb_eq in H; auto. }
  destruct (variant self).
  - destruct tick_type; cbn [andb] in Hrun;
      try (injection Hrun as <- <-; now left).
    destruct (ongoing_position self) eqn:Hon; cbn [negb] in Hrun;
      [injection Hrun as <- <-; now left|].
    destruct (technical_check_signal _ _ _ _ _ _ _) as [z|]; [|discriminate].
    destruct (signal_in_1_m1 z) eqn:Ez; [|injection Hrun as <- <-; now left].
    right. exists z. auto.
  - destruct (ongoing_position self) eqn:Hon; cbn [negb] in Hrun;
      [injection Hrun as <- <-; now left|].
    destruct (breakout_check_signal _ _) as [z|]; [|discriminate].
    destruct (signal_in_1_m1 z) eqn:Ez; [|injection Hrun as <- <-; now left].
    right. exists z. eauto 7.
Qed.

Lemma check_trade_mirrored cl self tick_type self' eff :
  mirrored self -> check_trade cl self tick_type = Ok (self', eff) -> mirrored self'.
Proof.
  intros Hm Hrun.
  destruct (ongoing_position self) eqn:Hon.
  - rewrite (check_trade_holding _ _ cl self tick_type Hon) in Hrun.
    now injection Hrun as <- _.
  - unfold Strategies.check_trade, bind in Hrun.
    repeat (break_match Hrun; try discriminate);
      try (injection Hrun as <- _; exact Hm);
      eapply open_position_mirrored; eauto.
Qed.

Lemma after_mirrored self call : mirrored self -> mirrored (after self call).
Proof.
  intros Hm. destruct call as [cl price size ts|cl tick_type|cl oid];
    cbn [Strategies.after].
  - destruct (parse_trades cl self price size ts) as [[[self' r] eff]|e] eqn:Hrun;
      [|exact Hm].
    eapply parse_trades_mirrored; eauto.
  - destruct (Strategies.check_trade _ _ cl self tick_type) as [[self' eff]|e] eqn:Hrun;
      [|exact Hm].
    eapply check_trade_mirrored; eauto.
  - destruct Hm as [Hcov Hup]. split; [now apply check_order_status_covered|].
    unfold _check_order_status.
    destruct (get_order_status cl (contract self) oid) as [os|]; [|exact Hup].
    destruct (String.eqb (os_status os) "filled"); [|exact Hup].
    cbn [fst trades set_trades ongoing_position]. now rewrite count_open_fill.
Qed.

Lemma run_mirrored calls : forall self, mirrored self -> mirrored (run self calls).
Proof.
  induction calls as [|call calls IH]; intros self Hm; [exact Hm|].
  cbn [Strategies.run fold_left]. apply IH. now apply after_mirrored.
Qed.

(** X5.  The flag mirrors the ledger: after any sequence of calls on a
    new strategy, [ongoing_position] is true exactly when one trade is
    open, and false exactly when none is. *)
Theorem flag_mirrors_open_trade c exch t pct tp sl v cs calls :
  let self := run (set_candles (Strategies.init c exch t pct tp sl v) cs) calls in
  (ongoing_position self = true <-> count_open (trades self) = 1) /\
  (ongoing_position self = false <-> count_open (trades self) = 0).
Proof.
  intros self.
  assert (Hm : mirrored self).
  { apply run_mirrored. repeat split; cbn; intros; try lia; discriminate. }
  destruct Hm as [[Hle Hoff] Hon].
  destruct (ongoing_position self); split; split; intros H;
    try reflexivity; try discriminate; auto;
    try (specialize (Hon eq_refl); lia); try (specialize (Hoff eq_refl); lia).
Qed.

Lemma check_trade_extends cl self tick_type self' eff :
  check_trade cl self tick_type = Ok (self', eff) ->
  extends (trades self) (trades self').
Proof.
  intros Hrun.
  destruct (check_trade_cases _ _ _ _ _ Hrun) as [[-> _]|(z & _ & _ & _ & Hop)].
  - apply extends_refl.
  - eapply open_position_extends; eauto.
Qed.

Lemma after_extends self call : extends (trades self) (trades (after self call)).
Proof.
  destruct call as [cl price size ts|cl tick_type|cl oid]; cbn [Strategies.after].
  - destruct (parse_trades cl self price size ts) as [[[self' r] eff]|e] eqn:Hrun;
      [|apply extends_refl].
    eapply extends_same, parse_trades_same_positions; eauto.
  - destruct (Strategies.check_trade _ _ cl self tick_type) as [[self' eff]|e] eqn:Hrun;
      [|apply extends_refl].
    eapply check_trade_extends; eauto.
  - unfold _check_order_status.
    destruct (get_order_status cl (contract self) oid) as [os|]; [|apply extends_refl].
    destruct (String.eqb (os_status os) "filled"); [|apply extends_refl].
    cbn [fst trades set_trades]. apply extends_same, fill_trade_same_position.
Qed.

(** X7.  The ledger only grows: after any sequence of calls the list of
    trades is the list it was, each trade with the same time, contract,
    strategy, side, entry order and PnL and still closed if it was
    closed, followed by the trades recorded since. *)
Theorem ledger_only_grows self calls :
  exists kept newer,
    trades (run self calls) = kept ++ newer /\
    Forall2 same_position (trades self) kept.
Proof.
  change (extends (trades self) (trades (run self calls))).
  revert self. induction calls as [|call calls IH]; intros self; [apply extends_refl|].
  cbn [Strategies.run fold_left]. eapply extends_trans; [apply after_extends|apply IH].
Qed.

(** The client a call goes through. *)
Definition client_of (call : Call) : Client :=
  match call with
  | CallParseTrades cl _ _ _ | CallCheckTrade cl _ | CallCheckOrderStatus cl _ => cl
  end.

Lemma after_long self call :
  platform (client_of call) = binance_spot ->
  long_only (trades self) -> long_only (trades (after self call)).
Proof.
  intros Hspot Hl.
  destruct call as [cl price size ts|cl tick_type|cl oid];
    cbn [Strategies.after client_of] in *.
  - destruct (parse_trades cl self price size ts) as [[[self' r] eff]|e] eqn:Hrun;
      [|exact Hl].
    eapply same_positions_long; [eapply parse_trades_same_positions; eauto|exact Hl].
  - destruct (Strategies.check_trade _ _ cl self tick_type) as [[self' eff]|e] eqn:Hrun;
      [|exact Hl].
    destruct (check_trade_cases _ _ _ _ _ Hrun) as [[-> _]|(z & Hz & _ & _ & Hop)];
      [exact Hl|].
    destruct (open_position_cases _ _ _ _ _ Hop)
      as [[-> _]|(lc & size & _ & _ & Hne & [(_ & [Hf _] & _)|(os & _ & Ht & _)])].
    + exact Hl.
    + destruct Hf as (_ & _ & _ & _ & _ & _ & _ & _ & -> & _). exact Hl.
    + rewrite Ht. apply Forall_app. split; [exact Hl|].
      constructor; [|constructor]. unfold entered. cbn [side].
      destruct Hz as [->| ->]; [reflexivity|]. now contradiction (Hne Hspot).
  - unfold _check_order_status.
    destruct (get_order_status cl (contract self) oid) as [os|]; [|exact Hl].
    destruct (String.eqb (os_status os) "filled"); [|exact Hl].
    cbn [fst trades set_trades].
    eapply same_positions_long; [apply fill_trade_same_position|exact Hl].
Qed.

(** X8.  No short on a spot account: a strategy driven only through
    Binance spot clients never records a short trade. *)
Theorem spot_never_shorts c exch t pct tp sl v cs calls :
  Forall (fun call => platform (client_of call) = binance_spot) calls ->
  Forall (fun t => side t = long)
         (trades (run (set_candles (Strategies.init c exch t pct tp sl v) cs) calls)).
Proof.
  intros Hcalls.
  assert (H : forall self, long_only (trades self) -> long_only (trades (run self calls))).
  { induction Hcalls as [|call calls Hc _ IH]; intros self Hl; [exact Hl|].
    cbn [Strategies.run fold_left]. apply IH. now apply after_long. }
  apply H. constructor.
Qed.

(** X9.  Entry orders: a call of [check_trade] places at most one order
    and starts a poll only together with an order; it places none while
    a position is ongoing, none for a technical strategy unless the
    tick opened a candle, and records at most one trade, never without
    an order. *)
Theorem check_trade_orders cl self tick_type self' eff :
  check_trade cl self tick_type = Ok (self', eff) ->
  count_orders eff <= 1 /\ count_timers eff <= count_orders eff /\
  (ongoing_position self = true -> eff = [] /\ self' = self) /\
  (forall a b c d, variant self = Technical a b c d -> tick_type <> new_candle ->
     eff = [] /\ self' = self) /\
  List.length (trades self') <= List.length (trades self) + count_orders eff.
Proof.
  intros Hrun.
  destruct (check_trade_cases _ _ _ _ _ Hrun) as [[-> ->]|(z & _ & Hoff & Hv & Hop)].
  { cbn. repeat split; auto; lia. }
  assert (H3 : ongoing_position self = true -> eff = [] /\ self' = self) by congruence.
  assert (H4 : forall a b c d, variant self = Technical a b c d ->
                 tick_type <> new_candle -> eff = [] /\ self' = self).
  { intros a b c d Hvar Hne. destruct Hv as [->|[mv Hb]]; [now contradiction Hne|].
    congruence. }
  destruct (open_position_ledger _ _ _ _ _ Hop) as [(-> & H1 & H2)|(os & -> & H1 & H2)].
  - split; [|split; [|split; [exact H3|split; [exact H4|]]]]; lia.
  - rewrite length_app. cbn [List.length].
    split; [|split; [|split; [exact H3|split; [exact H4|]]]]; lia.
Qed.

(** X13.  Exit orders: on a strategy reached by any sequence of calls, a
    tick sends at most one order, an exit order, and starts no poll; it
    sends none when no position is ongoing and none when it opens a
    candle. *)
Theorem tick_sends_at_most_one_exit c exch t pct tp sl v cs calls cl price size ts self' r eff :
  let self := run (set_candles (Strategies.init c exch t pct tp sl v) cs) calls in
  parse_trades cl self price size ts = Ok (self', r, eff) ->
  count_orders eff <= 1 /\ count_timers eff = 0 /\
  (ongoing_position self = false -> eff = []) /\
  (r <> same_candle -> eff = []) /\
  (forall e, In e eff -> exists u, In u (trades self) /\ is_open u = true /\
                                   has_entry u = true /\
                                   e = PlaceOrder (exit_order cl (contract self) u)).
Proof.
  intros self Hrun.
  assert (Hm : mirrored self).
  { apply run_mirrored. repeat split; cbn; intros; try lia; discriminate. }
  destruct Hm as [[Hle Hoff] _].
  destruct (parse_trades_orders _ _ _ _ _ _ _ _ Hrun) as (Hlen & Hall & Hnew).
  destruct (all_orders_count _ Hall) as [Hc Ht]. rewrite Hc, Ht.
  split; [lia|]. split; [reflexivity|]. split; [|split; [exact Hnew|]].
  - intros Hflag. specialize (Hoff Hflag). destruct eff; [reflexivity|].
    cbn [List.length] in Hlen. lia.
  - intros e Hin.
    destruct (Py.last (candles self)) as [lc|e'] eqn:Hlast.
    2:{ unfold parse_trades in Hrun. rewrite Hlast in Hrun. discriminate. }
    destruct (Z_lt_le_dec ts (timestamp lc + tf_equiv self)) as [Hlt|Hge].
    + destruct (same_candle_branch cl self price size ts lc Hlast Hlt) as (s1 & Hrun1 & _).
      rewrite Hrun1 in Hrun. injection Hrun as _ _ <-.
      apply in_flat_map in Hin. destruct Hin as (u & Hu & He).
      exists u. unfold orders, due in He. unfold is_open, has_entry.
      destruct (status u); [|contradiction].
      destruct (entry_price u); [|contradiction].
      destruct (tp_reached _ _ _ _ || sl_reached _ _ _ _); [|contradiction].
      destruct He as [<-|[]]. auto.
    + destruct (new_candle_branch cl self price size ts lc Hlast Hge) as (cs' & Hrun1 & _).
      rewrite Hrun1 in Hrun. injection Hrun as _ _ <-. contradiction.
Qed.

(** The candles over the calls. *)
Lemma check_trade_candles cl self tick_type self' eff :
  check_trade cl self tick_type = Ok (self', eff) -> candles self' = candles self.
Proof.
  intros Hrun.
  destruct (check_trade_cases _ _ _ _ _ Hrun) as [[-> _]|(z & _ & _ & _ & Hop)];
    [reflexivity|].
  destruct (open_position_cases _ _ _ _ _ Hop)
    as [[-> _]|(lc & size & _ & _ & _ & [(_ & [Hf _] & _)|(os & _ & _ & _ & Hc & _)])].
  - reflexivity.
  - now destruct Hf as (_ & _ & _ & _ & _ & _ & _ & -> & _).
  - exact Hc.
Qed.

(** A history of well-formed candles, at least [n] of them. *)
Definition history (n : nat) (cs : list Candle) : Prop :=
  Forall CandleHistory.sane cs /\ n <= List.length cs.

Lemma after_history n self call :
  history n (candles self) -> history n (candles (after self call)).
Proof.
  intros [Hs Hn].
  destruct call as [cl price size ts|cl tick_type|cl oid]; cbn [Strategies.after].
  - destruct (parse_trades cl self price size ts) as [[[self' r] eff]|e] eqn:Hrun;
      [|now split].
    split; [eapply CandleHistory.parse_trades_sane; eauto|].
    destruct (CandleHistory.returned_last _ _ _ _ _ _ _ _ Hrun) as [lc Hlast].
    pose proof (CandleHistory.last_split _ _ Hlast) as Hcs.
    destruct (CandleHistory.candles_after _ _ _ _ _ _ _ _ _ Hlast Hrun)
      as [(_ & _ & ->)|(_ & _ & Hc)].
    + rewrite Hcs in Hn. rewrite length_app in *. exact Hn.
    + cbn zeta in Hc. rewrite Hc, length_app. lia.
  - destruct (Strategies.check_trade _ _ cl self tick_type) as [[self' eff]|e] eqn:Hrun;
      [|now split].
    rewrite (check_trade_candles _ _ _ _ _ Hrun). now split.
  - unfold _check_order_status.
    destruct (get_order_status cl (contract self) oid) as [os|]; [|now split].
    destruct (String.eqb (os_status os) "filled"); now split.
Qed.

Lemma run_history n calls : forall self,
  history n (candles self) -> history n (candles (run self calls)).
Proof.
  induction calls as [|call calls IH]; intros self H; [exact H|].
  cbn [Strategies.run fold_left]. apply IH. now apply after_history.
Qed.

(** X2.  Well-formed candles stay well-formed: when every historical
    candle has low <= open <= high and low <= close <= high, so has
    every candle after any sequence of calls, including the candles the
    ticks created, and no candle was lost. *)
Theorem candles_stay_sane self calls :
  Forall CandleHistory.sane (candles self) ->
  Forall CandleHistory.sane (candles (run self calls)) /\
  List.length (candles self) <= List.length (candles (run self calls)).
Proof.
  intros Hs. apply (run_history (List.length (candles self)) calls self).
  split; [exact Hs|lia].
Qed.

(** X14.  The breakout signal on a live history: started from two or
    more well-formed historical candles, after any sequence of calls
    the breakout signal follows the stated rule on the last two candles:
    1 exactly on a close above the previous high with enough volume, -1
    exactly on a close below the previous low with enough volume, 0
    otherwise. *)
Theorem breakout_rule_on_live_history self calls min_volume :
  Forall CandleHistory.sane (candles self) ->
  2 <= List.length (candles self) ->
  exists older c2 c1,
    candles (run self calls) = older ++ [c2; c1] /\
    BreakoutSignal.signal_rule (run self calls) min_volume c2 c1.
Proof.
  intros Hs Hn.
  destruct (run_history 2 calls self (conj Hs Hn)) as [Hs' Hn'].
  destruct (candles (run self calls)) as [|c1 l] eqn:Hc using rev_ind;
    [cbn in Hn'; lia|]. clear IHl.
  destruct l as [|c2 older] using rev_ind;
    [cbn in Hn'; lia|]. clear IHolder.
  exists older, c2, c1. rewrite <- app_assoc in *. cbn [app] in *.
  split; [reflexivity|].
  assert (H2 : CandleHistory.sane c2).
  { apply Forall_app in Hs'. destruct Hs' as [_ H]. now inversion H. }
  destruct H2 as (H1 & H2 & _).
  unfold BreakoutSignal.signal_rule, breakout_check_signal.
  rewrite Hc, BreakoutSignal.last_snoc2, BreakoutSignal.last2_snoc. cbn [bind]. unfold gtb.
  assert (Hwf : (low c2 <= high c2)%Q) by (eapply Qle_trans; eauto).
  destruct (ltb (high c2) (close c1)) eqn:E1;
    destruct (ltb min_volume (volume c1)) eqn:E2;
    destruct (ltb (close c1) (low c2)) eqn:E3;
    try (apply PyFacts.ltb_lt in E1); try (apply PyFacts.ltb_ge in E1);
    try (apply PyFacts.ltb_lt in E2); try (apply PyFacts.ltb_ge in E2);
    try (apply PyFacts.ltb_lt in E3); try (apply PyFacts.ltb_ge in E3);
    cbn [andb]; eexists; (split; [reflexivity|]);
    repeat split; intros; try discriminate; try lia; try lra;
    try (intros [? ?]; lra).
Qed.

(** X11.  The breakout check needs two candles: the signal raises
    [IndexError] exactly when the strategy holds fewer than two candles,
    and then [check_trade] of a breakout strategy without an ongoing
    position raises it as well; after a tick that opened a candle the
    signal never raises. *)
Theorem breakout_check_needs_two_candles self min_volume :
  (breakout_check_signal self min_volume = Raise IndexError <->
   List.length (candles self) < 2) /\
  (variant self = Breakout min_volume -> ongoing_position self = false ->
   List.length (candles self) < 2 ->
   forall cl tick_type, check_trade cl self tick_type = Raise IndexError) /\
  (forall cl price size ts self' eff,
     parse_trades cl self price size ts = Ok (self', new_candle, eff) ->
     exists z, breakout_check_signal self' min_volume = Ok z).
Proof.
  split; [apply breakout_signal_short|]. split.
  - intros Hv Hoff Hn cl tick_type. unfold Strategies.check_trade.
    rewrite Hv, Hoff. cbn [negb].
    now rewrite (proj2 (breakout_signal_short self min_volume) Hn).
  - intros cl price size ts self' eff Hrun.
    destruct (CandleHistory.returned_last _ _ _ _ _ _ _ _ Hrun) as [lc Hlast].
    pose proof (CandleHistory.last_split _ _ Hlast) as Hcs.
    destruct (CandleHistory.candles_after _ _ _ _ _ _ _ _ _ Hlast Hrun)
      as [(_ & Hr & _)|(_ & _ & Hc)]; [discriminate|].
    cbn zeta in Hc.
    assert (Hn : 2 <= List.length (candles self')).
    { rewrite Hc, Hcs, !length_app. cbn [List.length]. lia. }
    destruct (breakout_check_signal self' min_volume) as [z|e] eqn:E; [eauto|].
    exfalso.
    assert (e = IndexError) as ->.
    { unfold breakout_check_signal in E.
      destruct (Py.last (candles self')) as [c1|e1] eqn:E1; cbn [bind] in E.
      - destruct (Py.last2 (candles self')) as [c2|e2] eqn:E2; cbn [bind] in E.
        + destruct (_ && _); [discriminate|]. destruct (_ && _); discriminate.
        + unfold Py.last2 in E2. destruct (rev (candles self')) as [|x [|y r]]; congruence.
      - unfold Py.last in E1. destruct (rev (candles self')); congruence. }
    apply breakout_signal_short in E. lia.
Qed.

End Indicators.

(** A funded spot account on an exchange that fills every order at once,
    and a session on it. *)
Definition spot_funded : Client :=
  BinanceSpotClient (Some [mkSpotAsset "USDT" 1000 0; mkSpotAsset "BTC" 5 0])
                    ExitOnTick.filling.

Definition spot_session : list Call :=
  [CallParseTrades spot_funded 100 1 60000; CallCheckTrade spot_funded new_candle;
   CallParseTrades spot_funded 200 1 60001; CallCheckTrade spot_funded same_candle].

Lemma spot_never_shorts_witness :
  Forall (fun t => side t = long) (trades (run no_rsi no_macd fresh spot_session)) /\
  List.length (trades (run no_rsi no_macd fresh spot_session)) = 2.
Proof.
  split; [|reflexivity].
  apply (spot_never_shorts no_rsi no_macd demo_contract "Binance" tf_1m 10
           (Some 5%Q) (Some 5%Q) (Breakout 0) [mkCandle 0 10 12 9 11 4] spot_session).
  repeat constructor.
Defined.

(** The strategy after the first tick of the session, and its check. *)
Definition ticked_once : Strategy :=
  after no_rsi no_macd fresh (CallParseTrades funded 100 1 60000).

Definition checked_once : Strategy * list Effect :=
  match check_trade no_rsi no_macd funded ticked_once new_candle with
  | Ok p => p
  | Raise _ => (ticked_once, [])
  end.

Lemma check_trade_orders_witness :
  count_orders (snd checked_once) <= 1 /\
  count_timers (snd checked_once) <= count_orders (snd checked_once) /\
  (ongoing_position ticked_once = true ->
   snd checked_once = [] /\ fst checked_once = ticked_once) /\
  (forall a b c d, variant ticked_once = Technical a b c d -> new_candle <> new_candle ->
     snd checked_once = [] /\ fst checked_once = ticked_once) /\
  List.length (trades (fst checked_once))
    <= List.length (trades ticked_once) + count_orders (snd checked_once).
Proof.
  apply (check_trade_orders no_rsi no_macd funded ticked_once new_candle
           (fst checked_once) (snd checked_once)).
  vm_compute. reflexivity.
Defined.

(** The tick at 200 in the bucket of the entry at 100. *)
Definition exited_once : Strategy * ParseResult * list Effect :=
  match parse_trades funded (fst checked_once) 200 1 60001 with
  | Ok p => p
  | Raise _ => (fst checked_once, ret_None, [])
  end.

Lemma tick_sends_at_most_one_exit_witness :
  let self := run no_rsi no_macd fresh
                  [CallParseTrades funded 100 1 60000; CallCheckTrade funded new_candle] in
  count_orders (snd exited_once) <= 1 /\ count_timers (snd exited_once) = 0 /\
  (ongoing_position self = false -> snd exited_once = []) /\
  (snd (fst exited_once) <> same_candle -> snd exited_once = []) /\
  (forall e, In e (snd exited_once) ->
     exists u, In u (trades self) /\ is_open u = true /\ has_entry u = true /\
               e = PlaceOrder (exit_order funded (contract self) u)).
Proof.
  apply (tick_sends_at_most_one_exit no_rsi no_macd demo_contract "Binance" tf_1m 10
           (Some 5%Q) (Some 5%Q) (Breakout 0) [mkCandle 0 10 12 9 11 4]
           [CallParseTrades funded 100 1 60000; CallCheckTrade funded new_candle]
           funded 200 1 60001 (fst (fst exited_once)) (snd (fst exited_once))
           (snd exited_once)).
  vm_compute. reflexivity.
Defined.

Lemma candles_stay_sane_witness :
  Forall CandleHistory.sane (candles (run no_rsi no_macd fresh session)) /\
  List.length (candles fresh) <= List.length (candles (run no_rsi no_macd fresh session)).
Proof.
  apply (candles_stay_sane no_rsi no_macd fresh session).
  constructor; [|constructor]. unfold CandleHistory.sane. cbn. repeat split; discriminate.
Defined.

Lemma breakout_rule_on_live_history_witness :
  exists older c2 c1,
    candles (run no_rsi no_macd ticked_once session) = older ++ [c2; c1] /\
    BreakoutSignal.signal_rule (run no_rsi no_macd ticked_once session) 0 c2 c1.
Proof.
  apply (breakout_rule_on_live_history no_rsi no_macd ticked_once session 0).
  - vm_compute. repeat constructor; discriminate.
  - vm_compute. repeat constructor.
Defined.

Lemma breakout_check_needs_two_candles_witness :
  check_trade no_rsi no_macd funded fresh same_candle = Raise IndexError /\
  exists z, breakout_check_signal ticked_once 0 = Ok z.
Proof.
  destruct (breakout_check_needs_two_candles no_rsi no_macd fresh 0) as (_ & H1 & H2).
  split.
  - apply H1; [reflexivity | reflexivity | vm_compute; reflexivity].
  - apply (H2 funded 100%Q 1%Q 60000%Z ticked_once []). vm_compute. reflexivity.
Defined.

End TradeLedger.

(* ================================================================== *)
(** * The strategies of a client under the websocket updates *)
(* ================================================================== *)

Module ClientEvents.

Import CandleAggregator TradeLedger PositionLifecycle.

Local Open Scope nat_scope.

(** A strategy as [_switch_strategy] registers it: newly created, with
    its historical candles. *)
Definition started (s : Strategy) : Prop :=
  exists c exch t pct tp sl v cs, s = set_candles (Strategies.init c exch t pct tp sl v) cs.

Lemma started_mirrored s : started s -> mirrored s.
Proof.
  intros (c & exch & t & pct & tp & sl & v & cs & ->).
  repeat split; cbn; intros; try lia; discriminate.
Qed.

(** Two lists of strategies with the same keys and the same contracts,
    in the same order. *)
Definition same_book (l l' : list (Z * Strategy)) : Prop :=
  Forall2 (fun kv kv' => fst kv' = fst kv /\ contract (snd kv') = contract (snd kv)) l l'.

Lemma same_book_refl l : same_book l l.
Proof. induction l; constructor; auto. Qed.

Lemma same_book_trans l1 l2 l3 : same_book l1 l2 -> same_book l2 l3 -> same_book l1 l3.
Proof.
  intros H12. revert l3. induction H12 as [|a b l1 l2 [H1 H2] _ IH]; intros l3 H23;
    inversion H23 as [|b' c l2' l3' [H3 H4] Hrest]; subst; constructor.
  - split; congruence.
  - now apply IH.
Qed.

Lemma parse_trades_contract cl self price size ts self' r eff :
  parse_trades cl self price size ts = Ok (self', r, eff) -> contract self' = contract self.
Proof.
  intros Hrun.
  destruct (Py.last (candles self)) as [lc|e] eqn:Hlast.
  2:{ unfold parse_trades in Hrun. rewrite Hlast in Hrun. discriminate. }
  destruct (Z_lt_le_dec ts (timestamp lc + tf_equiv self)) as [Hlt|Hge].
  - destruct (ParseTrades.same_candle_branch cl self price size ts lc Hlast Hlt)
      as (s1 & Hrun1 & _ & _ & _ & Hc & _).
    rewrite Hrun1 in Hrun. now injection Hrun as <- _ _.
  - destruct (ParseTrades.new_candle_branch cl self price size ts lc Hlast Hge)
      as (cs & Hrun1 & _).
    rewrite Hrun1 in Hrun. now injection Hrun as <- _ _.
Qed.

Lemma update_pnl_status b a t : status (Binance.update_pnl b a t) = status t.
Proof.
  unfold Binance.update_pnl. destruct (is_open t && has_entry t); [|reflexivity].
  destruct (entry_price t); [|reflexivity]. now destruct (side t).
Qed.

Lemma count_open_update_pnl b a ts :
  count_open (map (Binance.update_pnl b a) ts) = count_open ts.
Proof.
  unfold count_open. induction ts as [|t ts IH]; cbn [map filter]; [reflexivity|].
  replace (is_open (Binance.update_pnl b a t)) with (is_open t)
    by (unfold is_open; now rewrite update_pnl_status).
  destruct (is_open t); cbn [List.length]; now rewrite ?IH.
Qed.

Section Indicators.

Variable pandas_rsi : Z -> list Q -> result Q.
Variable pandas_macd : Z -> Z -> Z -> list Q -> result (Q * Q).

Local Abbreviation check_trade := (check_trade pandas_rsi pandas_macd).
Local Abbreviation on_aggTrade := (Dispatch.on_aggTrade pandas_rsi pandas_macd).
Local Abbreviation on_trade := (Dispatch.on_trade pandas_rsi pandas_macd).
Local Abbreviation step := (Dispatch.step pandas_rsi pandas_macd).
Local Abbreviation steps := (Dispatch.steps pandas_rsi pandas_macd).

Lemma check_trade_contract cl self tick_type self' eff :
  check_trade cl self tick_type = Ok (self', eff) -> contract self' = contract self.
Proof.
  intros Hrun.
  destruct (check_trade_cases _ _ _ _ _ _ _ Hrun) as [[-> _]|(z & _ & _ & _ & Hop)];
    [reflexivity|].
  unfold _open_position in Hop.
  destruct (_ && _); [now injection Hop as <- _|].
  destruct (Py.last (candles self)); [|discriminate]. cbn [bind] in Hop.
  destruct (get_trade_size _ _ _ _) as [[size|]|]; cbn [bind] in Hop;
    [|now injection Hop as <- _|discriminate].
  destruct (place_order _ _ _ _ _) as [os|].
  - destruct (String.eqb (os_status os) "filled"); now injection Hop as <- _.
  - now injection Hop as <- _.
Qed.

(** The strategies after the loop, whether it ended or raised. *)
Lemma on_aggTrade_book seen sym p q T l :
  same_book l (fst (fst (on_aggTrade seen l sym p q T))) /\
  (Forall (fun kv => mirrored (snd kv)) l ->
   Forall (fun kv => mirrored (snd kv)) (fst (fst (on_aggTrade seen l sym p q T)))).
Proof.
  induction l as [|[key strat] l [IH1 IH2]]; cbn [Dispatch.on_aggTrade].
  { split; [constructor|auto]. }
  destruct (String.eqb (symbol (contract strat)) sym).
  - destruct (parse_trades (fst (seen key)) strat p q T) as [[[s1 res] eff1]|e] eqn:E1.
    2:{ cbn [fst]. split; [apply same_book_refl|auto]. }
    pose proof (parse_trades_contract _ _ _ _ _ _ _ _ E1) as Hc1.
    destruct (Strategies.check_trade _ _ (snd (seen key)) s1 res) as [[s2 eff2]|e] eqn:E2.
    + pose proof (check_trade_contract _ _ _ _ _ E2) as Hc2.
      destruct (on_aggTrade seen l sym p q T) as [[rest eff] e]. cbn [fst] in *.
      split.
      * constructor; [cbn; split; congruence|exact IH1].
      * intros H. inversion H as [|? ? Hm Hl]; subst. constructor; [|auto].
        cbn [snd] in *. eapply check_trade_mirrored; [|exact E2].
        eapply parse_trades_mirrored; eauto.
    + cbn [fst]. split.
      * constructor; [cbn; split; congruence|apply same_book_refl].
      * intros H. inversion H as [|? ? Hm Hl]; subst. constructor; [|exact Hl].
        cbn [snd] in *. eapply parse_trades_mirrored; eauto.
  - destruct (on_aggTrade seen l sym p q T) as [[rest eff] e]. cbn [fst] in *.
    split.
    + constructor; [cbn; split; reflexivity|exact IH1].
    + intros H. inversion H; subst. constructor; auto.
Qed.

Lemma step_book st ev :
  same_book (Binance.strategies st) (Binance.strategies (step st ev)) /\
  (Forall (fun kv => mirrored (snd kv)) (Binance.strategies st) ->
   Forall (fun kv => mirrored (snd kv)) (Binance.strategies (step st ev))).
Proof.
  destruct ev as [sym b a|seen sym p q T|cl key oid]; cbn [Dispatch.step].
  - rewrite Pnl.binance_strategies.
    induction (Binance.strategies st) as [|[k strat] l [IH1 IH2]]; cbn [map].
    { split; [constructor|auto]. }
    cbn [fst snd]. split.
    + constructor; [|exact IH1]. destruct (String.eqb _ _); cbn; split; reflexivity.
    + intros H. inversion H as [|? ? Hm Hl]; subst. constructor; [|auto].
      destruct (String.eqb _ _); [|exact Hm]. cbn [snd] in *.
      destruct Hm as [[Hle Hoff] Hon].
      unfold mirrored, covered. cbn [trades set_trades ongoing_position].
      rewrite count_open_update_pnl. repeat split; assumption.
  - cbn [Binance.strategies Binance.set_strategies]. apply on_aggTrade_book.
  - cbn [Binance.strategies Binance.set_strategies].
    induction (Binance.strategies st) as [|[k strat] l [IH1 IH2]]; cbn [map].
    { split; [constructor|auto]. }
    cbn [fst snd]. split.
    + constructor; [|exact IH1]. destruct (k =? key)%Z; cbn; split; try reflexivity.
      unfold _check_order_status.
      destruct (get_order_status cl (contract strat) oid) as [os|]; [|reflexivity].
      now destruct (String.eqb (os_status os) "filled").
    + intros H. inversion H as [|? ? Hm Hl]; subst. constructor; [|auto].
      destruct (k =? key)%Z; [|exact Hm]. cbn [snd] in *.
      apply (after_mirrored pandas_rsi pandas_macd strat (CallCheckOrderStatus cl oid) Hm).
Qed.

Lemma steps_book evs : forall st,
  same_book (Binance.strategies st) (Binance.strategies (steps st evs)) /\
  (Forall (fun kv => mirrored (snd kv)) (Binance.strategies st) ->
   Forall (fun kv => mirrored (snd kv)) (Binance.strategies (steps st evs))).
Proof.
  induction evs as [|ev evs IH]; intros st; cbn [Dispatch.steps fold_left].
  { split; [apply same_book_refl|auto]. }
  destruct (step_book st ev) as [H1 H2]. destruct (IH (step st ev)) as [H3 H4].
  split; [eapply same_book_trans; eauto|auto].
Qed.

(** X16.  One open trade per strategy, for the whole client: whatever
    book ticker updates, trade updates and order polls reach a Binance
    client whose strategies were all newly registered, every strategy
    keeps its key and its contract, has at most one open trade, and has
    its flag up exactly when it has one; an exception raised in the trade
    branch does not break this. *)
Theorem one_open_trade_per_strategy st evs :
  Forall (fun kv => started (snd kv)) (Binance.strategies st) ->
  let st' := steps st evs in
  Forall2 (fun kv kv' => fst kv' = fst kv /\ contract (snd kv') = contract (snd kv))
          (Binance.strategies st) (Binance.strategies st') /\
  Forall (fun kv => count_open (trades (snd kv)) <= 1 /\
                    (ongoing_position (snd kv) = true <-> count_open (trades (snd kv)) = 1))
         (Binance.strategies st').
Proof.
  intros Hs st'. destruct (steps_book evs st) as [H1 H2]. split; [exact H1|].
  assert (Hm : Forall (fun kv => mirrored (snd kv)) (Binance.strategies st)).
  { eapply Forall_impl; [|exact Hs]. intros kv. apply started_mirrored. }
  specialize (H2 Hm). eapply Forall_impl; [|exact H2].
  intros kv [[Hle Hoff] Hon]. split; [exact Hle|]. split; [exact Hon|].
  intros H1o. destruct (ongoing_position (snd kv)); [reflexivity|].
  specialize (Hoff eq_refl). lia.
Qed.


(** X19.  A Bitmex trade message: whatever entries it carries, and
    whether or not the handler raises on the way, every strategy keeps
    its key and contract, and strategies whose flag mirrors their one
    open trade still have it so afterwards. *)
Theorem trade_message_keeps_the_book seen data : forall n l,
  Forall (fun kv => mirrored (snd kv)) l ->
  let l' := fst (fst (on_trade seen n l data)) in
  Forall2 (fun kv kv' => fst kv' = fst kv /\ contract (snd kv') = contract (snd kv)) l l' /\
  Forall (fun kv => mirrored (snd kv)) l'.
Proof.
  induction data as [|d data IH]; intros n l Hm; cbn [Dispatch.on_trade].
  { cbn [fst]. split; [apply same_book_refl|exact Hm]. }
  destruct (on_aggTrade_book (seen n) (Dispatch.d_symbol d) (Dispatch.d_price d)
              (Dispatch.d_size d) (Dispatch.d_ts d) l) as [H1 H2].
  specialize (H2 Hm).
  destruct (on_aggTrade (seen n) l _ _ _ _) as [[l1 eff1] [e|]]; cbn [fst] in *.
  { split; assumption. }
  destruct (IH (S n) l1 H2) as [H3 H4].
  destruct (on_trade seen (S n) l1 data) as [[l2 eff2] e2]; cbn [fst] in *.
  split; [eapply same_book_trans; eauto|exact H4].
Qed.

End Indicators.

Lemma dict_get_set_other {V} (d : dict V) k k' v :
  k' <> k -> dict_get (dict_set d k v) k' = dict_get d k'.
Proof.
  intros Hne. induction d as [|[k0 v0] d IH]; cbn [dict_set dict_get].
  - destruct (String.eqb_spec k k'); [congruence|reflexivity].
  - destruct (String.eqb_spec k0 k) as [->|Hk]; cbn [dict_get].
    + destruct (String.eqb_spec k k'); [congruence|reflexivity].
    + destruct (String.eqb k0 k'); [reflexivity|exact IH].
Qed.

(** A trade before and after a PnL update: nothing but the PnL differs,
    and not even that unless the trade is open with an entry price. *)
Definition pnl_only (t t' : Trade) : Prop :=
  set_pnl t (pnl t') = t' /\ (is_open t && has_entry t = false -> t' = t).

Lemma update_pnl_repriced b a t : pnl_only t (Binance.update_pnl b a t).
Proof.
  unfold pnl_only, Binance.update_pnl. destruct (is_open t && has_entry t).
  - split; [|discriminate]. destruct (entry_price t); [|now destruct t].
    now destruct (side t).
  - split; [now destruct t|reflexivity].
Qed.

(** X18.  A book ticker update touches prices and PnL only: the cache
    then holds the new bid and ask for the symbol and what it held for
    every other symbol; strategies on other symbols are left as they
    were; on the symbol's strategies nothing changes but the PnL of the
    trades that are open with an entry price, so no status, quantity,
    entry price or flag; subscriptions and message ids are untouched. *)
Theorem book_ticker_touches_only_pnl st sym b a :
  let st' := Binance.on_bookTicker st sym b a in
  dict_get (Binance.prices st') sym = Some (b, a) /\
  (forall other, other <> sym ->
     dict_get (Binance.prices st') other = dict_get (Binance.prices st) other) /\
  Forall2 (fun kv kv' =>
             fst kv' = fst kv /\
             (symbol (contract (snd kv)) <> sym -> snd kv' = snd kv) /\
             set_trades (snd kv) (trades (snd kv')) = snd kv' /\
             Forall2 pnl_only (trades (snd kv)) (trades (snd kv')))
          (Binance.strategies st) (Binance.strategies st') /\
  Binance.ws_sent st' = Binance.ws_sent st /\
  Binance._ws_id st' = Binance._ws_id st /\
  (forall ch, Binance.ws_subscriptions st' ch = Binance.ws_subscriptions st ch).
Proof.
  intros st'. subst st'. split; [|split; [|split]].
  - unfold Binance.on_bookTicker. cbn [Binance.prices Binance.set_prices].
    rewrite dict_get_set_same. cbn [Binance.prices Binance.set_strategies Binance.set_prices].
    apply dict_get_set_same.
  - intros other Hne. unfold Binance.on_bookTicker. cbn [Binance.prices Binance.set_prices].
    rewrite dict_get_set_same. cbn [Binance.prices Binance.set_strategies Binance.set_prices].
    now apply dict_get_set_other.
  - rewrite Pnl.binance_strategies.
    induction (Binance.strategies st) as [|[k strat] l IH]; cbn [map]; constructor;
      [|exact IH].
    cbn [fst snd]. destruct (String.eqb_spec (symbol (contract strat)) sym) as [He|Hne];
      cbn [fst snd].
    + split; [reflexivity|]. split; [congruence|]. split; [reflexivity|].
      cbn [trades set_trades]. apply Forall2_map_on, update_pnl_repriced.
    + split; [reflexivity|]. split; [reflexivity|]. split; [now destruct strat|].
      apply Forall2_refl_on. intros t. split; [now destruct t|reflexivity].
  - unfold Binance.on_bookTicker. cbn [Binance.prices Binance.set_prices].
    rewrite dict_get_set_same. repeat split.
Qed.

Lemma book_ticker_touches_only_pnl_witness :
  dict_get (Binance.prices
              (Binance.on_bookTicker (Binance.init [demo_contract]) "BTCUSDT" 105 106))
           "BTCUSDT" = Some (105%Q, 106%Q) /\
  dict_get (Binance.prices
              (Binance.on_bookTicker (Binance.init [demo_contract]) "BTCUSDT" 105 106))
           "ETHUSDT" = None.
Proof.
  destruct (book_ticker_touches_only_pnl (Binance.init [demo_contract]) "BTCUSDT" 105 106)
    as (H1 & H2 & _).
  split; [exact H1|]. rewrite H2; [reflexivity|discriminate].
Defined.

(** A client with one breakout strategy on BTCUSDT, and what reaches it. *)
Definition one_strategy : Binance.State :=
  Binance.set_strategies (Binance.init [demo_contract]) [(0%Z, fresh)].

Definition busy : list Dispatch.Event :=
  [Dispatch.AggTrade (fun _ => (funded, funded)) "BTCUSDT" 100 1 60000;
   Dispatch.BookTicker "BTCUSDT" 105 106;
   Dispatch.AggTrade (fun _ => (funded, funded)) "BTCUSDT" 200 1 60001;
   Dispatch.Timer funded 0 (IntId 7)].

Lemma one_open_trade_per_strategy_witness :
  let st' := Dispatch.steps no_rsi no_macd one_strategy busy in
  Forall2 (fun kv kv' => fst kv' = fst kv /\ contract (snd kv') = contract (snd kv))
          (Binance.strategies one_strategy) (Binance.strategies st') /\
  Forall (fun kv => count_open (trades (snd kv)) <= 1 /\
                    (ongoing_position (snd kv) = true <-> count_open (trades (snd kv)) = 1))
         (Binance.strategies st').
Proof.
  apply (one_open_trade_per_strategy no_rsi no_macd one_strategy busy).
  constructor; [|constructor]. unfold started, fresh. cbn [snd]. repeat eexists.
Defined.



Lemma trade_message_keeps_the_book_witness :
  let l' := fst (fst (Dispatch.on_trade no_rsi no_macd (fun _ _ => (funded, funded)) 0
                        [(1%Z, fresh)]
                        [Dispatch.mkTradeUpdate "BTCUSDT" 100 1 60000;
                         Dispatch.mkTradeUpdate "BTCUSDT" 200 1 60001])) in
  Forall2 (fun kv kv' => fst kv' = fst kv /\ contract (snd kv') = contract (snd kv))
          [(1%Z, fresh)] l' /\
  Forall (fun kv => mirrored (snd kv)) l'.
Proof.
  apply (trade_message_keeps_the_book no_rsi no_macd (fun _ _ => (funded, funded))
           [Dispatch.mkTradeUpdate "BTCUSDT" 100 1 60000;
            Dispatch.mkTradeUpdate "BTCUSDT" 200 1 60001] 0 [(1%Z, fresh)]).
  constructor; [|constructor]. apply started_mirrored. unfold started, fresh. repeat eexists.
Defined.

End ClientEvents.

(* ================================================================== *)
(** * The ids of the subscribe messages *)
(* ================================================================== *)

Module SubscribeIds.

Import Binance.

Local Open Scope nat_scope.

(** The messages handed to [ws.send] so far are numbered 1, 2, ... in
    order, the next id is the one after the last, and no message is
    without a parameter. *)
Definition numbered (st : State) : Prop :=
  map sub_id (ws_sent st) = map Z.of_nat (seq 1 (List.length (ws_sent st))) /\
  _ws_id st = Z.of_nat (S (List.length (ws_sent st))) /\
  Forall (fun m => sub_params m <> []) (ws_sent st).

Lemma numbered_send st params : params <> [] -> numbered st -> numbered (send st params).
Proof.
  intros Hp (Hids & Hnext & Hpar). unfold numbered, send. cbn [ws_sent _ws_id].
  rewrite length_app, map_app, Hids. cbn [List.length map sub_id].
  replace (List.length (ws_sent st) + 1) with (S (List.length (ws_sent st))) by lia.
  rewrite seq_S, map_app. cbn [map]. split; [|split].
  - f_equal. f_equal. rewrite Hnext. f_equal.
  - rewrite Hnext. lia.
  - apply Forall_app. split; [exact Hpar|]. constructor; [exact Hp|constructor].
Qed.

Lemma subscribe_loop_sent ch reconnection cs : forall st params,
  ws_sent (fst (subscribe_loop st cs ch reconnection params)) = ws_sent st /\
  _ws_id (fst (subscribe_loop st cs ch reconnection params)) = _ws_id st.
Proof.
  induction cs as [|c cs IH]; intros st params; cbn [subscribe_loop]; [now split|].
  destruct (negb (str_in (symbol c) (ws_subscriptions st ch))) eqn:E; cbn [orb].
  - destruct (IH (record_symbol st ch (symbol c)) (params ++ [topic (symbol c) ch]))
      as [H1 H2].
    rewrite H1, H2. now destruct ch.
  - destruct reconnection; apply IH.
Qed.

Lemma numbered_subscribe st cs ch reconnection :
  numbered st -> numbered (subscribe_channel st cs ch reconnection).
Proof.
  intros Hn. unfold subscribe_channel. destruct cs as [|c cs].
  - apply numbered_send; [discriminate|exact Hn].
  - destruct (subscribe_loop_sent ch reconnection (c :: cs) st []) as [H1 H2].
    destruct (subscribe_loop st (c :: cs) ch reconnection []) as [st1 params].
    cbn [fst] in *.
    assert (Hn1 : numbered st1).
    { destruct Hn as (Ha & Hb & Hc). unfold numbered. now rewrite H1, H2. }
    destruct params as [|x params]; [exact Hn1|].
    apply numbered_send; [discriminate|exact Hn1].
Qed.

Lemma numbered_resubscribe ch symbols : forall st,
  numbered st -> numbered (fst (resubscribe st symbols ch)).
Proof.
  induction symbols as [|sym symbols IH]; intros st Hn; cbn [resubscribe]; [exact Hn|].
  destruct (contracts_get st sym) as [c|e]; [|exact Hn].
  apply IH. now apply numbered_subscribe.
Qed.

Lemma numbered_on_open st : numbered st -> numbered (fst (_on_open st)).
Proof.
  intros Hn. unfold _on_open.
  set (st1 := set_ws_connected st true).
  assert (Hn1 : numbered st1) by exact Hn.
  pose proof (numbered_resubscribe bookTicker (subs_bookTicker st1) st1 Hn1) as H2.
  destruct (resubscribe st1 (subs_bookTicker st1) bookTicker) as [st2 [e|]];
    cbn [fst] in *; [exact H2|].
  pose proof (numbered_resubscribe aggTrade (subs_aggTrade st2) st2 H2) as H3.
  destruct (resubscribe st2 (subs_aggTrade st2) aggTrade) as [st3 [e|]];
    cbn [fst] in *; [exact H3|].
  destruct (negb (str_in "BTCUSDT" (subs_bookTicker st3))); [|exact H3].
  destruct (contracts_get st3 "BTCUSDT") as [c|e]; cbn [fst]; [|exact H3].
  now apply numbered_subscribe.
Qed.

Lemma reachable_numbered st : reachable st -> numbered st.
Proof.
  induction 1 as [cs|st cs ch r _ IH Hcs|st _ IH|st _ IH|st p _ IH|st l _ IH].
  - repeat split. constructor.
  - now apply numbered_subscribe.
  - now apply numbered_on_open.
  - exact IH.
  - exact IH.
  - exact IH.
Qed.

(** X20.  Subscribe messages are numbered: on every object the program
    reaches, the messages handed to [ws.send] carry the ids 1, 2, 3, ...
    in the order they were sent, so no two share an id, the next id is
    one more than their number, and none has an empty parameter list. *)
Theorem subscribe_ids_count_up st :
  reachable st ->
  map sub_id (ws_sent st) = map Z.of_nat (seq 1 (List.length (ws_sent st))) /\
  NoDup (map sub_id (ws_sent st)) /\
  _ws_id st = Z.of_nat (List.length (ws_sent st) + 1) /\
  Forall (fun m => sub_params m <> []) (ws_sent st).
Proof.
  intros Hr. destruct (reachable_numbered st Hr) as (Hids & Hnext & Hpar).
  split; [exact Hids|]. split; [|split; [rewrite Hnext; f_equal; lia|exact Hpar]].
  rewrite Hids. generalize (seq_NoDup (List.length (ws_sent st)) 1).
  generalize (seq 1 (List.length (ws_sent st))).
  induction 1 as [|x l Hx _ IH]; cbn [map]; constructor; [|exact IH].
  intros Hin. apply in_map_iff in Hin. destruct Hin as (y & Hy & Hin).
  apply Nat2Z.inj in Hy. congruence.
Qed.

Lemma subscribe_ids_count_up_witness :
  map sub_id (ws_sent Subscriptions.watching)
    = map Z.of_nat (seq 1 (List.length (ws_sent Subscriptions.watching))) /\
  NoDup (map sub_id (ws_sent Subscriptions.watching)) /\
  _ws_id Subscriptions.watching
    = Z.of_nat (List.length (ws_sent Subscriptions.watching) + 1) /\
  Forall (fun m => sub_params m <> []) (ws_sent Subscriptions.watching).
Proof.
  apply (subscribe_ids_count_up Subscriptions.watching).
  exact Subscriptions.watching_reachable.
Defined.

End SubscribeIds.

(* ================================================================== *)
(** * Order quantities, prices and the execution price on Binance *)
(* ================================================================== *)

Module ExecutionPrice.

Import BinanceRest Sizing.

Local Open Scope Q_scope.

(** The trades of an order, their total quantity and their total cost. *)
Definition fills (trades : list MyTrade) (order_id : Z) : list MyTrade :=
  filter (fun t => (mt_orderId t =? order_id)%Z) trades.

Fixpoint total_qty (l : list MyTrade) : Q :=
  match l with
  | [] => 0
  | t :: rest => mt_qty t + total_qty rest
  end.

Fixpoint total_cost (l : list MyTrade) : Q :=
  match l with
  | [] => 0
  | t :: rest => mt_price t * mt_qty t + total_cost rest
  end.

Lemma executed_qty_fold trades order_id : forall acc,
  fold_left (fun executed_qty t =>
               if (mt_orderId t =? order_id)%Z then executed_qty + mt_qty t
               else executed_qty) trades acc
  == acc + total_qty (fills trades order_id).
Proof.
  induction trades as [|t trades IH]; intros acc; cbn [fold_left fills filter total_qty].
  - ring.
  - rewrite IH. fold (fills trades order_id).
    destruct (mt_orderId t =? order_id)%Z; cbn [total_qty]; ring.
Qed.

Lemma executed_qty_total trades order_id :
  executed_qty_of trades order_id == total_qty (fills trades order_id).
Proof. unfold executed_qty_of. rewrite executed_qty_fold. ring. Qed.

Lemma truediv_ok x y : ~ y == 0 -> truediv x y = Ok (x / y).
Proof. apply PyFacts.truediv_nonzero. Qed.

Lemma truediv_zero x y : y == 0 -> truediv x y = Raise ZeroDivisionError.
Proof.
  intros H. unfold truediv. now rewrite (proj2 (Qeq_bool_iff y 0) H).
Qed.

Lemma weighted_sum_ok trades order_id E : ~ E == 0 -> forall acc,
  exists v, weighted_sum trades order_id E acc = Ok v /\
            v * E == acc * E + total_cost (fills trades order_id).
Proof.
  intros HE. induction trades as [|t trades IH]; intros acc;
    cbn [weighted_sum fills filter total_cost].
  - exists acc. split; [reflexivity|ring].
  - fold (fills trades order_id). destruct (mt_orderId t =? order_id)%Z.
    + rewrite truediv_ok by exact HE. cbn [bind].
      destruct (IH (acc + mt_price t * (mt_qty t / E))) as (v & Hv & Heq).
      exists v. split; [exact Hv|]. rewrite Heq. cbn [total_cost]. field. exact HE.
    + apply IH.
Qed.

Lemma weighted_sum_none trades order_id E acc :
  fills trades order_id = [] -> weighted_sum trades order_id E acc = Ok acc.
Proof.
  induction trades as [|t trades IH]; cbn [weighted_sum fills filter]; [reflexivity|].
  fold (fills trades order_id). destruct (mt_orderId t =? order_id)%Z; [discriminate|exact IH].
Qed.

Lemma weighted_sum_zero trades order_id E : E == 0 -> forall acc,
  fills trades order_id <> [] ->
  weighted_sum trades order_id E acc = Raise ZeroDivisionError.
Proof.
  intros HE. induction trades as [|t trades IH]; intros acc;
    cbn [weighted_sum fills filter]; [congruence|].
  fold (fills trades order_id). destruct (mt_orderId t =? order_id)%Z.
  - intros _. now rewrite truediv_zero.
  - apply IH.
Qed.

Lemma cost_between lo hi l :
  Forall (fun t => 0 < mt_qty t /\ lo <= mt_price t <= hi) l ->
  lo * total_qty l <= total_cost l <= hi * total_qty l /\ 0 <= total_qty l.
Proof.
  induction 1 as [|t l (Hq & Hlo & Hhi) _ (IH & IHq)]; cbn [total_qty total_cost].
  - split; [split|]; lra.
  - split; [split|]; nra.
Qed.

Lemma total_qty_pos l :
  l <> [] -> Forall (fun t => 0 < mt_qty t) l -> 0 < total_qty l.
Proof.
  intros Hne H. destruct H as [|t l Ht Hl]; [congruence|]. cbn [total_qty].
  assert (0 <= total_qty l); [|lra].
  clear Hne Ht. induction Hl; cbn [total_qty]; lra.
Qed.

Lemma to_tick_near contract x :
  0 < Models.tick_size contract ->
  exists n : Z,
    to_tick contract x = Ok (round_to (inject_Z n * Models.tick_size contract) 8) /\
    - (Models.tick_size contract / 2) <= inject_Z n * Models.tick_size contract - x
      <= Models.tick_size contract / 2.
Proof.
  intros Ht. unfold to_tick. rewrite truediv_ok by lra. cbn [bind].
  exists (Py.round (x / Models.tick_size contract)). split; [reflexivity|].
  pose proof (round_near (x / Models.tick_size contract)) as [Hlo Hhi].
  set (n := inject_Z (Py.round (x / Models.tick_size contract))) in *.
  set (y := x / Models.tick_size contract) in *.
  assert (Hy : x == y * Models.tick_size contract) by (unfold y; field; lra).
  assert (Hh : Models.tick_size contract / 2 == (1 # 2) * Models.tick_size contract) by field.
  rewrite Hy, Hh. split; nra.
Qed.

Lemma round_to_zero x n : x == 0 -> round_to x n == 0.
Proof.
  intros Hx. unfold round_to. rewrite (round_integer _ 0).
  - unfold Qdiv. ring.
  - rewrite Hx. ring.
Qed.

Lemma to_tick_zero contract x :
  ~ Models.tick_size contract == 0 -> x == 0 ->
  exists v, to_tick contract x = Ok v /\ v == 0.
Proof.
  intros Ht Hx. unfold to_tick. rewrite truediv_ok by exact Ht. cbn [bind].
  eexists. split; [reflexivity|]. apply round_to_zero.
  rewrite (round_integer _ 0); [ring|]. rewrite Hx. field. exact Ht.
Qed.

(** X21.  The execution price is the volume-weighted mean of the
    order's fills, moved to the tick grid: when the order has fills, all
    of positive quantity, the mean [avg] computed by the two loops equals
    total cost over total quantity, lies between the lowest and the
    highest fill price, and the result is the multiple of the tick size
    nearest to it (at most half a tick away), rounded to 8 decimals. *)
Theorem execution_price_is_weighted_mean trades contract order_id lo hi :
  0 < Models.tick_size contract ->
  fills trades order_id <> [] ->
  Forall (fun t => 0 < mt_qty t /\ lo <= mt_price t <= hi) (fills trades order_id) ->
  exists (avg : Q) (n : Z),
    avg * total_qty (fills trades order_id) == total_cost (fills trades order_id) /\
    lo <= avg <= hi /\
    _get_execution_price (Some trades) contract order_id
      = Ok (round_to (inject_Z n * Models.tick_size contract) 8) /\
    - (Models.tick_size contract / 2) <= inject_Z n * Models.tick_size contract - avg
      <= Models.tick_size contract / 2.
Proof.
  intros Htick Hne Hall.
  assert (Hpos : 0 < total_qty (fills trades order_id)).
  { apply total_qty_pos; [exact Hne|]. eapply Forall_impl; [|exact Hall]. now intros t [H _]. }
  pose proof (executed_qty_total trades order_id) as HE.
  assert (HE0 : ~ executed_qty_of trades order_id == 0) by (rewrite HE; lra).
  destruct (weighted_sum_ok trades order_id _ HE0 0) as (avg & Hrun & Havg).
  destruct (to_tick_near contract avg Htick) as (n & Hn & Hnear).
  exists avg, n. rewrite HE in Havg.
  assert (Hcost : avg * total_qty (fills trades order_id)
                  == total_cost (fills trades order_id)) by (rewrite Havg; ring).
  split; [exact Hcost|].
  destruct (cost_between lo hi _ Hall) as [[Hlo Hhi] _].
  split; [split; nra|].
  split; [|exact Hnear].
  unfold _get_execution_price. rewrite Hrun. cbn [bind]. exact Hn.
Qed.

(** The fills of order 7: 1 unit at 100 and 3 units at 104. *)
Definition two_fills : list MyTrade :=
  [mkMyTrade 7 1 100; mkMyTrade 8 5 90; mkMyTrade 7 3 104].

Lemma execution_price_is_weighted_mean_witness :
  exists (avg : Q) (n : Z),
    avg * total_qty (fills two_fills 7) == total_cost (fills two_fills 7) /\
    100 <= avg <= 104 /\
    _get_execution_price (Some two_fills) CandleAggregator.demo_contract 7
      = Ok (round_to (inject_Z n * Models.tick_size CandleAggregator.demo_contract) 8) /\
    - (Models.tick_size CandleAggregator.demo_contract / 2)
      <= inject_Z n * Models.tick_size CandleAggregator.demo_contract - avg
      <= Models.tick_size CandleAggregator.demo_contract / 2.
Proof.
  apply (execution_price_is_weighted_mean two_fills CandleAggregator.demo_contract 7 100 104).
  - reflexivity.
  - discriminate.
  - repeat constructor; discriminate.
Defined.

Lemma execution_price_none trades contract order_id :
  ~ Models.tick_size contract == 0 ->
  match trades with None => True | Some l => fills l order_id = [] end ->
  exists v, _get_execution_price trades contract order_id = Ok v /\ v == 0.
Proof.
  intros Ht Hnone. unfold _get_execution_price. destruct trades as [l|].
  - rewrite (weighted_sum_none l order_id _ 0 Hnone). cbn [bind].
    apply to_tick_zero; [exact Ht|reflexivity].
  - cbn [bind]. apply to_tick_zero; [exact Ht|reflexivity].
Qed.

(** X22.  The edges of the execution price: without an answer from the
    exchange, or without a fill of the order in it, the price is 0;
    with fills whose quantities sum to zero the second loop divides by
    zero; and a zero tick size raises the same whenever the loops
    return. *)
Theorem execution_price_edges trades contract order_id :
  (~ Models.tick_size contract == 0 ->
   match trades with None => True | Some l => fills l order_id = [] end ->
   exists v, _get_execution_price trades contract order_id = Ok v /\ v == 0) /\
  (forall l, trades = Some l -> fills l order_id <> [] ->
     total_qty (fills l order_id) == 0 ->
     _get_execution_price trades contract order_id = Raise ZeroDivisionError) /\
  (Models.tick_size contract == 0 ->
   _get_execution_price trades contract order_id = Raise ZeroDivisionError).
Proof.
  split; [|split].
  - apply execution_price_none.
  - intros l -> Hne Hz. unfold _get_execution_price.
    rewrite weighted_sum_zero; [reflexivity| |exact Hne].
    now rewrite executed_qty_total.
  - intros Ht. unfold _get_execution_price.
    destruct (match trades with
              | Some l => weighted_sum l order_id (executed_qty_of l order_id) 0
              | None => Ok 0
              end) as [avg|e] eqn:E.
    + cbn [bind]. unfold to_tick. now rewrite truediv_zero.
    + destruct trades as [l|]; [|discriminate]. cbn [bind].
      assert (He : e = ZeroDivisionError); [|now rewrite He].
      revert E. generalize (executed_qty_of l order_id) 0.
      induction l as [|t l IH]; intros E0 acc; cbn [weighted_sum]; [discriminate|].
      destruct (mt_orderId t =? order_id)%Z; [|apply IH].
      unfold truediv. destruct (Qeq_bool E0 0); cbn [bind]; [congruence|apply IH].
Qed.

Lemma execution_price_edges_witness :
  (exists v, _get_execution_price None CandleAggregator.demo_contract 7 = Ok v /\ v == 0) /\
  _get_execution_price (Some [mkMyTrade 7 0 100]) CandleAggregator.demo_contract 7
    = Raise ZeroDivisionError.
Proof.
  split.
  - apply (execution_price_edges None CandleAggregator.demo_contract 7);
      [discriminate|exact I].
  - destruct (execution_price_edges (Some [mkMyTrade 7 0 100])
                CandleAggregator.demo_contract 7) as (_ & H & _).
    apply (H [mkMyTrade 7 0 100]); [reflexivity|discriminate|reflexivity].
Defined.



End ExecutionPrice.

(* ================================================================== *)
(** * A spot entry whose trades cannot be fetched *)
(* ================================================================== *)

Module SpotEntry.

Import BinanceRest ExecutionPrice ExitRule TradeLedger.

Local Open Scope Q_scope.

(** A filled spot order without its trades comes back as filled at 0. *)
Lemma unpriced_fill contract info my_trades os :
  r_status info = "FILLED" ->
  ~ Models.tick_size contract == 0 ->
  match my_trades with None => True | Some l => fills l (r_orderId info) = [] end ->
  order_result false my_trades contract (Some info) = Ok (Some os) ->
  os_status os = "filled" /\ avg_price os == 0 /\ order_id os = IntId (r_orderId info).
Proof.
  intros Hst Ht Hnone Hrun. unfold order_result in Hrun. cbn [negb] in Hrun.
  rewrite Hst in Hrun. cbn [String.eqb Ascii.eqb Bool.eqb] in Hrun.
  destruct (execution_price_none my_trades contract (r_orderId info) Ht Hnone)
    as (v & Hv & Hv0).
  rewrite Hv in Hrun. cbn [bind] in Hrun.
  unfold OrderStatus_binance, set_avgPrice in Hrun. cbn in Hrun.
  injection Hrun as <-. cbn. rewrite Hst. repeat split. exact Hv0.
Qed.

(** X24.  A spot entry filled while its trades cannot be fetched is
    exited at once: the order comes back as filled with average price 0,
    the trade recorded for it has entry price 0, and with a take profit
    set the next tick of the same candle at any price that is not
    negative sends the exit order for it. *)
Theorem unpriced_spot_fill_exits_at_once
    cl0 self0 cl self info my_trades os tp price size ts lc self' r eff :
  r_status info = "FILLED" ->
  ~ Models.tick_size (contract self0) == 0 ->
  match my_trades with None => True | Some l => fills l (r_orderId info) = [] end ->
  order_result false my_trades (contract self0) (Some info) = Ok (Some os) ->
  let t := entered cl0 self0 1 os in
  In t (trades self) ->
  take_profit self = Some tp ->
  Py.last (candles self) = Ok lc ->
  (ts < timestamp lc + tf_equiv self)%Z ->
  0 <= price ->
  parse_trades cl self price size ts = Ok (self', r, eff) ->
  exists entry,
    entry_price t = Some entry /\ entry == 0 /\ side t = long /\
    In (PlaceOrder (exit_order cl (contract self) t)) eff.
Proof.
  intros Hst Htick Hnone Hres t Hin Htp Hlast Hts Hprice Hrun.
  destruct (unpriced_fill _ _ _ _ Hst Htick Hnone Hres) as (Hfilled & Hzero & _).
  exists (avg_price os). subst t. unfold entered at 1 2. cbn [entry_price side].
  rewrite Hfilled. cbn [String.eqb Ascii.eqb Bool.eqb Z.eqb Pos.eqb].
  split; [reflexivity|]. split; [exact Hzero|]. split; [reflexivity|].
  destruct (ParseTrades.same_candle_branch cl self price size ts lc Hlast Hts)
    as (s1 & Hrun1 & _).
  rewrite Hrun1 in Hrun. injection Hrun as _ _ <-.
  apply in_flat_map. exists (entered cl0 self0 1 os). split; [exact Hin|].
  unfold orders, due, entered at 1 2 3 4 5. cbn [status entry_price side].
  rewrite Hfilled. cbn [String.eqb Ascii.eqb Bool.eqb Z.eqb Pos.eqb].
  unfold tp_reached. rewrite Htp.
  replace (Qle_bool (avg_price os * (1 + tp / 100)) price) with true; [now left|].
  symmetry. apply Qle_bool_iff. rewrite Hzero. lra.
Qed.

(** The answer to a spot market order, filled, while [myTrades] fails. *)
Definition unpriced : OrderStatus :=
  match order_result false None CandleAggregator.demo_contract
                     (Some (mkRawOrder 7 "FILLED" None 5)) with
  | Ok (Some os) => os
  | _ => mkOrderStatus (IntId 0) "" 0 0
  end.

Definition entered_unpriced : Strategy :=
  set_ongoing_position
    (set_trades PositionLifecycle.fresh
                [entered spot_funded PositionLifecycle.fresh 1 unpriced]) true.

Definition ticked_unpriced : Strategy * ParseResult * list Effect :=
  match parse_trades spot_funded entered_unpriced 11 1 100 with
  | Ok p => p
  | Raise _ => (entered_unpriced, ret_None, [])
  end.

Lemma unpriced_spot_fill_exits_at_once_witness :
  let t := entered spot_funded PositionLifecycle.fresh 1 unpriced in
  exists entry,
    entry_price t = Some entry /\ entry == 0 /\ side t = long /\
    In (PlaceOrder (exit_order spot_funded (contract entered_unpriced) t))
       (snd ticked_unpriced).
Proof.
  apply (unpriced_spot_fill_exits_at_once spot_funded PositionLifecycle.fresh
           spot_funded entered_unpriced (mkRawOrder 7 "FILLED" None 5) None unpriced
           5 11 1 100%Z (mkCandle 0 10 12 9 11 4)
           (fst (fst ticked_unpriced)) (snd (fst ticked_unpriced)) (snd ticked_unpriced)).
  - reflexivity.
  - discriminate.
  - exact I.
  - vm_compute. reflexivity.
  - left. reflexivity.
  - reflexivity.
  - reflexivity.
  - reflexivity.
  - discriminate.
  - vm_compute. reflexivity.
Defined.

End SpotEntry.

(* ================================================================== *)
(** * Historical candles on Bitmex *)
(* ================================================================== *)

Module BitmexHistory.

Import BitmexRest.

(** An entry with an open and a close. *)
Definition complete (c : RawCandle) : bool :=
  match rc_open c, rc_close c with
  | Some _, Some _ => true
  | _, _ => false
  end.

(** The candle of a complete entry for a bucket width in milliseconds. *)
Definition started_at (W : Z) (c : RawCandle) : Candle :=
  mkCandle (rc_timestamp c - W)
           (match rc_open c with Some o => o | None => 0%Q end)
           (rc_high c) (rc_low c)
           (match rc_close c with Some x => x | None => 0%Q end)
           (rc_volume c).

Lemma collect_candles_ok timeframe minutes l : forall acc,
  BITMEX_TF_MINUTES timeframe = Ok minutes ->
  collect_candles l timeframe acc
    = Ok (acc ++ map (started_at (minutes * 60 * 1000)) (filter complete l)).
Proof.
  intros acc Hm. revert acc.
  induction l as [|c l IH]; intros acc; cbn [collect_candles filter map].
  - now rewrite app_nil_r.
  - unfold complete at 1. destruct (rc_open c) as [o|] eqn:Eo; [|apply IH].
    destruct (rc_close c) as [x|] eqn:Ex; [|apply IH].
    unfold Candle_bitmex. rewrite Hm. cbn [bind map]. rewrite IH, <- app_assoc.
    unfold started_at at 2. now rewrite Eo, Ex.
Qed.

Lemma collect_candles_raise timeframe l : forall acc,
  BITMEX_TF_MINUTES timeframe = Raise KeyError ->
  collect_candles l timeframe acc
    = if existsb complete l then Raise KeyError else Ok acc.
Proof.
  intros acc Hm. revert acc.
  induction l as [|c l IH]; intros acc; cbn [collect_candles existsb]; [reflexivity|].
  unfold complete at 1. destruct (rc_open c) as [o|]; [|apply IH].
  destruct (rc_close c) as [x|]; [|apply IH].
  unfold Candle_bitmex. now rewrite Hm.
Qed.

(** X25.  Bitmex history on the common timeframes: for 1m, 5m and 1h
    the minutes of [BITMEX_TF_MINUTES] agree with the seconds of
    [TF_EQUIV], and [get_historical_candles] returns, oldest first, one
    candle for every entry that has an open and a close, with the prices
    and the volume of the entry and starting exactly one bucket width of
    the strategy before the entry's timestamp. *)
Theorem bitmex_candles_start_one_bucket_early raw t :
  t = tf_1m \/ t = tf_5m \/ t = tf_1h ->
  BITMEX_TF_MINUTES (tf_key t) = Ok (TF_EQUIV t / 60) /\
  get_historical_candles (Some raw) (tf_key t)
    = Ok (map (started_at (TF_EQUIV t * 1000)) (filter complete (rev raw))).
Proof.
  intros Ht.
  assert (Hm : BITMEX_TF_MINUTES (tf_key t) = Ok (TF_EQUIV t / 60))
    by (destruct Ht as [->|[->| ->]]; reflexivity).
  split; [exact Hm|].
  unfold get_historical_candles. rewrite (collect_candles_ok _ _ _ [] Hm). cbn [app].
  replace (TF_EQUIV t / 60 * 60 * 1000) with (TF_EQUIV t * 1000)
    by (destruct Ht as [->|[->| ->]]; reflexivity).
  reflexivity.
Qed.

Lemma bitmex_candles_start_one_bucket_early_witness :
  BITMEX_TF_MINUTES (tf_key tf_5m) = Ok (TF_EQUIV tf_5m / 60) /\
  get_historical_candles
      (Some [mkRawCandle 900000 (Some 3%Q) 4 2 (Some 3%Q) 7;
             mkRawCandle 600000 None 0 0 None 0;
             mkRawCandle 300000 (Some 1%Q) 3 1 (Some 2%Q) 5]) (tf_key tf_5m)
    = Ok (map (started_at (TF_EQUIV tf_5m * 1000))
              (filter complete
                 (rev [mkRawCandle 900000 (Some 3%Q) 4 2 (Some 3%Q) 7;
                       mkRawCandle 600000 None 0 0 None 0;
                       mkRawCandle 300000 (Some 1%Q) 3 1 (Some 2%Q) 5]))).
Proof.
  apply (bitmex_candles_start_one_bucket_early _ tf_5m). right. left. reflexivity.
Defined.

(** X26.  Bitmex history on the other timeframes: 15m, 30m and 4h,
    which a strategy accepts, have no entry in [BITMEX_TF_MINUTES], so
    [get_historical_candles] raises [KeyError] as soon as the answer
    holds an entry with an open and a close, and returns no candle
    otherwise; a failed request returns no candle on any timeframe. *)
Theorem bitmex_history_unsupported_timeframes raw t :
  t = tf_15m \/ t = tf_30m \/ t = tf_4h ->
  (existsb complete raw = true ->
   get_historical_candles (Some raw) (tf_key t) = Raise KeyError) /\
  (existsb complete raw = false ->
   get_historical_candles (Some raw) (tf_key t) = Ok []) /\
  get_historical_candles None (tf_key t) = Ok [].
Proof.
  intros Ht.
  assert (Hm : BITMEX_TF_MINUTES (tf_key t) = Raise KeyError)
    by (destruct Ht as [->|[->| ->]]; reflexivity).
  assert (Hrev : existsb complete (rev raw) = existsb complete raw).
  { destruct (existsb complete raw) eqn:E.
    - apply existsb_exists in E. destruct E as (c & Hin & Hc).
      apply existsb_exists. exists c. split; [now apply in_rev in Hin|exact Hc].
    - destruct (existsb complete (rev raw)) eqn:E'; [|reflexivity].
      apply existsb_exists in E'. destruct E' as (c & Hin & Hc).
      apply in_rev in Hin.
      assert (existsb complete raw = true) by (apply existsb_exists; eauto).
      congruence. }
  unfold get_historical_candles. rewrite (collect_candles_raise _ _ [] Hm), Hrev.
  repeat split; intros ->; reflexivity.
Qed.

Lemma bitmex_history_unsupported_timeframes_witness :
  get_historical_candles (Some [mkRawCandle 900000 (Some 3%Q) 4 2 (Some 3%Q) 7]) "15m"
    = Raise KeyError.
Proof.
  apply (bitmex_history_unsupported_timeframes
           [mkRawCandle 900000 (Some 3%Q) 4 2 (Some 3%Q) 7] tf_15m).
  - left. reflexivity.
  - reflexivity.
Defined.

End BitmexHistory.

(* ================================================================== *)
(** * The contracts of a client *)
(* ================================================================== *)

Module ContractLookup.

Import ContractList.

Local Open Scope nat_scope.

Definition keys {V} (d : dict V) : list string := map fst d.

Definition le_key {V} (a b : string * V) : Prop := String.leb (fst a) (fst b) = true.

Definition lt_key {V} (a b : string * V) : Prop :=
  String.leb (fst a) (fst b) = true /\ fst a <> fst b.

Lemma dict_get_set {V} (d : dict V) k v k' :
  dict_get (dict_set d k v) k' = if String.eqb k k' then Some v else dict_get d k'.
Proof.
  destruct (String.eqb_spec k k') as [->|Hne].
  - apply PyFacts.dict_get_set_same.
  - apply ClientEvents.dict_get_set_other. congruence.
Qed.

Lemma keys_set {V} (d : dict V) k v :
  keys (dict_set d k v) = if str_in k (keys d) then keys d else keys d ++ [k].
Proof.
  unfold keys, str_in. induction d as [|[k0 v0] d IH]; cbn [dict_set map existsb fst];
    [reflexivity|].
  rewrite (String.eqb_sym k k0). destruct (String.eqb k0 k); cbn [map fst orb]; [reflexivity|].
  rewrite IH. now destruct (existsb (String.eqb k) (map fst d)).
Qed.

Lemma keys_set_nodup {V} (d : dict V) k v : NoDup (keys d) -> NoDup (keys (dict_set d k v)).
Proof.
  intros Hd. rewrite keys_set. destruct (str_in k (keys d)) eqn:E; [exact Hd|].
  apply Subscriptions.NoDup_snoc; [exact Hd|]. now apply Subscriptions.str_in_not.
Qed.

Lemma find_snoc {A} (f : A -> bool) l x :
  find f (x :: rev l) = if f x then Some x else find f (rev l).
Proof. reflexivity. Qed.

(** The dict after the loop of assignments. *)
Lemma assigned l : forall (d : dict Contract) sym,
  NoDup (keys d) ->
  let d' := fold_left (fun d c => dict_set d (symbol c) c) l d in
  NoDup (keys d') /\
  dict_get d' sym
    = match find (fun c => String.eqb (symbol c) sym) (rev l) with
      | Some c => Some c
      | None => dict_get d sym
      end.
Proof.
  induction l as [|c l IH]; intros d sym Hd; cbn [fold_left rev].
  - now split.
  - destruct (IH (dict_set d (symbol c) c) sym (keys_set_nodup _ _ _ Hd)) as [H1 H2].
    split; [exact H1|]. cbv zeta in H2. rewrite H2.
    clear. induction (rev l) as [|x r IHr]; cbn [find app].
    + rewrite dict_get_set. now destruct (String.eqb (symbol c) sym).
    + destruct (String.eqb (symbol x) sym); [reflexivity|exact IHr].
Qed.

Lemma keys_insert {V} (kv : string * V) l k :
  In k (keys (insert_item kv l)) <-> k = fst kv \/ In k (keys l).
Proof.
  unfold keys. induction l as [|kv' l IH]; cbn [insert_item map In].
  - intuition.
  - destruct (String.leb (fst kv) (fst kv')); cbn [map In]; [intuition|].
    rewrite IH. intuition.
Qed.

Lemma keys_sorted {V} (d : dict V) k : In k (keys (sorted d)) <-> In k (keys d).
Proof.
  unfold sorted. induction d as [|kv d IH]; cbn [fold_right]; [reflexivity|].
  rewrite keys_insert, IH. unfold keys. cbn [map In]. intuition.
Qed.

Lemma nodup_insert {V} (kv : string * V) l :
  NoDup (keys l) -> ~ In (fst kv) (keys l) -> NoDup (keys (insert_item kv l)).
Proof.
  unfold keys. induction l as [|kv' l IH]; intros Hl Hn; cbn [insert_item map].
  - constructor; [intros []|constructor].
  - destruct (String.leb (fst kv) (fst kv')); cbn [map].
    + constructor; assumption.
    + inversion Hl as [|? ? Hk Hl']; subst. constructor.
      * intros Hin. apply (keys_insert kv l) in Hin. destruct Hin as [He|Hin]; [|auto].
        apply Hn. left. exact He.
      * apply IH; [exact Hl'|]. intros Hin. apply Hn. now right.
Qed.

Lemma nodup_sorted {V} (d : dict V) : NoDup (keys d) -> NoDup (keys (sorted d)).
Proof.
  unfold sorted. induction d as [|kv d IH]; intros Hd; cbn [fold_right]; [constructor|].
  inversion Hd as [|? ? Hk Hd']; subst.
  apply nodup_insert; [now apply IH|]. intros Hin. apply Hk.
  exact (proj1 (keys_sorted d (fst kv)) Hin).
Qed.

Lemma get_insert {V} (kv : string * V) l k :
  ~ In (fst kv) (keys l) ->
  dict_get (insert_item kv l) k
    = if String.eqb (fst kv) k then Some (snd kv) else dict_get l k.
Proof.
  unfold keys. destruct kv as [k0 v0]. cbn [fst snd].
  induction l as [|[k1 v1] l IH]; intros Hn; cbn [insert_item dict_get fst]; [reflexivity|].
  destruct (String.leb k0 k1); cbn [dict_get]; [reflexivity|].
  rewrite IH by (intros Hin; apply Hn; now right).
  destruct (String.eqb_spec k1 k) as [->|]; [|reflexivity].
  destruct (String.eqb_spec k0 k) as [->|]; [|reflexivity].
  exfalso. apply Hn. now left.
Qed.

Lemma get_sorted {V} (d : dict V) k : NoDup (keys d) -> dict_get (sorted d) k = dict_get d k.
Proof.
  unfold sorted. induction d as [|[k0 v0] d IH]; intros Hd; cbn [fold_right dict_get];
    [reflexivity|].
  inversion Hd as [|? ? Hk Hd']; subst.
  rewrite get_insert.
  - cbn [fst snd]. now rewrite IH.
  - cbn [fst]. intros Hin. apply Hk. exact (proj1 (keys_sorted d k0) Hin).
Qed.

Lemma insert_ordered {V} (kv : string * V) l :
  Sorted le_key l -> Sorted le_key (insert_item kv l).
Proof.
  induction l as [|a l IH]; intros Hs; cbn [insert_item].
  - repeat constructor.
  - destruct (String.leb (fst kv) (fst a)) eqn:E.
    + constructor; [exact Hs|]. constructor. exact E.
    + inversion Hs as [|? ? Hl Hhd]; subst.
      assert (Ha : le_key a kv).
      { destruct (String.leb_total (fst kv) (fst a)) as [H|H]; [congruence|exact H]. }
      constructor; [now apply IH|].
      destruct l as [|b l]; cbn [insert_item]; [now constructor|].
      destruct (String.leb (fst kv) (fst b)); constructor; [exact Ha|].
      now inversion Hhd.
Qed.

Lemma sorted_ordered {V} (d : dict V) : Sorted le_key (sorted d).
Proof.
  unfold sorted. induction d as [|kv d IH]; cbn [fold_right]; [constructor|].
  now apply insert_ordered.
Qed.

Lemma ordered_strict {V} (l : list (string * V)) :
  Sorted le_key l -> NoDup (keys l) -> Sorted lt_key l.
Proof.
  unfold keys. induction 1 as [|a l Hl IH Hhd]; intros Hn; [constructor|].
  inversion Hn as [|? ? Hk Hn']; subst. constructor; [now apply IH|].
  destruct Hhd as [|b l Hab]; constructor. split; [exact Hab|].
  intros He. apply Hk. cbn [map]. left. now symmetry.
Qed.

(** X28.  The contracts of a client: the items [get_contracts] returns
    are in ascending order of their symbols with no symbol twice; a
    symbol the exchange listed is found with the contract of its last
    listing, any other symbol is not found; and nothing is found when
    the request failed. *)
Theorem get_contracts_sorted_last_wins listed :
  Sorted lt_key (get_contracts listed) /\
  (forall sym,
     dict_get (get_contracts listed) sym
       = match listed with
         | Some l => find (fun c => String.eqb (symbol c) sym) (rev l)
         | None => None
         end) /\
  (forall l sym, listed = Some l ->
     Binance.contracts_get (Binance.init l) sym
       = match dict_get (get_contracts listed) sym with
         | Some c => Ok c
         | None => Raise KeyError
         end).
Proof.
  assert (Hd : NoDup (keys (match listed with
                            | Some l => fold_left (fun d c => dict_set d (symbol c) c) l []
                            | None => []
                            end))).
  { destruct listed as [l|]; [|constructor].
    apply (assigned l [] EmptyString). constructor. }
  assert (Hget : forall sym,
            dict_get (get_contracts listed) sym
              = match listed with
                | Some l => find (fun c => String.eqb (symbol c) sym) (rev l)
                | None => None
                end).
  { intros sym. unfold get_contracts. cbv zeta. rewrite get_sorted by exact Hd.
    destruct listed as [l|]; [|reflexivity].
    destruct (assigned l [] sym (NoDup_nil _)) as [_ H]. cbv zeta in H. rewrite H.
    now destruct (find _ _). }
  split; [|split; [exact Hget|]].
  - unfold get_contracts. cbv zeta. apply ordered_strict; [apply sorted_ordered|].
    now apply nodup_sorted.
  - intros l sym ->. rewrite Hget. unfold Binance.contracts_get. cbn [Binance.contracts Binance.init].
    now destruct (find _ _).
Qed.

(** A listing that names ETHUSDT twice, with two lot sizes. *)
Definition listing : list Contract :=
  [mkContract "ETHUSDT" "ETH" "USDT" (1 # 100) (1 # 100) false false 1 binance_futures;
   CandleAggregator.demo_contract;
   mkContract "ETHUSDT" "ETH" "USDT" (1 # 100) (1 # 1000) false false 1 binance_futures].

Lemma get_contracts_sorted_last_wins_witness :
  map fst (get_contracts (Some listing)) = ["BTCUSDT"; "ETHUSDT"] /\
  Sorted lt_key (get_contracts (Some listing)) /\
  Binance.contracts_get (Binance.init listing) "ETHUSDT"
    = match dict_get (get_contracts (Some listing)) "ETHUSDT" with
      | Some c => Ok c
      | None => Raise KeyError
      end.
Proof.
  destruct (get_contracts_sorted_last_wins (Some listing)) as (H1 & _ & H3).
  split; [reflexivity|]. split; [exact H1|]. apply (H3 listing). reflexivity.
Defined.

End ContractLookup.

(* ================================================================== *)
(** * Order quantities on Bitmex *)
(* ================================================================== *)

Module BitmexOrders.

Import BitmexRest Sizing.

Local Open Scope Q_scope.

(** X27.  Bitmex orders go to the nearest lot: for a positive lot size
    the quantity [place_order] sends is the whole number of lots nearest
    to the quantity asked, at most half a lot below or above it, and the
    quantity itself when that is a whole number of lots. *)
Theorem order_qty_nearest_lot contract quantity :
  0 < lot_size contract ->
  exists n : Z,
    order_qty contract quantity = Ok (inject_Z n * lot_size contract) /\
    - (lot_size contract / 2) <= inject_Z n * lot_size contract - quantity
      <= lot_size contract / 2 /\
    (forall m : Z, quantity == inject_Z m * lot_size contract -> n = m).
Proof.
  intros Hlot. unfold order_qty. rewrite PyFacts.truediv_nonzero by lra. cbn [bind].
  exists (Py.round (quantity / lot_size contract)). split; [reflexivity|].
  pose proof (round_near (quantity / lot_size contract)) as [Hlo Hhi].
  set (n := inject_Z (Py.round (quantity / lot_size contract))) in *.
  set (y := quantity / lot_size contract) in *.
  assert (Hy : quantity == y * lot_size contract) by (unfold y; field; lra).
  assert (Hh : lot_size contract / 2 == (1 # 2) * lot_size contract) by field.
  split.
  - rewrite Hy, Hh. split; nra.
  - intros m Hm. apply round_integer. unfold y. rewrite Hm. field. lra.
Qed.

Lemma order_qty_nearest_lot_witness :
  exists n : Z,
    order_qty xbtusd 5051 = Ok (inject_Z n * lot_size xbtusd) /\
    - (lot_size xbtusd / 2) <= inject_Z n * lot_size xbtusd - 5051 <= lot_size xbtusd / 2 /\
    (forall m : Z, 5051 == inject_Z m * lot_size xbtusd -> n = m).
Proof.
  apply (order_qty_nearest_lot xbtusd 5051). reflexivity.
Defined.

End BitmexOrders.

(* ================================================================== *)
(** * Instrument updates on Bitmex before a price is known *)
(* ================================================================== *)

Module BitmexPrices.

Import Bitmex.

Local Open Scope Q_scope.








End BitmexPrices.
